(** * The transform/quality engine of the e-commerce ETL pipeline

    A shallow embedding of [transform.py]: deduplication, imputation,
    currency normalisation, order totals, customer lifetime value, fraud
    scoring and order validation, together with the properties the
    specification states about them; then of the list-level validators of
    [validate.py] and of the schema normaliser of [run_transform], with
    further properties read off the code.

    Conventions of the embedding.
    - A cell of a pandas DataFrame is a [value]: [None], the float NaN, a
      bool, an int, a finite float or a str.  Finite floats are modelled by
      the rational number they denote ([Qc]); rounding, overflow and the
      infinities are outside the model.  Strings are byte strings, and case
      folding is the ASCII one.
    - A row (what [df.iterrows()] yields, what [row.get] reads) is a finite
      map from column names to cells; a DataFrame is its ordered column
      index and its list of rows.
    - A call that raises is modelled by [None].
    - Library functions whose grammar is not part of this repository
      (Python's [float] on a str, [pd.to_numeric] and [pd.to_datetime] on a
      cell, [repr] of a float, [str] of a list or dict, the ISO text of a
      time) and the readings of the outside world (the clock, the FX
      service) are parameters. *)

From stdpp Require Import gmap strings list fin_maps numbers pretty sorting.
From Stdlib Require Import QArith Qcanon Ascii String.

Open Scope string_scope.
Open Scope list_scope.
Open Scope Z_scope.

Set Default Proof Using "Type".

(** ** Python values *)

Inductive value : Type :=
  | VNone
  | VNaN
  | VBool (b : bool)
  | VInt (n : Z)
  | VFloat (q : Qc)
  | VStr (s : string).

#[global] Instance value_eq_dec : EqDecision value.
Proof. solve_decision. Defined.

(** The result of Python's [float(...)]: a finite number or NaN. *)
Inductive pyfloat : Type :=
  | Fin (q : Qc)
  | Nan.

#[global] Instance pyfloat_eq_dec : EqDecision pyfloat.
Proof. solve_decision. Defined.

Definition Qc0 : Qc := Qc_of_Z 0.
Definition Qc1 : Qc := Qc_of_Z 1.

(** [bool(v)]: NaN is a non-zero float, hence truthy. *)
Definition truthy (v : value) : bool :=
  match v with
  | VNone => false
  | VNaN => true
  | VBool b => b
  | VInt n => negb (n =? 0)
  | VFloat q => negb (bool_decide (q = Qc0))
  | VStr s => negb (bool_decide (s = ""))
  end.

(** The numeric value of a bool, int or finite float. *)
Definition num_of (v : value) : option Qc :=
  match v with
  | VBool b => Some (if b then Qc1 else Qc0)
  | VInt n => Some (Qc_of_Z n)
  | VFloat q => Some q
  | _ => None
  end.

(** [a == b]: numbers compare by value ([True == 1 == 1.0]), NaN equals
    nothing, values of different kinds are unequal. *)
Definition py_eq (a b : value) : bool :=
  match a, b with
  | VNone, VNone => true
  | VStr s, VStr t => bool_decide (s = t)
  | _, _ =>
      match num_of a, num_of b with
      | Some x, Some y => bool_decide (x = y)
      | _, _ => false
      end
  end.

Definition py_ne (a b : value) : bool := negb (py_eq a b).

(** [pd.isna(v)] on a scalar. *)
Definition isna (v : value) : bool :=
  match v with
  | VNone | VNaN => true
  | _ => false
  end.

(** [isinstance(v, str)]. *)
Definition is_str (v : value) : bool :=
  match v with
  | VStr _ => true
  | _ => false
  end.

(** ** Strings *)

Definition at_sign : ascii := "@"%char.
Definition dot : ascii := "."%char.

(** [s.split(c)] for a one-character separator. *)
Fixpoint split_on (c : ascii) (s : string) : list string :=
  match s with
  | EmptyString => [""]
  | String a s' =>
      if bool_decide (a = c) then "" :: split_on c s'
      else
        match split_on c s' with
        | h :: t => String a h :: t
        | [] => [String a ""]
        end
  end.

Fixpoint count_char (c : ascii) (s : string) : nat :=
  match s with
  | EmptyString => 0%nat
  | String a s' => ((if bool_decide (a = c) then 1 else 0) + count_char c s')%nat
  end.

Definition lower_ascii (a : ascii) : ascii :=
  let n := nat_of_ascii a in
  if ((65 <=? n) && (n <=? 90))%nat then ascii_of_nat (n + 32) else a.

(** [s.lower()]. *)
Fixpoint lower (s : string) : string :=
  match s with
  | EmptyString => EmptyString
  | String a s' => String (lower_ascii a) (lower s')
  end.

(** The longest prefix whose characters satisfy [p], and the rest. *)
Fixpoint span (p : ascii → bool) (s : string) : string * string :=
  match s with
  | EmptyString => ("", "")
  | String a s' =>
      if p a then let '(u, v) := span p s' in (String a u, v)
      else ("", s)
  end.

Fixpoint filter_string (p : ascii → bool) (s : string) : string :=
  match s with
  | EmptyString => EmptyString
  | String a s' => if p a then String a (filter_string p s') else filter_string p s'
  end.

Fixpoint string_forallb (p : ascii → bool) (s : string) : bool :=
  match s with
  | EmptyString => true
  | String a s' => p a && string_forallb p s'
  end.

Definition is_digit (a : ascii) : bool :=
  let n := nat_of_ascii a in ((48 <=? n) && (n <=? 57))%nat.

(** The regular-expression class [\s], on ASCII characters. *)
Definition is_space (a : ascii) : bool :=
  let n := nat_of_ascii a in
  (((9 <=? n) && (n <=? 13)) || ((28 <=? n) && (n <=? 32)))%nat.

(** The characters [_CURRENCY_RE = [^0-9\.-]] leaves in place. *)
Definition currency_char (a : ascii) : bool :=
  is_digit a || bool_decide (a = dot) || bool_decide (a = "-"%char).

Fixpoint digits_value (acc : Z) (s : string) : Z :=
  match s with
  | EmptyString => acc
  | String a s' => digits_value (10 * acc + (Z.of_nat (nat_of_ascii a) - 48)) s'
  end.

(** [float(s)] for a str over the alphabet [0-9.-]: an optional minus sign,
    then digits with at most one point and at least one digit; anything else
    raises [ValueError] ([None]). *)
Definition float_of_plain (s : string) : option Qc :=
  let '(negative, body) :=
    match s with
    | String a t => if bool_decide (a = "-"%char) then (true, t) else (false, s)
    | EmptyString => (false, s)
    end in
  let '(int_part, rest) := span is_digit body in
  let frac_part :=
    match rest with
    | EmptyString => Some ""
    | String a t =>
        if bool_decide (a = dot) && string_forallb is_digit t then Some t else None
    end in
  match frac_part with
  | Some frac =>
      if bool_decide (int_part = "") && bool_decide (frac = "") then None
      else
        let mantissa := digits_value 0 (int_part +:+ frac) in
        let q := (Qc_of_Z mantissa / Qc_of_Z (10 ^ Z.of_nat (String.length frac)))%Qc in
        Some (if negative then (- q)%Qc else q)
  | None => None
  end.

(** Readings of decimal literals, used for the library parameters in the
    worked examples: [float] and [pd.to_numeric] on plain decimal text, and
    [pd.to_datetime] on an integer count of nanoseconds. *)
Definition decimal_float (s : string) : option pyfloat := Fin <$> float_of_plain s.

Definition decimal_numeric (s : string) : option Qc := float_of_plain s.

Definition plain_repr (q : Qc) : string :=
  pretty (Qnum (this q)) +:+ "/" +:+ pretty (Zpos (Qden (this q))).

Definition epoch_ns (v : value) : option Z :=
  match v with
  | VInt n => Some n
  | _ => None
  end.

(** ** Rows and frames *)

Abbreviation row := (gmap string value).

(** [row.get(k)]: the cell, or [None] when the row has no such label. *)
Definition get (r : row) (k : string) : value := default VNone (r !! k).

(** [k in row]. *)
Definition has_key (r : row) (k : string) : bool := bool_decide (is_Some (r !! k)).

Record DataFrame : Type := mkFrame {
  columns : list string;
  rows : list row;
}.

#[global] Instance DataFrame_eq_dec : EqDecision DataFrame.
Proof. solve_decision. Defined.

(** [c in df.columns]. *)
Definition has_col (df : DataFrame) (c : string) : bool := bool_decide (c ∈ columns df).

(** [df[c]] as the list of its cells. *)
Definition column (df : DataFrame) (c : string) : list value :=
  (λ r, get r c) <$> rows df.

(** [df[c] = vals]: an existing column is overwritten in place, a new one is
    appended to the index.  Wherever it is used, [vals] has one value per
    row. *)
Definition set_column (df : DataFrame) (c : string) (vals : list value) : DataFrame :=
  mkFrame (if has_col df c then columns df else columns df ++ [c])
          (zip_with (λ r v, <[c := v]> r) (rows df) vals).

(** ** Proof automation *)

(** Closed equations between rationals under [Some] and list constructors. *)
Ltac qc_eq :=
  repeat first
    [ reflexivity
    | apply Qc_is_canon; reflexivity
    | apply (f_equal2 cons)
    | apply (f_equal Some) ].

(** Closed equations whose two sides compute to the same value. *)
Ltac by_compute := apply (bool_decide_unpack _); vm_compute; exact I.

(** ** Library functions taken as parameters *)

Section Transform.

(** [float(s)] for a str [s]; [None] when it raises [ValueError]. *)
Context (py_float : string → option pyfloat).
(** [repr] of a finite float. *)
Context (float_repr : Qc → string).
(** [pd.to_numeric(cell, errors="coerce")] on a str cell; [None] is NaN. *)
Context (to_numeric_str : string → option Qc).
(** [pd.to_datetime(cell, errors="coerce")] as nanoseconds since the epoch;
    [None] is NaT. *)
Context (to_datetime : value → option Z).

(** [str(v)]. *)
Definition py_str (v : value) : string :=
  match v with
  | VNone => "None"
  | VNaN => "nan"
  | VBool true => "True"
  | VBool false => "False"
  | VInt n => pretty n
  | VFloat q => float_repr q
  | VStr s => s
  end.

(** ** Fraud flagging *)

Definition DISPOSABLE_EMAIL_DOMAINS : gset string :=
  {[ "mailinator.com"; "10minutemail.com"; "tempmail.com"; "trashmail.com" ]}.

(** [_email_domain]: the lower-cased last part of an email that splits in
    exactly two parts at ["@"]. *)
Definition email_domain (email : value) : option string :=
  if negb (truthy email) || negb (is_str email) then None
  else
    match email with
    | VStr s =>
        let parts := split_on at_sign s in
        if bool_decide (List.length parts = 2%nat)
        then Some (lower (default "" (last parts)))
        else None
    | _ => None
    end.

(** The [try: otv = float(ot) if ... else 0.0  except: otv = 0.0] block. *)
Definition order_total_value (ot : value) : pyfloat :=
  match ot with
  | VNone => Fin Qc0
  | VNaN => Fin Qc0
  | VBool b => Fin (if b then Qc1 else Qc0)
  | VInt n => Fin (Qc_of_Z n)
  | VFloat q => Fin q
  | VStr s => default (Fin Qc0) (py_float s)
  end.

(** [x >= t] on floats: false for NaN. *)
Definition float_ge (x : pyfloat) (t : Qc) : bool :=
  match x with
  | Fin q => bool_decide (t ≤ q)%Qc
  | Nan => false
  end.

Definition high_value_rule (threshold : Qc) (r : row) : bool :=
  float_ge (order_total_value (get r "order_total")) threshold.

Definition country_mismatch_rule (r : row) : bool :=
  truthy (get r "shipping_country") && truthy (get r "billing_country")
  && py_ne (get r "shipping_country") (get r "billing_country").

Definition disposable_email_rule (suspicious : gset string) (r : row) : bool :=
  match email_domain (get r "email") with
  | Some ed => negb (bool_decide (ed = "")) && bool_decide (ed ∈ suspicious)
  | None => false
  end.

Definition missing_identity_rule (r : row) : bool :=
  existsb (λ c, negb (truthy (get r c))) ["billing_name"; "billing_address"].

(** The body of the loop over [df.iterrows()]. *)
Definition fraud_score (threshold : Qc) (suspicious : gset string) (r : row) : Z :=
  let score := 0 in
  let score := if high_value_rule threshold r then score + 3 else score in
  let score := if country_mismatch_rule r then score + 2 else score in
  let score := if disposable_email_rule suspicious r then score + 3 else score in
  let score := if missing_identity_rule r then score + 1 else score in
  score.

Definition suspicious_domains (extra : list string) : gset string :=
  list_to_set extra ∪ DISPOSABLE_EMAIL_DOMAINS.

Definition flag_fraud (df : DataFrame) (high_value_threshold : Qc)
    (suspicious_email_domains : list string) : DataFrame :=
  let suspicious := suspicious_domains suspicious_email_domains in
  let scores := fraud_score high_value_threshold suspicious <$> rows df in
  let flags := (λ score, bool_decide (4 ≤ score)) <$> scores in
  set_column (set_column df "fraud_score" (VInt <$> scores)) "fraud_flag" (VBool <$> flags).

(** ** Validation *)

Definition is_local_char (a : ascii) : bool :=
  negb (bool_decide (a = at_sign) || is_space a).

(** Some dot of [s] has a character before it and a character after it. *)
Fixpoint has_inner_dot_from (seen_one : bool) (s : string) : bool :=
  match s with
  | EmptyString => false
  | String a s' =>
      (seen_one && bool_decide (a = dot) && negb (bool_decide (s' = "")))
      || has_inner_dot_from true s'
  end.

(** [email_re.match(s)] for [email_re = [^@\s]+@[^@\s]+\.[^@\s]+]: the match
    is anchored at the start of [s] only. *)
Definition email_re_match (s : string) : bool :=
  let '(local_part, rest) := span is_local_char s in
  negb (bool_decide (local_part = ""))
  && match rest with
     | String a rest' =>
         bool_decide (a = at_sign)
         && has_inner_dot_from false (span is_local_char rest').1
     | EmptyString => false
     end.

Definition DEFAULT_REQUIRED_FIELDS : list string :=
  ["order_id"; "customer_id"; "order_date"; "order_total"].

Definition DEFAULT_ALLOWED_STATUSES : list string :=
  ["paid"; "pending"; "refunded"; "cancelled"].

(** [xs or default] for an optional iterable. *)
Definition or_default {A} (xs : option (list A)) (d : list A) : list A :=
  match xs with
  | Some (x :: l) => x :: l
  | _ => d
  end.

(** [v in allowed] for a set of str. *)
Definition in_statuses (allowed : gset string) (v : value) : bool :=
  match v with
  | VStr s => bool_decide (s ∈ allowed)
  | _ => false
  end.

(** The body of the loop over [df.iterrows()]. *)
Definition row_issues (required_fields : list string) (allowed : gset string)
    (r : row) : list string :=
  let issues :=
    flat_map (λ f, if negb (truthy (get r f)) && py_ne (get r f) (VInt 0)
                   then ["missing_" +:+ f] else []) required_fields in
  let issues :=
    if has_key r "status" && truthy (get r "status")
       && negb (in_statuses allowed (get r "status"))
    then issues ++ ["invalid_status:" +:+ py_str (get r "status")] else issues in
  let e := get r "email" in
  let issues :=
    if truthy e && negb (email_re_match (py_str e))
    then issues ++ ["invalid_email"] else issues in
  issues.

(** The frame and its [validation_issues] column: cells are scalars, so the
    list-valued column is kept beside the frame, one list per row. *)
Record Validated : Type := mkValidated {
  validated_frame : DataFrame;
  validation_issues : list (list string);
}.

Definition validate_orders (df : DataFrame) (required_fields : option (list string))
    (allowed_statuses : option (list string)) : Validated :=
  let required := or_default required_fields DEFAULT_REQUIRED_FIELDS in
  let allowed : gset string :=
    list_to_set (or_default allowed_statuses DEFAULT_ALLOWED_STATUSES) in
  let issues_list := row_issues required allowed <$> rows df in
  mkValidated df issues_list.

(** ** Numeric columns *)

(** [pd.to_numeric(cell, errors="coerce")]: the number in the cell, NaN
    ([None] here) for a null or an unparseable cell.  The dtype of a numeric
    column (int64 or float64) is not tracked. *)
Definition to_numeric (v : value) : option Qc :=
  match v with
  | VNone | VNaN => None
  | VBool b => Some (if b then Qc1 else Qc0)
  | VInt n => Some (Qc_of_Z n)
  | VFloat q => Some q
  | VStr s => to_numeric_str s
  end.

(** [series.fillna(d)] on a numeric column. *)
Definition fillna (d : Qc) (cells : list (option Qc)) : list Qc :=
  default d <$> cells.

(** A float cell of a result column: NaN is the null. *)
Definition float_cell (x : option Qc) : value :=
  match x with
  | Some q => VFloat q
  | None => VNaN
  end.

(** [name and name in df.columns] for an optional column argument. *)
Definition optional_col (df : DataFrame) (name : option string) : option string :=
  match name with
  | Some c => if negb (bool_decide (c = "")) && has_col df c then Some c else None
  | None => None
  end.

(** ** Order totals *)

(** [df.get(price_col, 0)] hands a missing column's default, a bare number,
    to [pd.to_numeric], which returns it unchanged; the number has no
    [fillna] and the call raises [AttributeError].  The same holds for
    [df.get(qty_col, 1)]. *)
Definition calculate_order_total (df : DataFrame) (price_col qty_col : string)
    (discount_col tax_col shipping_col : option string) (out_col : string)
    : option DataFrame :=
  if negb (has_col df price_col) then None
  else if negb (has_col df qty_col) then None
  else
    let price := fillna Qc0 (to_numeric <$> column df price_col) in
    let qty := fillna Qc1 (to_numeric <$> column df qty_col) in
    let total := zip_with Qcmult price qty in
    let total :=
      match optional_col df discount_col with
      | Some c => zip_with Qcminus total (fillna Qc0 (to_numeric <$> column df c))
      | None => total
      end in
    let total :=
      match optional_col df tax_col with
      | Some c => zip_with Qcplus total (fillna Qc0 (to_numeric <$> column df c))
      | None => total
      end in
    let total :=
      match optional_col df shipping_col with
      | Some c => zip_with Qcplus total (fillna Qc0 (to_numeric <$> column df c))
      | None => total
      end in
    Some (set_column df out_col (VFloat <$> total)).

(** ** Currency normalisation *)

(** [_parse_amount].  [str(v).strip()] needs no step of its own: the
    substitution deletes every whitespace character anyway. *)
Definition parse_amount (v : value) : option Qc :=
  match v with
  | VNone | VNaN => None
  | VBool b => Some (if b then Qc1 else Qc0)
  | VInt n => Some (Qc_of_Z n)
  | VFloat q => Some q
  | VStr s =>
      let s := filter_string currency_char s in
      if bool_decide (s = "") then None else float_of_plain s
  end.

(** [rate_map.get(cur, 1.0)] for a map keyed by currency codes. *)
Definition rate_of (rate_map : gmap string Qc) (cur : value) : Qc :=
  match cur with
  | VStr c => default Qc1 (rate_map !! c)
  | _ => Qc1
  end.

(** What the FX service answered for a base currency: [None] when the
    request fails, is not answered with status 200 or raises; otherwise the
    [rates] object of the response. *)
Context (fx_latest : string → option (list (string * Qc))).

(** The rate map after the live-fetch block: [1/r] for every quoted rate
    ([1] for a zero one), and [1] for the target currency itself. *)
Definition fetched_rate_map (target_currency : string) : gmap string Qc :=
  match fx_latest target_currency with
  | Some rates =>
      <[target_currency := Qc1]>
        (list_to_map ((λ '(cur, r), (cur, if bool_decide (r = Qc0) then Qc1 else (Qc1 / r)%Qc))
                        <$> rates))
  | None => ∅
  end.

(** The rate map the conversion uses: the caller's, unless it is empty and a
    currency column is there to convert. *)
Definition effective_rate_map (df : DataFrame) (currency_col : option string)
    (rate_map : gmap string Qc) (target_currency : string) : gmap string Qc :=
  if bool_decide (rate_map = ∅) && bool_decide (is_Some (optional_col df currency_col))
  then fetched_rate_map target_currency
  else rate_map.

(** [_to_target]. *)
Definition to_target (rate_map : gmap string Qc) (amount_col currency_col : string)
    (r : row) : option Qc :=
  let amt := get r amount_col in
  let cur := get r currency_col in
  match parse_amount amt with
  | None => None
  | Some a => Some (a * rate_of rate_map cur)%Qc
  end.

(** [df[amount_col]] raises [KeyError] when the column is missing. *)
Definition normalize_currency (df : DataFrame) (amount_col : string)
    (currency_col : option string) (rate_map : gmap string Qc)
    (target_currency : string) : option DataFrame :=
  let rate_map := effective_rate_map df currency_col rate_map target_currency in
  if negb (has_col df amount_col) then None
  else
    let parsed := parse_amount <$> column df amount_col in
    match optional_col df currency_col with
    | Some c =>
        Some (set_column df (amount_col +:+ "_normalized")
                (float_cell <$> (to_target rate_map amount_col c <$> rows df)))
    | None =>
        Some (set_column df (amount_col +:+ "_normalized") (float_cell <$> parsed))
    end.

(** ** Deduplication *)

(** The [keep] argument of [drop_duplicates]: ['first'], ['last'], [False]. *)
Inductive keep_policy : Type :=
  | KeepFirst
  | KeepLast
  | KeepNone.

(** Equality of two cells for [duplicated]: all nulls fall in one class,
    other cells compare as Python values. *)
Definition dup_eq (a b : value) : bool :=
  (isna a && isna b) || py_eq a b.

Definition key_of (keys : list string) (r : row) : list value :=
  get r <$> keys.

Fixpoint keys_eq (k1 k2 : list value) : bool :=
  match k1, k2 with
  | [], [] => true
  | a :: k1', b :: k2' => dup_eq a b && keys_eq k1' k2'
  | _, _ => false
  end.

(** [duplicated(keep)]: a key is marked when an equal one stands earlier
    ([first]), later ([last]) or anywhere else ([False]). *)
Fixpoint duplicated_from (keep : keep_policy) (before ks : list (list value)) : list bool :=
  match ks with
  | [] => []
  | k :: rest =>
      let earlier := existsb (keys_eq k) before in
      let later := existsb (keys_eq k) rest in
      match keep with
      | KeepFirst => earlier
      | KeepLast => later
      | KeepNone => earlier || later
      end :: duplicated_from keep (k :: before) rest
  end.

Definition duplicated (keep : keep_policy) (ks : list (list value)) : list bool :=
  duplicated_from keep [] ks.

(** [df[~mask]]. *)
Fixpoint drop_marked {A} (marks : list bool) (l : list A) : list A :=
  match marks, l with
  | m :: marks', x :: l' => if m then drop_marked marks' l' else x :: drop_marked marks' l'
  | _, _ => []
  end.

(** [df.empty]. *)
Definition frame_empty (df : DataFrame) : bool :=
  bool_decide (columns df = []) || bool_decide (rows df = []).

(** The columns [duplicated] compares: all of them for [subset=None]; a
    label of [subset] that is no column raises [KeyError], and an empty
    [subset] raises [ValueError] (both [None] here). *)
Definition key_columns (df : DataFrame) (subset : option (list string))
    : option (list string) :=
  match subset with
  | None => Some (columns df)
  | Some [] => None
  | Some l => if forallb (has_col df) l then Some l else None
  end.

(** [df.drop_duplicates(subset, keep)]: an empty frame is returned as it is,
    whatever [subset] holds. *)
Definition drop_duplicates (df : DataFrame) (subset : option (list string))
    (keep : keep_policy) : option DataFrame :=
  if frame_empty df then Some df
  else
    match key_columns df subset with
    | Some ks =>
        Some (mkFrame (columns df)
                (drop_marked (duplicated keep (key_of ks <$> rows df)) (rows df)))
    | None => None
    end.

Definition remove_duplicates (df : DataFrame) (subset : option (list string))
    (keep : keep_policy) : option (DataFrame * Z) :=
  let before := Z.of_nat (List.length (rows df)) in
  match drop_duplicates df subset keep with
  | Some cleaned =>
      let removed := before - Z.of_nat (List.length (rows cleaned)) in
      Some (cleaned, removed)
  | None => None
  end.

(** ** Customer lifetime value *)

(** A row of the frame [calculate_clv] returns.  A timestamp is its number
    of nanoseconds since the epoch; [None] is NaT, or NaN for a day count. *)
Record ClvRow : Type := mkClvRow {
  clv_customer : value;
  clv : Qc;
  total_orders : Z;
  avg_order_value : Qc;
  last_order_date : option Z;
  recency_days : option Z;
  frequency : Z;
}.

#[global] Instance ClvRow_eq_dec : EqDecision ClvRow.
Proof. solve_decision. Defined.

Definition NS_PER_DAY : Z := 86400 * 10 ^ 9.

(** The order in which [groupby] sorts its keys: numbers by value, before
    strings in lexicographic order. *)
Definition key_le (a b : value) : bool :=
  match a, b with
  | VStr s, VStr t => String.leb s t
  | VStr _, _ => false
  | _, VStr _ => true
  | _, _ =>
      match num_of a, num_of b with
      | Some x, Some y => bool_decide (x ≤ y)%Qc
      | _, _ => true
      end
  end.

(** The distinct non-null keys, in order of first appearance. *)
Fixpoint distinct_keys (seen : list value) (l : list value) : list value :=
  match l with
  | [] => []
  | k :: l' =>
      if isna k || existsb (py_eq k) seen then distinct_keys seen l'
      else k :: distinct_keys (k :: seen) l'
  end.

Definition group_keys (keys : list value) : list value :=
  merge_sort (λ a b, Is_true (key_le a b)) (distinct_keys [] keys).

Definition sum_Qc (l : list Qc) : Qc := foldr Qcplus Qc0 l.

(** The latest of the timestamps that are not NaT. *)
Definition max_date (l : list (option Z)) : option Z :=
  foldr (λ d acc,
           match d, acc with
           | Some t, Some u => Some (Z.max t u)
           | Some t, None => Some t
           | None, _ => acc
           end) None l.

(** The aggregates of one group, then the derived columns. *)
Definition clv_row (now : Z) (key : value) (members : list (Qc * option Z)) : ClvRow :=
  let total := sum_Qc members.*1 in
  let count := Z.of_nat (List.length members) in
  let last := max_date members.*2 in
  {| clv_customer := key;
     clv := total;
     total_orders := count;
     avg_order_value := (total / Qc_of_Z count)%Qc;
     last_order_date := last;
     recency_days := (λ t, (now - t) `div` NS_PER_DAY) <$> last;
     frequency := count |}.

(** The order totals and order dates of the rows whose customer is [key]. *)
Definition group_members (key : value) (keyed : list (value * (Qc * option Z)))
    : list (Qc * option Z) :=
  (filter (λ kv, Is_true (py_eq kv.1 key)) keyed).*2.

(** [now] is the reading of [pd.Timestamp.utcnow()], made timezone-naive.
    The call raises when the order-total column is missing (its default, a
    bare number, has no [fillna]), when the [order_date] column is missing
    (the day count needs datetime values) and when the customer column is
    missing ([KeyError] in [groupby]).  The customer, order-total and
    order-date columns are taken to be three different columns. *)
Definition calculate_clv (now : Z) (df_orders : DataFrame)
    (customer_id_col order_total_col : string) : option (list ClvRow) :=
  if negb (has_col df_orders order_total_col) then None
  else if negb (has_col df_orders "order_date") then None
  else if negb (has_col df_orders customer_id_col) then None
  else
    let totals := fillna Qc0 (to_numeric <$> column df_orders order_total_col) in
    let dates := to_datetime <$> column df_orders "order_date" in
    let keys := column df_orders customer_id_col in
    let keyed := zip keys (zip totals dates) in
    Some ((λ key, clv_row now key (group_members key keyed)) <$> group_keys keys).

(** ** The stage pipeline *)

Record StageOutput : Type := mkStageOutput {
  out_orders : Validated;
  out_clv : option (list ClvRow);
}.

(** The stages [run_transform] applies to an already normalised order
    batch: the order total when the batch has none, fraud flagging,
    validation, and the customer lifetime values, whose failure is logged
    and leaves the orders in place. *)
Definition run_stages (now : Z) (df_orders : DataFrame) : option StageOutput :=
  let with_total :=
    if has_col df_orders "order_total" then Some df_orders
    else calculate_order_total df_orders "price" "quantity" None None None "order_total" in
  match with_total with
  | Some df =>
      let df := flag_fraud df (Qc_of_Z 1000) [] in
      let validated := validate_orders df None None in
      Some (mkStageOutput validated
              (calculate_clv now (validated_frame validated) "customer_id" "order_total"))
  | None => None
  end.

(** ** Imputation *)

(** A column with its dtype: numeric (NaN, here [None], is the null),
    datetime64 (NaT, here [None], is the null; a timestamp is its number of
    nanoseconds since the epoch), or object. *)
Inductive series : Type :=
  | NumericCol (cells : list (option Qc))
  | DatetimeCol (cells : list (option Z))
  | ObjectCol (cells : list value).

Definition is_null {A} (c : option A) : bool :=
  match c with
  | Some _ => false
  | None => true
  end.

(** The nulls of a column, cell by cell. *)
Definition null_mask (s : series) : list bool :=
  match s with
  | NumericCol cells => is_null <$> cells
  | DatetimeCol cells => is_null <$> cells
  | ObjectCol cells => isna <$> cells
  end.

(** [series.fillna(val)]. *)
Definition fill_with {A} (null : A → bool) (val : A) (cells : list A) : list A :=
  (λ c, if null c then val else c) <$> cells.

(** [series.fillna(method="ffill")]: a null takes the last non-null value
    above it, and stays null when there is none. *)
Fixpoint ffill_from {A} (null : A → bool) (last : option A) (cells : list A) : list A :=
  match cells with
  | [] => []
  | c :: cells' =>
      if null c then default c last :: ffill_from null last cells'
      else c :: ffill_from null (Some c) cells'
  end.

Definition ffill {A} (null : A → bool) (cells : list A) : list A :=
  ffill_from null None cells.

(** [series.fillna(method="bfill")]: a null takes the first non-null value
    below it, and stays null when there is none. *)
Fixpoint bfill {A} (null : A → bool) (cells : list A) : list A :=
  match cells with
  | [] => []
  | c :: cells' =>
      let filled := bfill null cells' in
      (if null c
       then match head filled with
            | Some f => if null f then c else f
            | None => c
            end
       else c) :: filled
  end.

Definition fill_method {A} (method : string) (null : A → bool) (cells : list A) : list A :=
  if bool_decide (method = "ffill") then ffill null cells else bfill null cells.

(** [series.median()]: NaN ([None]) when no cell is non-null. *)
Definition median (cells : list (option Qc)) : option Qc :=
  let sorted := merge_sort Qcle (omap id cells) in
  let n := List.length sorted in
  if bool_decide (n = 0%nat) then None
  else if Nat.odd n then sorted !! (n / 2)%nat
  else
    match sorted !! (n / 2 - 1)%nat, sorted !! (n / 2)%nat with
    | Some a, Some b => Some ((a + b) / Qc_of_Z 2)%Qc
    | _, _ => None
    end.

(** [series.mean()]: NaN ([None]) when no cell is non-null. *)
Definition mean (cells : list (option Qc)) : option Qc :=
  let present := omap id cells in
  if bool_decide (present = []) then None
  else Some (sum_Qc present / Qc_of_Z (Z.of_nat (List.length present)))%Qc.

Definition impute_numeric (numeric_strategy : string) (cells : list (option Qc))
    : list (option Qc) :=
  let fill val :=
    let val := match val with Some q => q | None => Qc0 end in
    fill_with is_null (Some val) cells in
  if bool_decide (numeric_strategy = "median") then fill (median cells)
  else if bool_decide (numeric_strategy = "mean") then fill (mean cells)
  else if bool_decide (numeric_strategy = "zero") then fill (Some Qc0)
  else if bool_decide (numeric_strategy ∈ ["ffill"; "bfill"])
  then fill_method numeric_strategy is_null cells
  else fill (Some Qc0).

Definition impute_datetime (datetime_strategy : string) (cells : list (option Z))
    : list (option Z) :=
  if bool_decide (datetime_strategy ∈ ["ffill"; "bfill"])
  then fill_method datetime_strategy is_null cells
  else if bool_decide (datetime_strategy = "epoch") then fill_with is_null (Some 0) cells
  else cells.

Fixpoint string_existsb (p : ascii → bool) (s : string) : bool :=
  match s with
  | EmptyString => false
  | String a s' => p a || string_existsb p s'
  end.

(** [_looks_like_datetime_series]: of the first twenty non-null cells, as
    text, at least a quarter (and at least one) hold one of [-], [:], [T]. *)
Definition looks_like_datetime_series (cells : list value) : bool :=
  let sample := take 20 (py_str <$> filter (λ c, Is_true (negb (isna c))) cells) in
  if bool_decide (sample = []) then false
  else
    let n_matches :=
      List.length
        (filter (λ v, Is_true (string_existsb
                                 (λ a, bool_decide (a ∈ ["-"%char; ":"%char; "T"%char])) v))
                sample) in
    bool_decide (Nat.max 1 (List.length sample / 4) ≤ n_matches)%nat.

(** How often a cell equal to [v] occurs. *)
Definition occurrences (v : value) (cells : list value) : nat :=
  List.length (filter (λ c, Is_true (py_eq c v)) cells).

(** [series.mode(dropna=True).iloc[0]]: the least of the most frequent
    non-null values; [None] when every cell is null. *)
Definition mode_value (cells : list value) : option value :=
  let present := filter (λ c, Is_true (negb (isna c))) cells in
  let top := foldr Nat.max 0%nat ((λ v, occurrences v present) <$> present) in
  head (merge_sort (λ a b, Is_true (key_le a b))
          (filter (λ v, occurrences v present = top) (distinct_keys [] present))).

Definition impute_categorical (categorical_strategy : string) (cells : list value)
    : list value :=
  if bool_decide (categorical_strategy = "mode")
  then fill_with isna (default (VStr "") (mode_value cells)) cells
  else if bool_decide (categorical_strategy = "unknown")
  then fill_with isna (VStr "<unknown>") cells
  else if bool_decide (categorical_strategy ∈ ["ffill"; "bfill"])
  then fill_method categorical_strategy isna cells
  else fill_with isna (VStr "") cells.

(** [series.fillna(value)] for a caller-supplied value of any kind; [None]
    when it raises. *)
Context (series_fillna : series → value → option series).

(** The branch of the loop body that applies a strategy, chosen by the
    dtype of the column; object columns that look like dates are parsed
    first. *)
Definition impute_by_strategy
    (numeric_strategy categorical_strategy datetime_strategy : string)
    (col : series) : series :=
  match col with
  | NumericCol cells => NumericCol (impute_numeric numeric_strategy cells)
  | DatetimeCol cells => DatetimeCol (impute_datetime datetime_strategy cells)
  | ObjectCol cells =>
      if looks_like_datetime_series cells
      then DatetimeCol (impute_datetime datetime_strategy (to_datetime <$> cells))
      else ObjectCol (impute_categorical categorical_strategy cells)
  end.

(** The body of the loop over the columns: an explicit fill value goes
    first. *)
Definition impute_column (numeric_strategy categorical_strategy datetime_strategy : string)
    (fill_values : gmap string value) (name : string) (col : series) : option series :=
  match fill_values !! name with
  | Some v => series_fillna col v
  | None =>
      Some (impute_by_strategy numeric_strategy categorical_strategy datetime_strategy col)
  end.

Definition impute_missing (df : list (string * series))
    (numeric_strategy categorical_strategy datetime_strategy : string)
    (fill_values : gmap string value) : option (list (string * series)) :=
  mapM (λ '(name, col),
          col' ← impute_column numeric_strategy categorical_strategy datetime_strategy
                   fill_values name col;
          Some (name, col')) df.

(** ** Batches of the worked examples *)

(** [series.fillna(value)] for a value of the column's own kind; [None]
    raises, NaN fills nothing; other pairings are not needed here. *)
Definition fillna_same_kind (col : series) (v : value) : option series :=
  match v, col with
  | VNone, _ => None
  | VNaN, _ => Some col
  | _, NumericCol cells =>
      (λ q, NumericCol (fill_with is_null (Some q) cells)) <$> num_of v
  | VInt t, DatetimeCol cells => Some (DatetimeCol (fill_with is_null (Some t) cells))
  | _, DatetimeCol _ => None
  | _, ObjectCol cells => Some (ObjectCol (fill_with isna v cells))
  end.

(** [price = [10, 5]], [quantity = [2, 3]]. *)
Definition orders_basic : DataFrame :=
  mkFrame ["price"; "quantity"]
    [ {[ "price" := VInt 10; "quantity" := VInt 2 ]};
      {[ "price" := VInt 5; "quantity" := VInt 3 ]} ].

(** A batch with a price and no quantity column. *)
Definition orders_without_quantity : DataFrame :=
  mkFrame ["price"] [ {[ "price" := VInt 10 ]} ].

(** Amounts with currency symbols, one in USD and one in EUR. *)
Definition orders_currency : DataFrame :=
  mkFrame ["amount"; "currency"]
    [ {[ "amount" := VStr "$10.00"; "currency" := VStr "USD" ]};
      {[ "amount" := VStr "€20.00"; "currency" := VStr "EUR" ]} ].

Definition rates_usd_eur : gmap string Qc :=
  {[ "USD" := Qc1; "EUR" := (Qc_of_Z 11 / Qc_of_Z 10)%Qc ]}.

(** Three orders of two customers, dated 2020-01-01, 2020-02-01 and
    2020-03-01: the days 18262, 18293 and 18322 after the epoch. *)
Definition orders_clv : DataFrame :=
  mkFrame ["customer_id"; "order_total"; "order_date"]
    [ {[ "customer_id" := VStr "c1"; "order_total" := VInt 10;
         "order_date" := VInt (18262 * NS_PER_DAY) ]};
      {[ "customer_id" := VStr "c1"; "order_total" := VInt 20;
         "order_date" := VInt (18293 * NS_PER_DAY) ]};
      {[ "customer_id" := VStr "c2"; "order_total" := VInt 5;
         "order_date" := VInt (18322 * NS_PER_DAY) ]} ].

(** Two readings of the clock, a day apart: noon of 2024-01-01 and of
    2024-01-02. *)
Definition noon_2024_01_01 : Z := 19723 * NS_PER_DAY + NS_PER_DAY `div` 2.

Definition noon_2024_01_02 : Z := 19724 * NS_PER_DAY + NS_PER_DAY `div` 2.

(** [a = [1, 1, 2]], [b = ["x", "x", "y"]]. *)
Definition rows_with_duplicate : DataFrame :=
  mkFrame ["a"; "b"]
    [ {[ "a" := VInt 1; "b" := VStr "x" ]};
      {[ "a" := VInt 1; "b" := VStr "x" ]};
      {[ "a" := VInt 2; "b" := VStr "y" ]} ].

(** An order without [order_id] and one with every required field, a known
    status and a well-formed email. *)
Definition orders_to_validate : DataFrame :=
  mkFrame ["order_id"; "customer_id"; "order_date"; "order_total"; "status"; "email"]
    [ {[ "customer_id" := VStr "c1"; "order_date" := VStr "2020-01-01";
         "order_total" := VInt 10 ]};
      {[ "order_id" := VStr "o2"; "customer_id" := VStr "c2";
         "order_date" := VStr "2020-01-02"; "order_total" := VInt 0;
         "status" := VStr "paid"; "email" := VStr "ok@example.com" ]};
      {[ "order_id" := VStr "o3"; "customer_id" := VStr "c3";
         "order_date" := VStr "2020-01-03"; "order_total" := VNaN;
         "status" := VStr "shipped"; "email" := VStr "not-an-email" ]} ].

(** The records of the fraud examples. *)
Definition order_high_value : row := {[ "order_total" := VInt 2000 ]}.

Definition order_low_value : row :=
  {[ "order_total" := VInt 50; "shipping_country" := VStr "US";
     "billing_country" := VStr "US"; "email" := VStr "ok@example.com" ]}.


(** A numeric column that starts with a null. *)
Definition frame_leading_null : list (string * series) :=
  [ ("num", NumericCol [None; Some (Qc_of_Z 1); Some (Qc_of_Z 3)]) ].

(** ** The list-level validators of [validate.py]

    A record is a dict from field names to scalar values, modelled like a
    row. *)

(** [v is None]. *)
Definition is_none (v : value) : bool :=
  match v with
  | VNone => true
  | _ => false
  end.

(** [o.get(key) or f"idx:{idx}"], as text: the identifier under which the
    issues of a record are reported. *)
Definition ident_of (key : string) (idx : nat) (o : row) : string :=
  py_str (if truthy (get o key) then get o key else VStr ("idx:" +:+ pretty idx)).

(** The condition under which [validate_orders_list] reports a field as
    missing: [f not in o or o.get(f) is None or (isinstance(o.get(f), str)
    and o.get(f).strip() == "")]. *)
Definition list_field_missing (o : row) (f : string) : bool :=
  negb (has_key o f) || is_none (get o f)
  || match get o f with
     | VStr s => string_forallb is_space s
     | _ => false
     end.

(** [float(v)] for a value; [None] when it raises. *)
Definition py_float_value (v : value) : option pyfloat :=
  match v with
  | VNone => None
  | VNaN => Some Nan
  | VBool b => Some (Fin (if b then Qc1 else Qc0))
  | VInt n => Some (Fin (Qc_of_Z n))
  | VFloat q => Some (Fin q)
  | VStr s => py_float s
  end.

(** The [try] block of [validate_orders_list]: the numeric check of the
    order total. *)
Definition order_total_issues (o : row) : list string :=
  if has_key o "order_total" && negb (is_none (get o "order_total")) then
    match py_float_value (get o "order_total") with
    | Some (Fin val) => if bool_decide (val < Qc0)%Qc then ["negative_order_total"] else []
    | Some Nan => []
    | None => ["invalid_order_total"]
    end
  else [].

Definition validate_orders_list (orders : list row) (required_fields : option (list string))
    : list (string * list string) :=
  let required_fields := or_default required_fields DEFAULT_REQUIRED_FIELDS in
  imap (λ idx o,
          let issues :=
            flat_map (λ f, if list_field_missing o f then ["missing_" +:+ f] else [])
              required_fields in
          let issues := issues ++ order_total_issues o in
          (ident_of "order_id" idx o, issues)) orders.

(** The body of the loop of [validate_customers_list].  ["@" not in email]
    raises [TypeError] for a truthy email that is no str ([None] here). *)
Definition customer_issues (c : row) : option (list string) :=
  let issues := if negb (truthy (get c "customer_id")) then ["missing_customer_id"] else [] in
  let email := get c "email" in
  if truthy email then
    match email with
    | VStr s =>
        Some (if bool_decide (count_char at_sign s = 0%nat)
              then issues ++ ["invalid_email"] else issues)
    | _ => None
    end
  else Some issues.

Definition validate_customers_list (customers : list row)
    : option (list (string * list string)) :=
  mapM id (imap (λ idx c,
                   issues ← customer_issues c;
                   Some (ident_of "customer_id" idx c, issues)) customers).

Definition validate_transactions_list (transactions : list row)
    : list (string * list string) :=
  imap (λ idx t,
          let issues :=
            if negb (truthy (get t "transaction_id")) then ["missing_transaction_id"] else [] in
          let issues :=
            if negb (truthy (get t "amount")) && py_ne (get t "amount") (VInt 0)
            then issues ++ ["missing_amount"] else issues in
          (ident_of "transaction_id" idx t, issues)) transactions.

(** What a call that returns nothing did: it returned, or it raised
    [ValueError] with a message. *)
Inductive outcome : Type :=
  | Returned
  | Raised (message : string).

Definition newline : string := String (ascii_of_nat 10) "".

Definition raise_if_issues (issues : list (string * list string)) (name : string) : outcome :=
  let bad := filter (λ i, i.2 ≠ []) issues in
  if bool_decide (bad = []) then Returned
  else
    let lines := (λ '(ident, iss), ident +:+ ": " +:+ String.concat ", " iss) <$> bad in
    Raised ("Validation failed for " +:+ name +:+ ":" +:+ newline
            +:+ String.concat newline lines).

(** ** The schema normaliser of [run_transform]

    A payload is what [json.load] returns: [None], a bool, an int, a
    finite float or NaN, a str, a list, or a dict, here the list of its
    items (the keys of a dict are distinct).  The length of a str is
    counted in characters of the byte string. *)

#[local] Unset Elimination Schemes.

Inductive json : Type :=
  | JNull
  | JBool (b : bool)
  | JInt (n : Z)
  | JFloat (q : Qc)
  | JNaN
  | JStr (s : string)
  | JList (items : list json)
  | JObj (fields : list (string * json)).

#[local] Set Elimination Schemes.

(** The value a dict holds under a key, if any. *)
Fixpoint field (fields : list (string * json)) (k : string) : option json :=
  match fields with
  | [] => None
  | (k', v) :: rest => if bool_decide (k' = k) then Some v else field rest k
  end.

(** [d.get(k)]. *)
Definition obj_get (fields : list (string * json)) (k : string) : json :=
  default JNull (field fields k).

(** [bool(j)]. *)
Definition jtruthy (j : json) : bool :=
  match j with
  | JNull => false
  | JBool b => b
  | JInt n => negb (n =? 0)
  | JFloat q => negb (bool_decide (q = Qc0))
  | JNaN => true
  | JStr s => negb (bool_decide (s = ""))
  | JList items => negb (bool_decide (items = []))
  | JObj fields => negb (bool_decide (fields = []))
  end.

(** [a or b] and [a and b]. *)
Definition py_or (a b : json) : json := if jtruthy a then a else b.

Definition py_and (a b : json) : json := if jtruthy a then b else a.

(** [float(j)]; [None] when it raises. *)
Definition json_float (j : json) : option pyfloat :=
  match j with
  | JBool b => Some (Fin (if b then Qc1 else Qc0))
  | JInt n => Some (Fin (Qc_of_Z n))
  | JFloat q => Some (Fin q)
  | JNaN => Some Nan
  | JStr s => py_float s
  | JNull | JList _ | JObj _ => None
  end.

(** [int(j)] for a number: a float is cut towards zero, NaN raises. *)
Definition json_int (j : json) : option Z :=
  match j with
  | JBool b => Some (if b then 1 else 0)
  | JInt n => Some n
  | JFloat q => Some (Z.quot (Qnum (this q)) (Zpos (Qden (this q))))
  | _ => None
  end.

(** A float, or [None], as a value of the record under construction. *)
Definition float_json (x : option pyfloat) : json :=
  match x with
  | Some (Fin q) => JFloat q
  | Some Nan => JNaN
  | None => JNull
  end.

(** [datetime.utcfromtimestamp(n).isoformat()]; [None] when it raises. *)
Context (utc_isoformat : Z → option string).
(** [str] of a list or a dict. *)
Context (container_repr : json → string).

(** [str(j)]. *)
Definition jstr (j : json) : string :=
  match j with
  | JNull => "None"
  | JBool true => "True"
  | JBool false => "False"
  | JInt n => pretty n
  | JFloat q => float_repr q
  | JNaN => "nan"
  | JStr s => s
  | JList _ | JObj _ => container_repr j
  end.

(** The items a parser loops over: the payload itself when it is a list,
    else the first truthy of the two named entries of the payload, else
    the empty list.  A payload that is neither list nor dict has no
    [get]; looping over a truthy value that is no list raises in the
    first round or before it. *)
Definition payload_items (first_key second_key : string) (payload : json)
    : option (list json) :=
  match payload with
  | JList items => Some items
  | JObj fields =>
      match py_or (obj_get fields first_key) (py_or (obj_get fields second_key) (JList [])) with
      | JList items => Some items
      | _ => None
      end
  | _ => None
  end.

(** A canonical transaction record. *)
Record Transaction : Type := mkTransaction {
  tx_transaction_id : json;
  tx_transaction_date : json;
  tx_order_id : json;
  tx_customer_id : json;
  tx_payment_provider : string;
  tx_amount : json;
  tx_currency : json;
  tx_status : json;
  tx_raw_payload : json;
}.

(** [float(amt) / 100.0 if amt is not None else None], [None] when
    [float] raises. *)
Definition stripe_amount (amt : json) : json :=
  match amt with
  | JNull => JNull
  | _ =>
      match json_float amt with
      | Some (Fin q) => JFloat (q / Qc_of_Z 100)
      | Some Nan => JNaN
      | None => JNull
      end
  end.

(** The creation time: a number is read as seconds since the epoch and
    printed in ISO format ([None] when that raises); anything else gives
    way to [created_at]. *)
Definition stripe_created (fields : list (string * json)) : json :=
  let created := obj_get fields "created" in
  match created with
  | JBool _ | JInt _ | JFloat _ | JNaN =>
      match json_int created ≫= utc_isoformat with
      | Some iso => JStr iso
      | None => JNull
      end
  | _ => py_or (obj_get fields "created_at") (obj_get fields "created")
  end.

(** The body of the loop of [_parse_stripe].  [it.get("metadata", {})]
    must be a dict for the [get] that follows. *)
Definition parse_stripe_item (it : json) : option Transaction :=
  match it with
  | JObj fields =>
      let amount_val := stripe_amount (obj_get fields "amount") in
      let created_iso := stripe_created fields in
      match default (JObj []) (field fields "metadata") with
      | JObj metadata =>
          Some {| tx_transaction_id :=
                    py_or (obj_get fields "id") (obj_get fields "balance_transaction");
                  tx_transaction_date := created_iso;
                  tx_order_id :=
                    py_or (obj_get metadata "order_id") (obj_get fields "invoice");
                  tx_customer_id :=
                    py_or (obj_get fields "customer") (obj_get metadata "customer_id");
                  tx_payment_provider := "stripe";
                  tx_amount := amount_val;
                  tx_currency := obj_get fields "currency";
                  tx_status :=
                    py_or (obj_get fields "status")
                      (if jtruthy (obj_get fields "paid") then JStr "paid" else JNull);
                  tx_raw_payload := it |}
      | _ => None
      end
  | _ => None
  end.

Definition parse_stripe (payload : json) : option (list Transaction) :=
  items ← payload_items "data" "charges" payload;
  mapM parse_stripe_item items.

(** A canonical order record. *)
Record Order : Type := mkOrder {
  o_order_id : json;
  o_order_date : json;
  o_customer_id : json;
  o_currency : json;
  o_total_amount : json;
  o_subtotal : json;
  o_tax_amount : json;
  o_shipping_amount : json;
  o_item_count : nat;
  o_shipping_address : json;
  o_billing_address : json;
  o_line_items : json;
  o_raw_payload : json;
}.

(** [total_price or total or (current_total_price and
    current_total_price.get("amount"))]; the last [get] needs a dict. *)
Definition shopify_total (fields : list (string * json)) : option json :=
  let total_price := obj_get fields "total_price" in
  if jtruthy total_price then Some total_price
  else
    let total := obj_get fields "total" in
    if jtruthy total then Some total
    else
      let current := obj_get fields "current_total_price" in
      if jtruthy current then
        match current with
        | JObj amount => Some (obj_get amount "amount")
        | _ => None
        end
      else Some current.

(** [float(s.get("price", 0) or 0)] for a shipping line. *)
Definition line_price (s : json) : option pyfloat :=
  match s with
  | JObj fields => json_float (py_or (default (JInt 0) (field fields "price")) (JInt 0))
  | _ => None
  end.

Definition float_add (x y : pyfloat) : pyfloat :=
  match x, y with
  | Fin a, Fin b => Fin (a + b)
  | _, _ => Nan
  end.

(** [sum(float(...) for s in lines)]; [None] when a term raises. *)
Definition shipping_lines_sum (lines : list json) : option pyfloat :=
  foldl (λ acc s, a ← acc; p ← line_price s; Some (float_add a p)) (Some (Fin Qc0)) lines.

(** The shipping amount: the sum over a non-empty list of shipping lines
    ([None] when the sum raises), giving way to [shipping_total] and then
    [shipping] when it is falsy. *)
Definition shopify_shipping (fields : list (string * json)) : json :=
  let ship :=
    match obj_get fields "shipping_lines" with
    | JList (s :: lines) => float_json (shipping_lines_sum (s :: lines))
    | _ => JNull
    end in
  py_or ship (py_or (obj_get fields "shipping_total") (obj_get fields "shipping")).

(** [len(j)]; [None] when it raises. *)
Definition json_len (j : json) : option nat :=
  match j with
  | JStr s => Some (String.length s)
  | JList items => Some (List.length items)
  | JObj fields => Some (List.length fields)
  | _ => None
  end.

(** The body of the loop of [_parse_shopify]. *)
Definition parse_shopify_item (it : json) : option Order :=
  match it with
  | JObj fields =>
      let get k := obj_get fields k in
      total ← shopify_total fields;
      let subtotal := py_or (get "subtotal_price") (get "subtotal") in
      let tax := py_or (get "total_tax") (get "tax") in
      let ship := shopify_shipping fields in
      let order_id :=
        JStr (jstr (py_or (get "id")
                      (py_or (get "order_number") (py_or (get "name") (get "number"))))) in
      let order_date := py_or (get "created_at") (py_or (get "date_created") (get "created")) in
      match py_or (get "customer") (JObj []) with
      | JObj customer_obj =>
          let cust_id :=
            py_or (obj_get customer_obj "id")
              (py_or (get "customer_id")
                 (py_and (get "email") (JStr ("email:" +:+ jstr (get "email"))))) in
          item_count ← json_len (py_or (get "line_items") (JList []));
          Some {| o_order_id := order_id;
                  o_order_date := order_date;
                  o_customer_id := cust_id;
                  o_currency := get "currency";
                  o_total_amount := total;
                  o_subtotal := subtotal;
                  o_tax_amount := tax;
                  o_shipping_amount := ship;
                  o_item_count := item_count;
                  o_shipping_address := py_or (get "shipping_address") (JObj []);
                  o_billing_address := py_or (get "billing_address") (JObj []);
                  o_line_items := py_or (get "line_items") (JList []);
                  o_raw_payload := it |}
      | _ => None
      end
  | _ => None
  end.

Definition parse_shopify (payload : json) : option (list Order) :=
  items ← payload_items "orders" "data" payload;
  mapM parse_shopify_item items.

(** [j and j.get(k)]: the [get] needs a dict. *)
Definition and_get (j : json) (k : string) : option json :=
  if jtruthy j then
    match j with
    | JObj fields => Some (obj_get fields k)
    | _ => None
    end
  else Some j.

(** A canonical customer record. *)
Record Customer : Type := mkCustomer {
  c_customer_id : json;
  c_email : json;
  c_name : json;
  c_created_at : json;
  c_last_order_id : json;
  c_total_lifetime_value : json;
  c_metadata : json;
}.

(** The customer [run_transform] derives from a parsed Shopify order. *)
Definition shopify_customer (it : Order) : Customer :=
  let raw_get k :=
    match o_raw_payload it with
    | JObj raw => obj_get raw k
    | _ => JNull
    end in
  {| c_customer_id :=
       py_or (o_customer_id it) (JStr ("guest_" +:+ jstr (o_order_id it)));
     c_email := py_or (raw_get "email") JNull;
     c_name :=
       match raw_get "customer" with
       | JObj customer => obj_get customer "first_name"
       | _ => JNull
       end;
     c_created_at := o_order_date it;
     c_last_order_id := o_order_id it;
     c_total_lifetime_value := JNull;
     c_metadata := JObj [] |}.

(** The order built from a WooCommerce item. *)
Definition woo_order (it : json) : option Order :=
  match it with
  | JObj fields =>
      let get k := obj_get fields k in
      customer_id ←
        (if jtruthy (get "customer_id") then Some (get "customer_id")
         else and_get (get "billing") "email");
      item_count ← json_len (py_or (get "line_items") (JList []));
      Some {| o_order_id :=
                py_or (get "id") (py_or (get "order_id") (JStr (jstr (get "number"))));
              o_order_date := py_or (get "date_created") (get "created_at");
              o_customer_id := customer_id;
              o_currency := py_or (get "currency") (get "currency_code");
              o_total_amount := py_or (get "total") (get "total_price");
              o_subtotal := get "subtotal";
              o_tax_amount := py_or (get "total_tax") (get "tax");
              o_shipping_amount := py_or (get "shipping_total") (get "shipping");
              o_item_count := item_count;
              o_shipping_address := py_or (get "shipping") (JObj []);
              o_billing_address := py_or (get "billing") (JObj []);
              o_line_items := py_or (get "line_items") (JList []);
              o_raw_payload := it |}
  | _ => None
  end.

(** The customer built next to a WooCommerce order, from the same item. *)
Definition woo_customer (it : json) (order : Order) : option Customer :=
  match it with
  | JObj fields =>
      email ← and_get (obj_get fields "billing") "email";
      name ← and_get (obj_get fields "billing") "name";
      Some {| c_customer_id :=
                py_or (o_customer_id order) (JStr ("guest_" +:+ jstr (o_order_id order)));
              c_email := email;
              c_name := name;
              c_created_at := o_order_date order;
              c_last_order_id := o_order_id order;
              c_total_lifetime_value := JNull;
              c_metadata := JObj [] |}
  | _ => None
  end.

(** The transaction built from a PayPal item. *)
Definition paypal_transaction (it : json) : option Transaction :=
  match it with
  | JObj fields =>
      let get k := obj_get fields k in
      payer_id ← and_get (get "payer") "payer_id";
      amount ←
        (if jtruthy (get "amount") then Some (get "amount")
         else and_get (get "gross_amount") "value");
      amount_currency ← and_get (get "amount") "currency";
      Some {| tx_transaction_id := py_or (get "transaction_id") (get "id");
              tx_transaction_date :=
                py_or (get "transaction_initiation_date")
                  (py_or (get "transaction_updated_date") (get "create_time"));
              tx_order_id := JNull;
              tx_customer_id := py_or payer_id JNull;
              tx_payment_provider := "paypal";
              tx_amount := amount;
              tx_currency := py_or amount_currency (get "currency");
              tx_status := get "status";
              tx_raw_payload := it |}
  | _ => None
  end.

(** The records gathered from the staged files so far. *)
Record Staged : Type := mkStaged {
  staged_customers : list Customer;
  staged_orders : list Order;
  staged_transactions : list Transaction;
}.

(** The loop over the items of a WooCommerce file: each order is appended
    as soon as it is built, then its customer; an item that raises ends
    the file and leaves what was appended before. *)
Fixpoint woo_loop (items : list json) (st : Staged) : Staged :=
  match items with
  | [] => st
  | it :: rest =>
      match woo_order it with
      | Some order =>
          let st := mkStaged (staged_customers st) (staged_orders st ++ [order])
                      (staged_transactions st) in
          match woo_customer it order with
          | Some customer =>
              woo_loop rest
                (mkStaged (staged_customers st ++ [customer]) (staged_orders st)
                   (staged_transactions st))
          | None => st
          end
      | None => st
      end
  end.

(** The loop over the items of a PayPal file. *)
Fixpoint paypal_loop (items : list json) (st : Staged) : Staged :=
  match items with
  | [] => st
  | it :: rest =>
      match paypal_transaction it with
      | Some tx =>
          paypal_loop rest
            (mkStaged (staged_customers st) (staged_orders st)
               (staged_transactions st ++ [tx]))
      | None => st
      end
  end.

(** [needle in hay]. *)
Fixpoint contains (needle hay : string) : bool :=
  String.prefix needle hay
  || match hay with
     | EmptyString => false
     | String _ hay' => contains needle hay'
     end.

(** [s.endswith(suffix)]. *)
Definition ends_with (suffix s : string) : bool :=
  (String.length suffix <=? String.length s)%nat
  && bool_decide (String.substring (String.length s - String.length suffix)
                    (String.length suffix) s = suffix).

(** The body of the loop over the staged files: [path] is an entry of the
    staging directory, [content] what [json.load] returns for it ([None]
    when the file cannot be opened or read as JSON).  Whatever raises is
    caught and logged, and the loop goes on with the next file. *)
Definition process_staged_file (path : string) (content : option json) (st : Staged)
    : Staged :=
  if negb (ends_with ".json" path) then st
  else
    match content with
    | None => st
    | Some payload =>
        let name := lower path in
        if contains "shopify" name then
          match parse_shopify payload with
          | Some parsed_orders =>
              mkStaged (staged_customers st ++ (shopify_customer <$> parsed_orders))
                (staged_orders st ++ parsed_orders) (staged_transactions st)
          | None => st
          end
        else if contains "stripe" name then
          match parse_stripe payload with
          | Some parsed_tx =>
              mkStaged (staged_customers st) (staged_orders st)
                (staged_transactions st ++ parsed_tx)
          | None => st
          end
        else if contains "woocommerce" name || contains "orders" name then
          match payload_items "orders" "data" payload with
          | Some items => woo_loop items st
          | None => st
          end
        else if contains "paypal" name || contains "transactions" name then
          match payload_items "transactions" "data" payload with
          | Some items => paypal_loop items st
          | None => st
          end
        else st
    end.

(** The scan of the staging directory at the start of [run_transform]. *)
Definition scan_staged_files (files : list (string * option json)) : Staged :=
  foldl (λ st '(path, content), process_staged_file path content st)
    (mkStaged [] [] []) files.

(** ** Further batches and payloads of the worked examples *)

(** An order scored under the default settings: a high total and nothing
    else. *)
Definition orders_high_value : DataFrame :=
  mkFrame ["order_total"] [order_high_value].


(** An order whose identifier is blank text. *)
Definition order_blank_id : row :=
  {[ "order_id" := VStr "   "; "customer_id" := VStr "c1";
     "order_date" := VStr "2020-01-01"; "order_total" := VInt 10 ]}.

(** A Shopify order without any identifier, with two shipping lines. *)
Definition shopify_order_without_id : list (string * json) :=
  [ ("total_price", JStr "25.00");
    ("email", JStr "a@b.co");
    ("shipping_lines",
     JList [ JObj [("price", JStr "4.50")]; JObj [("price", JStr "0.50")] ]);
    ("shipping_total", JStr "9.99") ].

(** A reading of [str] on lists and dicts for the worked examples, which
    print none. *)
Definition no_container_repr (j : json) : string := "".

(** Three WooCommerce items: the second names its customer and has a
    [billing] entry that is text, the third names no customer. *)
Definition woo_item_1 : json := JObj [("id", JInt 1); ("customer_id", JInt 7)].

Definition woo_item_2 : json :=
  JObj [("id", JInt 2); ("customer_id", JInt 8); ("billing", JStr "unknown")].

Definition woo_item_3 : json := JObj [("id", JInt 3)].

(** A staging directory: a Shopify file with an item that is no dict, a
    CSV file, a JSON file under an upper-case extension, a WooCommerce
    file and a PayPal file whose second amount is a number. *)
Definition staged_files_sample : list (string * option json) :=
  [ ("shopify_orders.json", Some (JList [JObj [("id", JInt 10)]; JStr "x"]));
    ("notes.csv", Some (JList [woo_item_1]));
    ("Orders.JSON", Some (JList [woo_item_1]));
    ("WooCommerce_1.json", Some (JObj [("orders", JList [woo_item_3; woo_item_1])]));
    ("paypal.json",
     Some (JList [ JObj [("amount", JObj [("value", JStr "5.00"); ("currency", JStr "USD")])];
                   JObj [("amount", JInt 5)] ])) ].

(** ** Specifications

    The properties below are stated against these definitions, which follow
    the wording of the specification. *)




(** Specification: a non-empty run of characters other than the at-sign and
    white space. *)
Definition local_text (s : string) : Prop :=
  s ≠ "" ∧ string_forallb is_local_char s = true.

(** Specification: the text starts with [local@domain.tld]. *)
Definition matches_email_pattern (s : string) : Prop :=
  ∃ l d t rest,
    s = l +:+ String at_sign (d +:+ String dot (t +:+ rest))
    ∧ local_text l ∧ local_text d ∧ local_text t.

(** Specification: the field is falsy and is not the number 0 ([0], [0.0]
    and [False], which Python counts as 0). *)
Definition field_missing (r : row) (f : string) : Prop :=
  truthy (get r f) = false ∧ num_of (get r f) ≠ Some Qc0.

(** Specification: the record has a truthy [status] outside the allowed
    ones. *)
Definition status_invalid (allowed : list string) (r : row) : Prop :=
  is_Some (r !! "status") ∧ truthy (get r "status") = true
  ∧ ∀ s, get r "status" = VStr s → s ∉ allowed.

(** Specification: the record has a truthy [email] whose text does not start
    with [local@domain.tld]. *)
Definition email_invalid (r : row) : Prop :=
  truthy (get r "email") = true ∧ ¬ matches_email_pattern (py_str (get r "email")).

(** Specification: the number in a cell, [d] when the cell is null or
    unparseable. *)
Definition cell_or (d : Qc) (r : row) (c : string) : Qc :=
  default d (to_numeric (get r c)).




(** Specification: two rows are equal on the key columns. *)
Definition rows_equal_on (keys : list string) (r1 r2 : row) : bool :=
  keys_eq (key_of keys r1) (key_of keys r2).

(** Specification: no two rows of the batch are equal on the key columns. *)
Definition no_two_rows_equal (keys : list string) (rs : list row) : Prop :=
  ∀ i j r1 r2, i ≠ j → rs !! i = Some r1 → rs !! j = Some r2 →
    rows_equal_on keys r1 r2 = false.

(** Auxiliary: no key equals a later one. *)
Fixpoint pairwise_distinct (ks : list (list value)) : Prop :=
  match ks with
  | [] => True
  | k :: rest => (∀ k', k' ∈ rest → keys_eq k k' = false) ∧ pairwise_distinct rest
  end.

(** Specification: the orders of a customer. *)
Definition orders_of (df : DataFrame) (customer_id_col : string) (key : value) : list row :=
  filter (λ r, Is_true (py_eq (get r customer_id_col) key)) (rows df).



(** Auxiliary: the class of a value under [==]; NaN has none. *)
Definition eq_class (v : value) : option (option (Qc + string)) :=
  match v with
  | VNone => Some None
  | VNaN => None
  | VStr s => Some (Some (inr s))
  | _ => (λ q, Some (inl q)) <$> num_of v
  end.

(** Auxiliary: how often a key equal to [k] stands in a list. *)
Definition count_eq (k : value) (l : list value) : nat :=
  List.length (filter (λ x, Is_true (py_eq x k)) l).

(** Specification: a row of the CLV frame with its [recency_days] blanked. *)
Definition without_recency (c : ClvRow) : ClvRow :=
  {| clv_customer := clv_customer c;
     clv := clv c;
     total_orders := total_orders c;
     avg_order_value := avg_order_value c;
     last_order_date := last_order_date c;
     recency_days := None;
     frequency := frequency c |}.

(** Specification: two clock readings fall in the same whole day after
    every order date of the batch. *)
Definition same_day_counts (now1 now2 : Z) (df : DataFrame) : Prop :=
  ∀ v t, v ∈ column df "order_date" → to_datetime v = Some t →
    (now1 - t) `div` NS_PER_DAY = (now2 - t) `div` NS_PER_DAY.

(** Specification: the column holds no null. *)
Definition no_null (s : series) : Prop := Forall (λ m, m = false) (null_mask s).

(** Specification: the column is a datetime column, or a text column that
    looks like dates. *)
Definition is_datetime_like (col : series) : bool :=
  match col with
  | NumericCol _ => false
  | DatetimeCol _ => true
  | ObjectCol cells => looks_like_datetime_series cells
  end.

(** Specification: the strategy that applies to a column. *)
Definition column_strategy (numeric_strategy categorical_strategy datetime_strategy : string)
    (col : series) : string :=
  match col with
  | NumericCol _ => numeric_strategy
  | DatetimeCol _ => datetime_strategy
  | ObjectCol cells =>
      if looks_like_datetime_series cells then datetime_strategy else categorical_strategy
  end.

(** Specification: the nulls the strategy meets: those of the column, after
    parsing when the column is date-like text. *)
Definition nulls_to_fill (col : series) : list bool :=
  match col with
  | ObjectCol cells =>
      if looks_like_datetime_series cells then is_null <$> (to_datetime <$> cells)
      else isna <$> cells
  | _ => null_mask col
  end.

(** Specification: the strategy fills every null it meets: any numeric or
    categorical strategy but the two directional fills, and [epoch] for
    dates. *)
Definition fills_every_null (col : series) (strategy : string) : Prop :=
  if is_datetime_like col then strategy = "epoch"
  else strategy ∉ ["ffill"; "bfill"].

(** Specification: the text starts with a minus sign. *)
Definition starts_with_minus (s : string) : bool :=
  match s with
  | String a _ => bool_decide (a = "-"%char)
  | EmptyString => false
  end.

(** Specification: what follows the first point of a text; nothing when the
    text has no point. *)
Fixpoint after_dot (s : string) : string :=
  match s with
  | EmptyString => EmptyString
  | String a s' => if bool_decide (a = dot) then s' else after_dot s'
  end.

(** Specification: the sum of a list of integers. *)
Definition sum_Z (l : list Z) : Z := foldr Z.add 0 l.

(** Specification: the orders that name a customer. *)
Definition orders_with_customer (df : DataFrame) (customer_id_col : string) : list row :=
  filter (λ r, Is_true (negb (isna (get r customer_id_col)))) (rows df).

(** Specification: the second column holds every non-null cell of the
    first at its place.  A text column that looks like dates is held as
    its parsed dates; no other column changes its kind. *)
Definition keeps_cells (col col' : series) : Prop :=
  match col, col' with
  | NumericCol a, NumericCol b => ∀ j q, a !! j = Some (Some q) → b !! j = Some (Some q)
  | DatetimeCol a, DatetimeCol b => ∀ j t, a !! j = Some (Some t) → b !! j = Some (Some t)
  | ObjectCol a, ObjectCol b =>
      looks_like_datetime_series a = false
      ∧ ∀ j v, a !! j = Some v → isna v = false → b !! j = Some v
  | ObjectCol a, DatetimeCol b =>
      looks_like_datetime_series a = true
      ∧ ∀ j v t, a !! j = Some v → to_datetime v = Some t → b !! j = Some (Some t)
  | _, _ => False
  end.

(** Specification: the text of a cell holds one of the marks [-], [:],
    [T] that [_looks_like_datetime_series] looks for. *)
Definition has_date_mark (v : value) : bool :=
  string_existsb (λ a, bool_decide (a ∈ ["-"%char; ":"%char; "T"%char])) (py_str v).

(** Specification: the non-null cells of a column. *)
Definition present_cells (cells : list value) : list value :=
  filter (λ c, Is_true (negb (isna c))) cells.



(** Specification: the amount is truthy or is the number 0. *)
Definition amount_given (t : row) : Prop :=
  truthy (get t "amount") = true ∨ num_of (get t "amount") = Some Qc0.

(** Specification: a charge the Stripe parser can read: a dict whose
    [metadata], when it has one, is a dict. *)
Definition charge_well_formed (it : json) : Prop :=
  ∃ fields, it = JObj fields
    ∧ (field fields "metadata" = None ∨ ∃ m, field fields "metadata" = Some (JObj m)).

(** Specification: [j] is a dict. *)
Definition is_obj (j : json) : bool :=
  match j with
  | JObj _ => true
  | _ => false
  end.

(** Specification: [j] has a length: it is a str, a list or a dict. *)
Definition is_sized (j : json) : bool :=
  match j with
  | JStr _ | JList _ | JObj _ => true
  | _ => false
  end.

(** Specification: what makes the Shopify parser raise on an order: a
    truthy [current_total_price] that is no dict where neither
    [total_price] nor [total] is truthy, a truthy [customer] that is no
    dict, or truthy [line_items] without a length. *)
Definition order_unreadable (fields : list (string * json)) : Prop :=
  (jtruthy (obj_get fields "total_price") = false
   ∧ jtruthy (obj_get fields "total") = false
   ∧ jtruthy (obj_get fields "current_total_price") = true
   ∧ is_obj (obj_get fields "current_total_price") = false)
  ∨ (jtruthy (obj_get fields "customer") = true
     ∧ is_obj (obj_get fields "customer") = false)
  ∨ (jtruthy (obj_get fields "line_items") = true
     ∧ is_sized (obj_get fields "line_items") = false).


(** Specification: customer [c] is the one derived from order [o]: it
    carries the order's identifier and date, and the order's customer
    identifier when that is truthy, else [guest_] and the order's
    identifier as text. *)
Definition customer_of_order (c : Customer) (o : Order) : Prop :=
  c_last_order_id c = o_order_id o
  ∧ c_created_at c = o_order_date o
  ∧ c_customer_id c = py_or (o_customer_id o) (JStr ("guest_" +:+ jstr (o_order_id o))).

(** Specification: the invariant of the scan: every customer is derived from an order
    that is staged, and has a truthy identifier. *)
Definition customers_follow (customers : list Customer) (orders : list Order) : Prop :=
  Forall (λ c, jtruthy (c_customer_id c) = true
               ∧ ∃ o, o ∈ orders ∧ customer_of_order c o) customers
  ∧ (List.length customers ≤ List.length orders)%nat.

(** Specification: the order and the customer a WooCommerce item gives
    when both can be built. *)
Definition woo_item_records (it : json) : option (Order * Customer) :=
  order ← woo_order it;
  customer ← woo_customer it order;
  Some (order, customer).

(** Specification: what makes a PayPal item that is a dict raise: a truthy
    [payer] that is no dict, a truthy [amount] that is no dict, or a
    truthy [gross_amount] that is no dict where [amount] is not truthy. *)
Definition paypal_unreadable (fields : list (string * json)) : Prop :=
  (jtruthy (obj_get fields "payer") = true
   ∧ is_obj (obj_get fields "payer") = false)
  ∨ (jtruthy (obj_get fields "amount") = true
     ∧ is_obj (obj_get fields "amount") = false)
  ∨ (jtruthy (obj_get fields "amount") = false
     ∧ jtruthy (obj_get fields "gross_amount") = true
     ∧ is_obj (obj_get fields "gross_amount") = false).

(** * Properties *)

(** ** Strings *)

#[local] Arguments String.append : simpl nomatch.








(** ** Fraud flagging *)







Lemma fraud_score_sum threshold suspicious r :
  fraud_score threshold suspicious r =
    (if high_value_rule threshold r then 3 else 0)
    + (if country_mismatch_rule r then 2 else 0)
    + (if disposable_email_rule suspicious r then 3 else 0)
    + (if missing_identity_rule r then 1 else 0).
Proof.
  unfold fraud_score.
  destruct (high_value_rule _ _), (country_mismatch_rule _),
    (disposable_email_rule _ _), (missing_identity_rule _); reflexivity.
Qed.




Lemma rows_flag_fraud df threshold extra :
  rows (flag_fraud df threshold extra) =
    (λ r, let score := fraud_score threshold (suspicious_domains extra) r in
          <["fraud_flag" := VBool (bool_decide (4 ≤ score))]>
            (<["fraud_score" := VInt score]> r)) <$> rows df.
Proof.
  unfold flag_fraud, set_column. simpl.
  induction (rows df) as [|r l IH]; simpl; [done|]. by f_equal.
Qed.



(** ** Validation *)

Lemma append_assoc (a b c : string) : (a +:+ b) +:+ c = a +:+ (b +:+ c).
Proof. induction a as [|x a IH]; simpl; [done|]. by rewrite IH. Qed.

Lemma append_empty_r (a : string) : a +:+ "" = a.
Proof. induction a as [|x a IH]; simpl; [done|]. by rewrite IH. Qed.

Lemma string_forallb_app p (a b : string) :
  string_forallb p (a +:+ b) = string_forallb p a && string_forallb p b.
Proof. induction a as [|x a IH]; simpl; [done|]. by rewrite IH, andb_assoc. Qed.

Lemma span_spec p s u v :
  span p s = (u, v) →
  s = u +:+ v ∧ string_forallb p u = true
  ∧ match v with String a _ => p a = false | EmptyString => True end.
Proof.
  revert u v. induction s as [|a s IH]; simpl; intros u v.
  - by intros [= <- <-].
  - destruct (p a) eqn:Hpa.
    + destruct (span p s) as [u' v'] eqn:Hspan. intros [= <- <-].
      destruct (IH _ _ eq_refl) as (-> & Hu & Hv). simpl. by rewrite Hpa, Hu.
    + intros [= <- <-]. simpl. by rewrite Hpa.
Qed.

Lemma span_app p (u w : string) :
  string_forallb p u = true → span p (u +:+ w) = (u +:+ (span p w).1, (span p w).2).
Proof.
  induction u as [|a u IH]; simpl.
  - intros _. by destruct (span p w).
  - intros [Hpa Hu]%andb_true_iff. rewrite Hpa, (IH Hu). done.
Qed.

Lemma span_stop p a (w : string) : p a = false → span p (String a w) = ("", String a w).
Proof. simpl. by intros ->. Qed.

Lemma has_inner_dot_from_spec seen r :
  has_inner_dot_from seen r = true ↔
  ∃ d t, r = d +:+ String dot t ∧ (seen = true ∨ d ≠ "") ∧ t ≠ "".
Proof.
  revert seen. induction r as [|a r IH]; intros seen; simpl.
  - split; [done|]. intros (d & t & Heq & _). by destruct d.
  - rewrite orb_true_iff, !andb_true_iff, negb_true_iff, bool_decide_eq_true,
      bool_decide_eq_false, IH. split.
    + intros [[[-> ->] Hr]|(d & t & -> & _ & Ht)].
      * exists "", r. simpl. auto.
      * exists (String a d), t. simpl. split; [done|]. split; [by right|done].
    + intros (d & t & Heq & Hd & Ht). destruct d as [|x d]; simpl in Heq.
      * injection Heq as -> ->. left. by destruct Hd.
      * injection Heq as -> ->. right. exists d, t. auto.
Qed.

Lemma is_local_char_at : is_local_char at_sign = false.
Proof. reflexivity. Qed.

Lemma email_re_match_spec s : email_re_match s = true ↔ matches_email_pattern s.
Proof.
  unfold email_re_match, matches_email_pattern, local_text. split.
  - destruct (span is_local_char s) as [l rest] eqn:Hspan.
    apply span_spec in Hspan as (-> & Hl & _).
    rewrite andb_true_iff, negb_true_iff, bool_decide_eq_false.
    intros [Hne Hrest]. destruct rest as [|a rest']; [done|].
    apply andb_true_iff in Hrest as [->%bool_decide_eq_true Hdot].
    destruct (span is_local_char rest') as [run tail] eqn:Hrun.
    apply span_spec in Hrun as (-> & Hall & _). simpl in Hdot.
    apply has_inner_dot_from_spec in Hdot as (d & t & -> & [?|Hd] & Ht); [done|].
    rewrite string_forallb_app in Hall. simpl in Hall.
    apply andb_true_iff in Hall as [Hd' Ht'].
    exists l, d, t, tail. rewrite !append_assoc. simpl. done.
  - intros (l & d & t & rest & -> & [Hl Hl'] & [Hd Hd'] & [Ht Ht']).
    rewrite (span_app _ l) by done.
    rewrite (span_stop _ at_sign) by apply is_local_char_at. simpl.
    rewrite append_empty_r.
    rewrite andb_true_iff, negb_true_iff, bool_decide_eq_false.
    split; [done|].
    rewrite (span_app _ d) by done. simpl.
    destruct (span is_local_char (t +:+ rest)) as [u v] eqn:Hspan.
    simpl. rewrite (span_app _ t) in Hspan by done. injection Hspan as <- <-.
    apply has_inner_dot_from_spec. exists d, (t +:+ (span is_local_char rest).1).
    split; [done|]. split; [by right|]. by destruct t.
Qed.

Lemma py_ne_zero v : py_ne v (VInt 0) = true ↔ num_of v ≠ Some Qc0.
Proof.
  unfold py_ne, py_eq. rewrite negb_true_iff.
  destruct v as [| |b|n|q|s]; simpl; try (split; done);
    change (Qc_of_Z 0) with Qc0; rewrite bool_decide_eq_false;
    split; intros H; congruence.
Qed.

Lemma field_missing_iff r f :
  field_missing r f ↔ get r f = VNone ∨ get r f = VStr "".
Proof.
  unfold field_missing. destruct (get r f) as [| |b|n|q|s]; simpl.
  - split; [by left|done].
  - split; [by intros [? _]|by intros [?|?]].
  - split; [|by intros [?|?]]. intros [-> H]. by destruct H.
  - rewrite negb_false_iff, Z.eqb_eq. split; [|by intros [?|?]].
    intros [-> H]. by destruct H.
  - rewrite negb_false_iff, bool_decide_eq_true. split; [|by intros [?|?]].
    intros [-> H]. by destruct H.
  - rewrite negb_false_iff, bool_decide_eq_true. split.
    + intros [-> _]. by right.
    + intros [?|[= ->]]; done.
Qed.

Lemma in_statuses_false allowed v :
  in_statuses (list_to_set allowed) v = false ↔ ∀ s, v = VStr s → s ∉ allowed.
Proof.
  destruct v as [| | | | |s]; simpl; try (split; done).
  rewrite bool_decide_eq_false, elem_of_list_to_set. split.
  - by intros H s' [= <-].
  - intros H. by apply H.
Qed.

Lemma elem_of_row_issues required allowed r x :
  x ∈ row_issues required (list_to_set allowed) r ↔
    (∃ f, f ∈ required ∧ x = "missing_" +:+ f ∧ field_missing r f)
    ∨ (x = "invalid_status:" +:+ py_str (get r "status") ∧ status_invalid allowed r)
    ∨ (x = "invalid_email" ∧ email_invalid r).
Proof.
  clear py_float to_numeric_str to_datetime fx_latest series_fillna.
  unfold row_issues.
  set (missing := flat_map _ required).
  assert (∀ y, y ∈ missing ↔
            ∃ f, f ∈ required ∧ y = "missing_" +:+ f ∧ field_missing r f) as Hmissing.
  { intros y. unfold missing. rewrite list_elem_of_In, in_flat_map. split.
    - intros (f & Hf & Hy). exists f. rewrite list_elem_of_In. split; [done|].
      destruct (negb (truthy (get r f)) && py_ne (get r f) (VInt 0)) eqn:Hc;
        [|by destruct Hy].
      apply andb_true_iff in Hc as [Ht Hz]. destruct Hy as [<-|[]]. split; [done|].
      split; [by apply negb_true_iff|by apply py_ne_zero].
    - intros (f & Hf & -> & Ht & Hz). exists f. rewrite <-list_elem_of_In.
      split; [done|]. rewrite Ht. simpl.
      apply py_ne_zero in Hz. rewrite Hz. by left. }
  set (status_bad := has_key r "status" && truthy (get r "status")
                     && negb (in_statuses (list_to_set allowed) (get r "status"))).
  assert (status_bad = true ↔ status_invalid allowed r) as Hstatus.
  { unfold status_bad, status_invalid, has_key.
    rewrite !andb_true_iff, negb_true_iff, bool_decide_eq_true, in_statuses_false.
    tauto. }
  set (email_bad := truthy (get r "email")
                    && negb (email_re_match (py_str (get r "email")))).
  assert (email_bad = true ↔ email_invalid r) as Hemail.
  { unfold email_bad, email_invalid.
    rewrite andb_true_iff, negb_true_iff, <-not_true_iff_false, email_re_match_spec.
    tauto. }
  destruct status_bad, email_bad; rewrite ?elem_of_app, ?list_elem_of_singleton, Hmissing;
    intuition (try discriminate; auto).
Qed.

Lemma validation_issues_lookup df required_fields allowed_statuses i r :
  rows df !! i = Some r →
  validation_issues (validate_orders df required_fields allowed_statuses) !! i =
    Some (row_issues (or_default required_fields DEFAULT_REQUIRED_FIELDS)
            (list_to_set (or_default allowed_statuses DEFAULT_ALLOWED_STATUSES)) r).
Proof. intros Hr. unfold validate_orders. simpl. by rewrite list_lookup_fmap, Hr. Qed.


(** C10.  A NaN is truthy and differs from 0, so a required field holding
    NaN is not reported: the issues of such a record hold no
    [missing_<field>] for that field. *)
Theorem nan_field_not_reported_missing df required_fields allowed_statuses i r f :
  rows df !! i = Some r →
  get r f = VNaN →
  truthy VNaN = true ∧ py_eq VNaN (VInt 0) = false
  ∧ ∃ issues,
      validation_issues (validate_orders df required_fields allowed_statuses) !! i
        = Some issues
      ∧ "missing_" +:+ f ∉ issues.
Proof.
  intros Hr Hnan. split; [done|]. split; [done|].
  eexists. split; [by apply validation_issues_lookup|].
  rewrite elem_of_row_issues.
  intros [(f' & _ & Heq & Hm & _)|[[Heq _]|[Heq _]]].
  - simpl in Heq. injection Heq as <-. by rewrite Hnan in Hm.
  - by simpl in Heq.
  - by simpl in Heq.
Qed.

(** ** Order totals *)



Lemma Qc0_zero : Qc0 = 0%Qc.
Proof. by apply Qc_is_canon. Qed.






(** ** Currency normalisation *)


Lemma filter_string_id p s : string_forallb p s = true → filter_string p s = s.
Proof.
  induction s as [|a s IH]; simpl; [done|].
  intros [-> Hs]%andb_true_iff. by rewrite IH.
Qed.




(** ** Deduplication *)

Lemma py_eq_sym a b : py_eq a b = py_eq b a.
Proof.
  destruct a, b; simpl; try done; apply bool_decide_ext; split; congruence.
Qed.

Lemma dup_eq_sym a b : dup_eq a b = dup_eq b a.
Proof. unfold dup_eq. by rewrite py_eq_sym, (andb_comm (isna a)). Qed.

Lemma keys_eq_sym k1 k2 : keys_eq k1 k2 = keys_eq k2 k1.
Proof.
  revert k2. induction k1 as [|a k1 IH]; intros [|b k2]; simpl; try done.
  by rewrite dup_eq_sym, IH.
Qed.

Lemma existsb_false {A} (p : A → bool) l :
  existsb p l = false ↔ ∀ x, x ∈ l → p x = false.
Proof.
  induction l as [|a l IH]; simpl.
  - split; [by intros _ x ?%elem_of_nil|done].
  - rewrite orb_false_iff, IH. split.
    + intros [Ha Hl] x [->|Hx]%elem_of_cons; auto.
    + intros Hall. split; [apply Hall; left|intros x Hx; apply Hall; by right].
Qed.

Lemma duplicated_from_length keep before ks :
  List.length (duplicated_from keep before ks) = List.length ks.
Proof.
  revert before. induction ks as [|k ks IH]; intros before; simpl; [done|].
  by rewrite IH.
Qed.

(** No key is marked iff the keys are pairwise distinct (and, when earlier
    keys count, distinct from those seen before). *)
Lemma duplicated_from_none keep before ks :
  Forall (λ m, m = false) (duplicated_from keep before ks) ↔
    match keep with
    | KeepLast => True
    | _ => ∀ k b, k ∈ ks → b ∈ before → keys_eq k b = false
    end
    ∧ pairwise_distinct ks.
Proof.
  revert before. induction ks as [|k ks IH]; intros before; simpl.
  - split; [|by constructor]. intros _. split; [|done].
    destruct keep; try done; by intros k b ?%elem_of_nil.
  - rewrite Forall_cons, IH. clear IH.
    destruct keep; rewrite ?orb_false_iff, !existsb_false.
    + split.
      * intros (Hk & Hrest & Hpair). split; [|split; [|done]].
        -- intros k' b [->|Hk']%elem_of_cons Hb; [by apply Hk|].
           apply Hrest; [done|by right].
        -- intros k' Hk'. rewrite keys_eq_sym. apply Hrest; [done|left].
      * intros (Hall & Hk & Hpair). split; [|split; [|done]].
        -- intros b Hb. apply Hall; [left|done].
        -- intros k' b Hk' [->|Hb]%elem_of_cons.
           ++ rewrite keys_eq_sym. by apply Hk.
           ++ apply Hall; [by right|done].
    + tauto.
    + split.
      * intros ((Hk & Hk2) & Hrest & Hpair). split; [|done].
        intros k' b [->|Hk']%elem_of_cons Hb; [by apply Hk|].
        apply Hrest; [done|by right].
      * intros (Hall & Hk & Hpair). split; [split; [|done]|split; [|done]].
        -- intros b Hb. apply Hall; [left|done].
        -- intros k' b Hk' [->|Hb]%elem_of_cons.
           ++ rewrite keys_eq_sym. by apply Hk.
           ++ apply Hall; [by right|done].
Qed.

Lemma pairwise_distinct_lookup ks :
  pairwise_distinct ks ↔
  ∀ i j ki kj, i ≠ j → ks !! i = Some ki → ks !! j = Some kj → keys_eq ki kj = false.
Proof.
  induction ks as [|k ks IH]; simpl.
  - split; [|done]. by intros _ i j ki kj _ ?.
  - rewrite IH. clear IH. split.
    + intros [Hk Hrest] [|i] [|j] ki kj Hij; simpl; intros Hi Hj; simplify_eq.
      * apply Hk. by eapply list_elem_of_lookup_2.
      * rewrite keys_eq_sym. apply Hk. by eapply list_elem_of_lookup_2.
      * apply (Hrest i j); auto.
    + intros Hall. split.
      * intros k' [j Hj]%list_elem_of_lookup. by apply (Hall 0%nat (S j)).
      * intros i j ki kj Hij Hi Hj. apply (Hall (S i) (S j)); auto.
Qed.


Lemma no_two_rows_equal_keys keys rs :
  no_two_rows_equal keys rs ↔ pairwise_distinct (key_of keys <$> rs).
Proof.
  rewrite pairwise_distinct_lookup. unfold no_two_rows_equal, rows_equal_on. split.
  - intros H i j ki kj Hij. rewrite !list_lookup_fmap.
    destruct (rs !! i) as [r1|] eqn:Hi, (rs !! j) as [r2|] eqn:Hj; simpl; try done.
    intros [= <-] [= <-]. by apply (H i j).
  - intros H i j r1 r2 Hij Hi Hj. apply (H i j); [done|..];
      rewrite list_lookup_fmap; by rewrite ?Hi, ?Hj.
Qed.


(** ** Customer lifetime value *)

Lemma py_eq_class a b :
  py_eq a b = true ↔ eq_class a = eq_class b ∧ is_Some (eq_class a).
Proof.
  destruct a, b; simpl; rewrite ?bool_decide_eq_true;
    (split; [intros H|intros [H [? ?]]]); simplify_eq; eauto;
    rewrite ?H; eauto.
Qed.

Lemma py_eq_trans a b c : py_eq a b = true → py_eq b c = true → py_eq a c = true.
Proof.
  rewrite !py_eq_class. intros [-> ?] [-> ?]. done.
Qed.

Lemma py_eq_isna a b : py_eq a b = true → isna a = false → isna b = false.
Proof. by destruct a, b. Qed.

Lemma existsb_true_iff {A} (p : A → bool) l :
  existsb p l = true ↔ ∃ x, x ∈ l ∧ p x = true.
Proof. rewrite existsb_exists. by setoid_rewrite list_elem_of_In. Qed.

Lemma count_eq_distinct_keys k seen l :
  isna k = false →
  count_eq k (distinct_keys seen l) =
    if existsb (py_eq k) seen then 0%nat
    else if existsb (py_eq k) l then 1%nat else 0%nat.
Proof.
  intros Hk. unfold count_eq. revert seen.
  induction l as [|x l IH]; intros seen; simpl.
  - by destruct (existsb _ seen).
  - destruct (isna x || existsb (py_eq x) seen) eqn:Hx.
    + rewrite IH. destruct (existsb (py_eq k) seen) eqn:Hseen; [done|].
      assert (py_eq k x = false) as ->; [|done].
      apply not_true_is_false. intros Hkx.
      apply orb_true_iff in Hx as [Hx|Hx].
      * by rewrite (py_eq_isna _ _ Hkx Hk) in Hx.
      * apply existsb_true_iff in Hx as (s & Hs & Hxs).
        assert (existsb (py_eq k) seen = true) as Hc; [|congruence].
        apply existsb_true_iff. exists s. split; [done|]. by eapply py_eq_trans.
    + apply orb_false_iff in Hx as [Hna Hx].
      rewrite filter_cons. destruct (decide (Is_true (py_eq x k))) as [Hxk|Hxk].
      * apply Is_true_true in Hxk. simpl. rewrite IH. simpl.
        rewrite (py_eq_sym k x), Hxk. simpl.
        destruct (existsb (py_eq k) seen) eqn:Hseen; [|done].
        apply existsb_true_iff in Hseen as (s & Hs & Hks).
        assert (existsb (py_eq x) seen = true) as Hc; [|congruence].
        apply existsb_true_iff. exists s. split; [done|]. by eapply py_eq_trans.
      * apply Is_true_false in Hxk. rewrite IH. simpl.
        rewrite (py_eq_sym k x), Hxk. done.
Qed.

Lemma elem_of_distinct_keys k seen l :
  k ∈ distinct_keys seen l → k ∈ l ∧ isna k = false.
Proof.
  revert seen. induction l as [|x l IH]; intros seen; simpl; [by intros ?%elem_of_nil|].
  destruct (isna x || existsb (py_eq x) seen) eqn:Hx.
  - intros [? ?]%IH. split; [by right|done].
  - apply orb_false_iff in Hx as [Hna _].
    intros [->|[? ?]%IH]%elem_of_cons; (split; [by constructor|done]).
Qed.

Lemma py_eq_refl k : isna k = false → py_eq k k = true.
Proof. destruct k; simpl; try done; intros _; by apply bool_decide_eq_true. Qed.

Lemma group_keys_perm keys : group_keys keys ≡ₚ distinct_keys [] keys.
Proof. apply merge_sort_Permutation. Qed.

Lemma count_eq_group_keys k keys :
  isna k = false → k ∈ keys → count_eq k (group_keys keys) = 1%nat.
Proof.
  intros Hk Hin. unfold count_eq.
  rewrite (group_keys_perm keys). fold (count_eq k (distinct_keys [] keys)).
  rewrite count_eq_distinct_keys by done. simpl.
  assert (existsb (py_eq k) keys = true) as ->; [|done].
  apply existsb_true_iff. exists k. split; [done|by apply py_eq_refl].
Qed.

Lemma group_members_rows key df customer_id_col order_total_col :
  group_members key
    (zip (column df customer_id_col)
       (zip (fillna Qc0 (to_numeric <$> column df order_total_col))
          (to_datetime <$> column df "order_date")))
  = (λ r, (cell_or Qc0 r order_total_col, to_datetime (get r "order_date")))
      <$> orders_of df customer_id_col key.
Proof.
  unfold group_members, orders_of, column, fillna, cell_or.
  induction (rows df) as [|r l IH]; simpl; [done|].
  rewrite !filter_cons. simpl. destruct (decide _); simpl; [|exact IH].
  apply (f_equal2 cons); [done|exact IH].
Qed.

Lemma max_date_none l : max_date l = None ↔ Forall (λ d, d = None) l.
Proof.
  induction l as [|d l IH]; simpl; [by split; [constructor|]|].
  rewrite Forall_cons, <-IH.
  destruct d as [t|]; [destruct (max_date l)|]; split; try done.
  - by intros [? _].
  - by intros [? _].
  - by intros [_ ?].
Qed.

Lemma max_date_some l t :
  max_date l = Some t ↔ Some t ∈ l ∧ ∀ u, Some u ∈ l → u ≤ t.
Proof.
  revert t. induction l as [|d l IH]; intros t; simpl.
  - split; [done|]. by intros [?%elem_of_nil _].
  - destruct d as [v|].
    + destruct (max_date l) as [w|] eqn:Hm.
      * pose proof (proj1 (IH w) eq_refl) as [Hw Hmax]. split.
        -- intros [= <-]. split.
           ++ destruct (Z.max_spec v w) as [[_ ->]|[_ ->]]; [by right|by left].
           ++ intros u [[= ->]|Hu]%elem_of_cons; [lia|]. specialize (Hmax u Hu). lia.
        -- intros [[[= ->]|Ht]%elem_of_cons Hall]; f_equal.
           ++ assert (w ≤ v) by (apply Hall; by right). lia.
           ++ assert (v ≤ t) by (apply Hall; left).
              assert (w ≤ t) by (apply Hall; by right).
              specialize (Hmax t Ht). lia.
      * apply max_date_none in Hm. split.
        -- intros [= <-]. split; [left|].
           intros u [[= ->]|Hu]%elem_of_cons; [done|].
           eapply Forall_forall in Hm; [|done]. done.
        -- intros [[[= ->]|Ht]%elem_of_cons _]; [done|].
           eapply Forall_forall in Hm; [|done]. done.
    + rewrite IH. split.
      * intros [Ht Hall]. split; [by right|].
        intros u [?|Hu]%elem_of_cons; [done|by apply Hall].
      * intros [[?|Ht]%elem_of_cons Hall]; [done|]. split; [done|].
        intros u Hu. apply Hall. by right.
Qed.

Lemma filter_fmap_length {A B} (p : B → bool) (f : A → B) (l : list A) :
  List.length (filter (λ y, Is_true (p y)) (f <$> l))
  = List.length (filter (λ x, Is_true (p (f x))) l).
Proof.
  induction l as [|x l IH]; simpl; [done|].
  rewrite !filter_cons. destruct (decide _); simpl; [|exact IH].
  apply (f_equal S). exact IH.
Qed.

Lemma members_totals {A} (f : A → Qc) (g : A → option Z) (l : list A) :
  ((λ r, (f r, g r)) <$> l).*1 = f <$> l.
Proof. by rewrite <-list_fmap_compose. Qed.



(** ** The stage pipeline *)

Lemma column_set_column_ne df c vals c' :
  c ≠ c' → List.length vals = List.length (rows df) →
  column (set_column df c vals) c' = column df c'.
Proof.
  intros Hne. unfold column, set_column, get. simpl.
  generalize (rows df). intros l. revert vals.
  induction l as [|r l IH]; intros [|v vals]; simpl; try done.
  intros [= Hlen]. rewrite lookup_insert_ne by done. f_equal. by apply IH.
Qed.

Lemma column_flag_fraud df threshold extra c :
  c ≠ "fraud_score" → c ≠ "fraud_flag" →
  column (flag_fraud df threshold extra) c = column df c.
Proof.
  intros H1 H2. unfold flag_fraud.
  rewrite !column_set_column_ne; try done.
  - by rewrite !length_fmap.
  - unfold set_column. simpl. rewrite length_zip_with, !length_fmap. lia.
Qed.

Lemma calculate_clv_without_recency now1 now2 df ccol tcol :
  (λ out : list ClvRow, without_recency <$> out) <$> calculate_clv now1 df ccol tcol
  = (λ out : list ClvRow, without_recency <$> out) <$> calculate_clv now2 df ccol tcol.
Proof.
  unfold calculate_clv.
  destruct (has_col df tcol), (has_col df "order_date"), (has_col df ccol); simpl; try done.
  f_equal. rewrite <-!list_fmap_compose. by apply list_fmap_ext.
Qed.

Lemma elem_of_zip_r {A B} (l : list A) (k : list B) x y : (x, y) ∈ zip l k → y ∈ k.
Proof.
  revert k. induction l as [|a l IH]; intros [|b k]; simpl;
    try (by intros ?%elem_of_nil).
  intros [[= -> ->]|Hin]%elem_of_cons; [left|right; by eapply IH].
Qed.

Lemma calculate_clv_same_day now1 now2 df ccol tcol :
  (∀ v t, v ∈ column df "order_date" → to_datetime v = Some t →
          (now1 - t) `div` NS_PER_DAY = (now2 - t) `div` NS_PER_DAY) →
  calculate_clv now1 df ccol tcol = calculate_clv now2 df ccol tcol.
Proof.
  intros Hsame. unfold calculate_clv.
  destruct (has_col df tcol), (has_col df "order_date"), (has_col df ccol); simpl; try done.
  f_equal. apply list_fmap_ext. intros _ key _. unfold clv_row. f_equal.
  set (members := group_members key _).
  destruct (max_date members.*2) as [t|] eqn:Hmax; [|done]. simpl. f_equal.
  apply max_date_some in Hmax as [Hin _].
  apply list_elem_of_fmap in Hin as ([q d] & Hd & Hin). simpl in Hd. subst d.
  unfold members, group_members in Hin.
  apply list_elem_of_fmap in Hin as ([k [q' d']] & [= <- <-] & Hin).
  apply list_elem_of_filter in Hin as [_ Hin].
  apply elem_of_zip_r, elem_of_zip_r in Hin.
  apply list_elem_of_fmap in Hin as (v & Hv & Hvin). by eapply Hsame.
Qed.

(** C9 (amended).  Two runs of the stage pipeline on the same batch, at any
    two clock readings, return the same orders (order total, fraud score and
    flag, validation issues) and the same CLV rows up to [recency_days]; the
    day counts, and so the whole outputs, agree as well when both readings
    fall in the same whole day after every order date of the batch -- in
    particular when the clock reads the same. *)
Theorem run_stages_repeatable now1 now2 df :
  out_orders <$> run_stages now1 df = out_orders <$> run_stages now2 df
  ∧ (λ o, (λ out : list ClvRow, without_recency <$> out) <$> out_clv o) <$> run_stages now1 df
    = (λ o, (λ out : list ClvRow, without_recency <$> out) <$> out_clv o) <$> run_stages now2 df
  ∧ (same_day_counts now1 now2 df → run_stages now1 df = run_stages now2 df)
  ∧ (now1 = now2 → run_stages now1 df = run_stages now2 df).
Proof.
  unfold run_stages.
  set (with_total := if has_col df "order_total" then Some df else _).
  split; [by destruct with_total|]. split; [|split; [|by intros ->]].
  - destruct with_total as [df'|]; [|done]. simpl. f_equal.
    apply calculate_clv_without_recency.
  - intros Hsame. destruct with_total as [df'|] eqn:Htotal; [|done]. do 2 f_equal.
    apply calculate_clv_same_day. simpl.
    rewrite column_flag_fraud by done.
    assert (column df' "order_date" = column df "order_date") as ->; [|exact Hsame].
    unfold with_total in Htotal. destruct (has_col df "order_total"); [congruence|].
    unfold calculate_order_total in Htotal.
    destruct (has_col df "price"), (has_col df "quantity"); simpl in Htotal; try done.
    injection Htotal as <-. apply column_set_column_ne; [done|].
    unfold column, fillna.
    rewrite length_fmap, length_zip_with, !length_fmap. lia.
Qed.

(** ** Imputation *)

Lemma fill_with_no_null {A} (null : A → bool) val cells :
  null val = false → Forall (λ c, null c = false) (fill_with null val cells).
Proof.
  intros Hval. unfold fill_with. apply Forall_fmap, Forall_forall. intros c _. simpl.
  by destruct (null c) eqn:Hc.
Qed.

Lemma fill_with_length {A} (null : A → bool) val cells :
  List.length (fill_with null val cells) = List.length cells.
Proof. unfold fill_with. by rewrite length_fmap. Qed.

Lemma ffill_from_length {A} (null : A → bool) last cells :
  List.length (ffill_from null last cells) = List.length cells.
Proof.
  revert last. induction cells as [|c cells IH]; intros last; simpl; [done|].
  destruct (null c); simpl; by rewrite IH.
Qed.

Lemma bfill_length {A} (null : A → bool) cells :
  List.length (bfill null cells) = List.length cells.
Proof. induction cells as [|c cells IH]; simpl; [done|]. by rewrite IH. Qed.

Lemma fill_method_length {A} method (null : A → bool) cells :
  List.length (fill_method method null cells) = List.length cells.
Proof.
  unfold fill_method, ffill. case_bool_decide; [apply ffill_from_length|apply bfill_length].
Qed.

(** Once a non-null value has been seen, forward fill leaves no null. *)
Lemma ffill_from_seen {A} (null : A → bool) x cells :
  null x = false → Forall (λ c, null c = false) (ffill_from null (Some x) cells).
Proof.
  revert x. induction cells as [|c cells IH]; intros x Hx; simpl; [constructor|].
  destruct (null c) eqn:Hc; constructor; simpl; auto.
Qed.

Lemma ffill_first_present {A} (null : A → bool) cells :
  match cells with c :: _ => null c = false | [] => True end →
  Forall (λ c, null c = false) (ffill null cells).
Proof.
  destruct cells as [|c cells]; simpl; [constructor|].
  intros Hc. unfold ffill. simpl. rewrite Hc. constructor; [done|].
  by apply ffill_from_seen.
Qed.

Lemma bfill_last_present {A} (null : A → bool) cells :
  match last cells with Some c => null c = false | None => True end →
  Forall (λ c, null c = false) (bfill null cells).
Proof.
  induction cells as [|c cells IH]; simpl; [constructor|].
  destruct cells as [|c' cells].
  - simpl. intros Hc. rewrite Hc. by constructor.
  - intros Hlast. specialize (IH Hlast). constructor; [|done].
    destruct (null c) eqn:Hc; [|done].
    destruct (bfill null (c' :: cells)) as [|f filled] eqn:Hf; [done|].
    apply Forall_cons in IH as [Hnf _]. simpl. by rewrite Hnf.
Qed.

(** After a forward fill the cell at [i] is null iff every cell up to [i]
    was. *)
Lemma ffill_null_iff {A} (null : A → bool) cells i c :
  ffill null cells !! i = Some c →
  null c = true ↔ Forall (λ x, null x = true) (take (S i) cells).
Proof.
  unfold ffill. revert i. induction cells as [|x cells IH]; intros i; simpl; [done|].
  destruct (null x) eqn:Hx.
  - destruct i as [|i]; simpl.
    + intros [= <-]. rewrite take_0. split; [by repeat constructor|done].
    + intros Hi. rewrite (IH i Hi), Forall_cons. split; [done|by intros [_ ?]].
  - destruct i as [|i]; simpl.
    + intros [= <-]. rewrite take_0, Hx. split; [done|].
      intros [? _]%Forall_cons. congruence.
    + intros Hi. pose proof (ffill_from_seen null x cells Hx) as Hall.
      eapply Forall_lookup_1 in Hall; [|done]. simpl in Hall. rewrite Hall.
      split; [done|]. intros [? _]%Forall_cons. congruence.
Qed.

(** After a back fill the cell at [i] is null iff every cell from [i] on
    was. *)
Lemma bfill_null_iff {A} (null : A → bool) cells i c :
  bfill null cells !! i = Some c →
  null c = true ↔ Forall (λ x, null x = true) (drop i cells).
Proof.
  revert i c. induction cells as [|x cells IH]; intros i c; simpl; [done|].
  destruct i as [|i]; simpl; [|apply IH].
  intros [= <-]. rewrite Forall_cons.
  destruct (null x) eqn:Hx; [|rewrite Hx; split; [done|by intros [? _]]].
  destruct (bfill null cells) as [|f filled] eqn:Hf; simpl.
  - assert (cells = []) as ->.
    { apply (f_equal List.length) in Hf. rewrite bfill_length in Hf.
      by destruct cells. }
    rewrite Hx. split; [by split; [|constructor]|done].
  - specialize (IH 0%nat f eq_refl). rewrite drop_0 in IH.
    destruct (null f) eqn:Hnf.
    + rewrite Hx. split; [intros _; split; [done|by apply IH]|done].
    + rewrite Hnf. split; [done|]. intros [_ Hall]. by apply IH in Hall.
Qed.

Lemma ffill_mask {A} (null : A → bool) cells i :
  (null <$> ffill null cells) !! i = Some true ↔
  (i < List.length (null <$> cells))%nat
  ∧ Forall (λ m, m = true) (take (S i) (null <$> cells)).
Proof.
  rewrite <-fmap_take, Forall_fmap, list_lookup_fmap, length_fmap. split.
  - destruct (ffill null cells !! i) as [c|] eqn:Hi; simpl; [|done].
    intros [= Hc]. split.
    + apply lookup_lt_Some in Hi. unfold ffill in Hi.
      by rewrite ffill_from_length in Hi.
    + by apply (ffill_null_iff null cells i c).
  - intros [Hlt Hall].
    destruct (lookup_lt_is_Some_2 (ffill null cells) i) as [c Hi].
    { unfold ffill. by rewrite ffill_from_length. }
    rewrite Hi. simpl. f_equal. by apply (ffill_null_iff null cells i c).
Qed.

Lemma bfill_mask {A} (null : A → bool) cells i :
  (null <$> bfill null cells) !! i = Some true ↔
  (i < List.length (null <$> cells))%nat
  ∧ Forall (λ m, m = true) (drop i (null <$> cells)).
Proof.
  rewrite <-fmap_drop, Forall_fmap, list_lookup_fmap, length_fmap. split.
  - destruct (bfill null cells !! i) as [c|] eqn:Hi; simpl; [|done].
    intros [= Hc]. split.
    + apply lookup_lt_Some in Hi. by rewrite bfill_length in Hi.
    + by apply (bfill_null_iff null cells i c).
  - intros [Hlt Hall].
    destruct (lookup_lt_is_Some_2 (bfill null cells) i) as [c Hi].
    { by rewrite bfill_length. }
    rewrite Hi. simpl. f_equal. by apply (bfill_null_iff null cells i c).
Qed.

Lemma median_all_null cells : Forall (λ c, is_null c = true) cells → median cells = None.
Proof.
  intros Hall. unfold median.
  assert (omap id cells = []) as ->; [|done].
  induction Hall as [|c cells Hc _ IH]; simpl; [done|]. by destruct c.
Qed.

Lemma mean_all_null cells : Forall (λ c, is_null c = true) cells → mean cells = None.
Proof.
  intros Hall. unfold mean.
  assert (omap id cells = []) as ->; [|done].
  induction Hall as [|c cells Hc _ IH]; simpl; [done|]. by destruct c.
Qed.

Lemma impute_numeric_length strategy cells :
  List.length (impute_numeric strategy cells) = List.length cells.
Proof.
  unfold impute_numeric.
  repeat case_bool_decide; rewrite ?fill_with_length, ?fill_method_length; done.
Qed.

Lemma impute_numeric_no_null strategy cells :
  strategy ∉ ["ffill"; "bfill"] →
  Forall (λ c, is_null c = false) (impute_numeric strategy cells).
Proof.
  intros Hs. unfold impute_numeric.
  repeat case_bool_decide; try done; by apply fill_with_no_null.
Qed.

Lemma impute_categorical_no_null strategy cells :
  strategy ∉ ["ffill"; "bfill"] →
  Forall (λ c, isna c = false) (impute_categorical strategy cells).
Proof.
  intros Hs. unfold impute_categorical.
  repeat case_bool_decide; try done; apply fill_with_no_null; try done.
  destruct (mode_value cells) as [v|] eqn:Hmode; [|done]. simpl.
  unfold mode_value in Hmode. apply head_Some_elem_of in Hmode.
  rewrite merge_sort_Permutation in Hmode.
  apply list_elem_of_filter in Hmode as [_ Hv].
  by apply elem_of_distinct_keys in Hv as [_ ?].
Qed.

Lemma head_fmap_false {A} (null : A → bool) cells :
  head (null <$> cells) = Some false →
  match cells with c :: _ => null c = false | [] => True end.
Proof. destruct cells; simpl; [done|]. by intros [= ->]. Qed.

Lemma last_fmap_false {A} (null : A → bool) cells :
  last (null <$> cells) = Some false →
  match last cells with Some c => null c = false | None => True end.
Proof. rewrite fmap_last. destruct (last cells); simpl; [|done]. by intros [= ->]. Qed.

Lemma Forall_null_mask {A} (null : A → bool) cells :
  Forall (λ c, null c = false) cells → Forall (λ m, m = false) (null <$> cells).
Proof. intros H. by apply Forall_fmap. Qed.

Lemma fill_method_ffill {A} (null : A → bool) cells :
  fill_method "ffill" null cells = ffill null cells.
Proof. done. Qed.

Lemma fill_method_bfill {A} (null : A → bool) cells :
  fill_method "bfill" null cells = bfill null cells.
Proof. done. Qed.

Lemma impute_by_strategy_outcome ns cs ds col :
  let col' := impute_by_strategy ns cs ds col in
  let strategy := column_strategy ns cs ds col in
  List.length (null_mask col') = List.length (null_mask col)
  ∧ (fills_every_null col strategy → no_null col')
  ∧ (strategy = "ffill" →
       (head (nulls_to_fill col) = Some false → no_null col')
       ∧ ∀ i, null_mask col' !! i = Some true ↔
              (i < List.length (nulls_to_fill col))%nat
              ∧ Forall (λ m, m = true) (take (S i) (nulls_to_fill col)))
  ∧ (strategy = "bfill" →
       (last (nulls_to_fill col) = Some false → no_null col')
       ∧ ∀ i, null_mask col' !! i = Some true ↔
              (i < List.length (nulls_to_fill col))%nat
              ∧ Forall (λ m, m = true) (drop i (nulls_to_fill col))).
Proof.
  unfold no_null, fills_every_null.
  destruct col as [cells|cells|cells]; simpl.
  - split; [by rewrite !length_fmap, impute_numeric_length|].
    split; [intros ?; by apply Forall_null_mask, impute_numeric_no_null|].
    split; intros ->; unfold impute_numeric; simpl.
    + rewrite fill_method_ffill. split; [|apply ffill_mask].
      intros Hc. by apply Forall_null_mask, ffill_first_present, head_fmap_false.
    + rewrite fill_method_bfill. split; [|apply bfill_mask].
      intros Hc. by apply Forall_null_mask, bfill_last_present, last_fmap_false.
  - unfold impute_datetime.
    split; [rewrite !length_fmap; repeat case_bool_decide;
            rewrite ?fill_method_length, ?fill_with_length; done|].
    split; [intros ->; apply Forall_null_mask, (fill_with_no_null is_null); done|].
    split; intros ->; simpl.
    + rewrite fill_method_ffill. split; [|apply ffill_mask].
      intros Hc. by apply Forall_null_mask, ffill_first_present, head_fmap_false.
    + rewrite fill_method_bfill. split; [|apply bfill_mask].
      intros Hc. by apply Forall_null_mask, bfill_last_present, last_fmap_false.
  - destruct (looks_like_datetime_series cells); simpl.
    + unfold impute_datetime.
      split; [rewrite !length_fmap; repeat case_bool_decide;
              rewrite ?fill_method_length, ?fill_with_length, ?length_fmap; done|].
      split; [intros ->; apply Forall_null_mask, (fill_with_no_null is_null); done|].
      split; intros ->; simpl.
      * rewrite fill_method_ffill. split; [|apply ffill_mask].
        intros Hc. by apply Forall_null_mask, ffill_first_present, head_fmap_false.
      * rewrite fill_method_bfill. split; [|apply bfill_mask].
        intros Hc. by apply Forall_null_mask, bfill_last_present, last_fmap_false.
    + unfold impute_categorical.
      split; [rewrite !length_fmap; repeat case_bool_decide;
              rewrite ?fill_method_length, ?fill_with_length; done|].
      split; [intros ?; by apply Forall_null_mask, impute_categorical_no_null|].
      split; intros ->; simpl.
      * rewrite fill_method_ffill. split; [|apply ffill_mask].
        intros Hc. by apply Forall_null_mask, ffill_first_present, head_fmap_false.
      * rewrite fill_method_bfill. split; [|apply bfill_mask].
        intros Hc. by apply Forall_null_mask, bfill_last_present, last_fmap_false.
Qed.

(** C7 (amended).  [impute_missing], run without explicit fill values,
    returns every column with its length unchanged, and no null remains in a
    column when its strategy fills every null: a numeric or categorical
    strategy other than [ffill] and [bfill], or [epoch] for a datetime or
    date-like column.  Under [ffill] a cell is null afterwards exactly when
    it and every cell before it were null, so no null remains in a column
    whose first cell is non-null; under [bfill] exactly when it and every
    cell after it were null, so no null remains in a column whose last cell
    is non-null.  (A date-like text column is parsed first; its nulls are
    those of the parsed cells.)  The median strategy on [1, null, 3] fills 2,
    and a fill value that is itself null -- the median or mean of an
    all-null numeric column -- degrades to zero. *)
Theorem impute_missing_nulls df numeric_strategy categorical_strategy datetime_strategy :
  (∃ out,
     impute_missing df numeric_strategy categorical_strategy datetime_strategy ∅ = Some out
     ∧ List.length out = List.length df
     ∧ ∀ i name col, df !! i = Some (name, col) →
         ∃ col', out !! i = Some (name, col')
           ∧ let strategy :=
               column_strategy numeric_strategy categorical_strategy datetime_strategy col in
             List.length (null_mask col') = List.length (null_mask col)
             ∧ (fills_every_null col strategy → no_null col')
             ∧ (strategy = "ffill" →
                  (head (nulls_to_fill col) = Some false → no_null col')
                  ∧ ∀ j, null_mask col' !! j = Some true ↔
                         (j < List.length (nulls_to_fill col))%nat
                         ∧ Forall (λ m, m = true) (take (S j) (nulls_to_fill col)))
             ∧ (strategy = "bfill" →
                  (last (nulls_to_fill col) = Some false → no_null col')
                  ∧ ∀ j, null_mask col' !! j = Some true ↔
                         (j < List.length (nulls_to_fill col))%nat
                         ∧ Forall (λ m, m = true) (drop j (nulls_to_fill col))))
  ∧ impute_numeric "median" [Some (Qc_of_Z 1); None; Some (Qc_of_Z 3)]
    = [Some (Qc_of_Z 1); Some (Qc_of_Z 2); Some (Qc_of_Z 3)]
  ∧ (∀ cells, Forall (λ c, is_null c = true) cells →
       median cells = None ∧ mean cells = None
       ∧ impute_numeric "median" cells = (λ _, Some Qc0) <$> cells
       ∧ impute_numeric "mean" cells = (λ _, Some Qc0) <$> cells).
Proof.
  split; [|split].
  - exists ((λ '(name, col),
              (name, impute_by_strategy numeric_strategy categorical_strategy
                       datetime_strategy col)) <$> df).
    split; [|split].
    + unfold impute_missing. apply mapM_Some, Forall2_fmap_r, Forall_Forall2_diag.
      apply Forall_forall. intros [name col] _. unfold impute_column.
      by rewrite lookup_empty.
    + by rewrite length_fmap.
    + intros i name col Hi. eexists. rewrite list_lookup_fmap, Hi. simpl.
      split; [done|]. apply impute_by_strategy_outcome.
  - vm_compute. qc_eq.
  - intros cells Hall. split; [by apply median_all_null|]. split; [by apply mean_all_null|].
    unfold impute_numeric. simpl. rewrite median_all_null, mean_all_null by done.
    assert (fill_with is_null (Some Qc0) cells = (λ _, Some Qc0) <$> cells) as ->; [|done].
    unfold fill_with. apply list_fmap_ext. intros i c Hc.
    eapply Forall_lookup_1 in Hall; [|done]. by rewrite Hall.
Qed.

(** * Further properties *)

(** ** Deduplication: which rows survive *)

Lemma dup_eq_refl a : dup_eq a a = true.
Proof.
  destruct a; simpl; try done; unfold dup_eq; simpl; by rewrite bool_decide_eq_true_2.
Qed.

Lemma dup_eq_trans a b c : dup_eq a b = true → dup_eq b c = true → dup_eq a c = true.
Proof.
  unfold dup_eq. rewrite !orb_true_iff, !andb_true_iff.
  intros [[Ha Hb]|Hab] [[Hb' Hc]|Hbc].
  - by left.
  - left. split; [done|]. destruct (isna c) eqn:Hc; [done|].
    rewrite py_eq_sym in Hbc. by rewrite (py_eq_isna _ _ Hbc Hc) in Hb.
  - left. split; [|done]. destruct (isna a) eqn:Ha; [done|].
    by rewrite (py_eq_isna _ _ Hab Ha) in Hb'.
  - right. by eapply py_eq_trans.
Qed.

Lemma keys_eq_refl k : keys_eq k k = true.
Proof. induction k as [|a k IH]; simpl; [done|]. by rewrite dup_eq_refl, IH. Qed.

Lemma keys_eq_trans k1 k2 k3 :
  keys_eq k1 k2 = true → keys_eq k2 k3 = true → keys_eq k1 k3 = true.
Proof.
  revert k2 k3. induction k1 as [|a k1 IH]; intros [|b k2] [|c k3]; simpl; try done.
  rewrite !andb_true_iff. intros [Hab H12] [Hbc H23].
  split; [by eapply dup_eq_trans|by eapply IH].
Qed.

Lemma drop_marked_sublist {A} (marks : list bool) (l : list A) :
  drop_marked marks l `sublist_of` l.
Proof.
  revert l. induction marks as [|m marks IH]; intros [|x l]; simpl;
    try apply sublist_nil_l.
  destruct m; [by apply sublist_cons|by apply sublist_skip].
Qed.

Lemma drop_marked_fmap {A B} (f : A → B) (marks : list bool) (l : list A) :
  f <$> drop_marked marks l = drop_marked marks (f <$> l).
Proof.
  revert l. induction marks as [|m marks IH]; intros [|x l]; simpl; try done.
  destruct m; simpl; by rewrite IH.
Qed.

Lemma drop_marked_none {A} (marks : list bool) (l : list A) :
  List.length marks = List.length l → Forall (λ m, m = false) marks →
  drop_marked marks l = l.
Proof.
  revert l. induction marks as [|m marks IH]; intros [|x l]; simpl; try done.
  intros [= Hlen] [-> Hall]%Forall_cons. by rewrite IH.
Qed.

Lemma elem_of_drop_marked {A} (marks : list bool) (l : list A) x :
  x ∈ drop_marked marks l ↔ ∃ i, l !! i = Some x ∧ marks !! i = Some false.
Proof.
  revert l. induction marks as [|m marks IH]; intros [|y l]; simpl.
  - split; [by intros ?%elem_of_nil|by intros (i & ? & ?)].
  - split; [by intros ?%elem_of_nil|by intros (i & ? & ?)].
  - split; [by intros ?%elem_of_nil|by intros (i & ? & ?)].
  - destruct m.
    + rewrite IH. split.
      * intros (i & Hi & Hm). by exists (S i).
      * intros ([|i] & Hi & Hm); simpl in *; [done|]. by exists i.
    + rewrite elem_of_cons, IH. split.
      * intros [->|(i & Hi & Hm)]; [by exists 0%nat|by exists (S i)].
      * intros ([|i] & Hi & Hm); simpl in *; [left; congruence|right; by exists i].
Qed.

(** The mark of a key, read off the keys before and after it. *)
Lemma duplicated_from_lookup keep before ks i k :
  ks !! i = Some k →
  duplicated_from keep before ks !! i =
    Some match keep with
         | KeepFirst => existsb (keys_eq k) before || existsb (keys_eq k) (take i ks)
         | KeepLast => existsb (keys_eq k) (drop (S i) ks)
         | KeepNone =>
             existsb (keys_eq k) before || existsb (keys_eq k) (take i ks)
             || existsb (keys_eq k) (drop (S i) ks)
         end.
Proof.
  revert before i. induction ks as [|k0 ks IH]; intros before [|i]; simpl; try done.
  - intros [= ->]. destruct keep; by rewrite ?orb_false_r.
  - intros Hi. rewrite (IH _ _ Hi). simpl. f_equal.
    destruct keep; [|done|];
      destruct (keys_eq k k0), (existsb (keys_eq k) before); simpl; done.
Qed.

(** A key that survives has no equal among the keys seen before, unless
    only later keys count. *)
Lemma drop_marked_not_before keep before ks k b :
  keep ≠ KeepLast →
  k ∈ drop_marked (duplicated_from keep before ks) ks → b ∈ before →
  keys_eq k b = false.
Proof.
  intros Hkeep. revert before. induction ks as [|k0 ks IH]; intros before; simpl;
    [by intros ?%elem_of_nil|].
  assert (∀ m, (m = false → existsb (keys_eq k0) before = false) →
               k ∈ (if m then drop_marked (duplicated_from keep (k0 :: before) ks) ks
                    else k0 :: drop_marked (duplicated_from keep (k0 :: before) ks) ks) →
               b ∈ before → keys_eq k b = false) as Hcase.
  { intros m Hm Hin Hb. destruct m.
    - apply (IH (k0 :: before)); [done|by right].
    - apply elem_of_cons in Hin as [->|Hin].
      + apply (proj1 (existsb_false _ _) (Hm eq_refl)), Hb.
      + apply (IH (k0 :: before)); [done|by right]. }
  destruct keep; [|done|]; apply Hcase.
  - done.
  - by intros [? _]%orb_false_iff.
Qed.

(** The surviving keys are pairwise distinct, whatever the policy. *)
Lemma drop_marked_pairwise_distinct keep before ks :
  pairwise_distinct (drop_marked (duplicated_from keep before ks) ks).
Proof.
  revert before. induction ks as [|k0 ks IH]; intros before; simpl; [done|].
  set (rest := drop_marked (duplicated_from keep (k0 :: before) ks) ks).
  assert (∀ m, (m = false → keep = KeepLast → existsb (keys_eq k0) ks = false) →
               pairwise_distinct (if m then rest else k0 :: rest)) as Hcase.
  { intros m Hm. destruct m; [apply IH|]. simpl. split; [|apply IH].
    intros k' Hk'. subst rest. destruct keep.
    - rewrite keys_eq_sym.
      apply (drop_marked_not_before KeepFirst (k0 :: before) ks); [done|done|left].
    - apply (proj1 (existsb_false _ _) (Hm eq_refl eq_refl)).
      eapply elem_of_sublist; [exact Hk'|apply drop_marked_sublist].
    - rewrite keys_eq_sym.
      apply (drop_marked_not_before KeepNone (k0 :: before) ks); [done|done|left]. }
  destruct keep; apply Hcase; done.
Qed.

(** Under [first] and [last] every key has an equal one among the
    survivors. *)
Lemma drop_marked_first_represents before ks k :
  k ∈ ks →
  existsb (keys_eq k) before = true
  ∨ ∃ k', k' ∈ drop_marked (duplicated_from KeepFirst before ks) ks ∧ keys_eq k k' = true.
Proof.
  revert before. induction ks as [|k0 ks IH]; intros before; simpl;
    [by intros ?%elem_of_nil|].
  intros [->|Hin]%elem_of_cons.
  - destruct (existsb (keys_eq k0) before) eqn:Hk0; [by left|].
    right. exists k0. split; [left|apply keys_eq_refl].
  - destruct (IH (k0 :: before) Hin) as [Hbefore|(k' & Hk' & Heq)].
    + simpl in Hbefore. apply orb_true_iff in Hbefore as [Hkk0|Hbefore]; [|by left].
      destruct (existsb (keys_eq k0) before) eqn:Hk0.
      * left. apply existsb_true_iff in Hk0 as (b & Hb & Hk0b).
        apply existsb_true_iff. exists b. split; [done|]. by eapply keys_eq_trans.
      * right. exists k0. split; [left|done].
    + right. exists k'. split; [|done].
      destruct (existsb (keys_eq k0) before); [done|by right].
Qed.

Lemma drop_marked_last_represents before ks k :
  k ∈ ks →
  ∃ k', k' ∈ drop_marked (duplicated_from KeepLast before ks) ks ∧ keys_eq k k' = true.
Proof.
  revert before k. induction ks as [|k0 ks IH]; intros before k; simpl;
    [by intros ?%elem_of_nil|].
  intros [->|Hin]%elem_of_cons.
  - destruct (existsb (keys_eq k0) ks) eqn:Hk0.
    + apply existsb_true_iff in Hk0 as (k1 & Hk1 & Hk01).
      destruct (IH (k0 :: before) k1 Hk1) as (k' & Hk' & Heq).
      exists k'. split; [done|]. by eapply keys_eq_trans.
    + exists k0. split; [left|apply keys_eq_refl].
  - destruct (IH (k0 :: before) k Hin) as (k' & Hk' & Heq).
    exists k'. split; [|done].
    destruct (existsb (keys_eq k0) ks); [done|by right].
Qed.

(** The result of a call that returns, unfolded. *)
Lemma remove_duplicates_some df subset keep cleaned removed :
  remove_duplicates df subset keep = Some (cleaned, removed) →
  (frame_empty df = true ∧ cleaned = df)
  ∨ (frame_empty df = false
     ∧ ∃ keys, key_columns df subset = Some keys ∧ keys ≠ []
         ∧ cleaned = mkFrame (columns df)
                       (drop_marked (duplicated keep (key_of keys <$> rows df)) (rows df))).
Proof.
  unfold remove_duplicates, drop_duplicates.
  destruct (frame_empty df) eqn:Hempty; [intros [= <- _]; by left|].
  destruct (key_columns df subset) as [keys|] eqn:Hkeys; [|done].
  intros [= <- _]. right. split; [done|]. exists keys. split; [done|]. split; [|done].
  intros ->. destruct subset as [[|c l]|]; simpl in Hkeys; try done.
  - by destruct (has_col df c && forallb (has_col df) l).
  - unfold frame_empty in Hempty. apply orb_false_iff in Hempty as [Hcols _].
    apply bool_decide_eq_false in Hcols. congruence.
Qed.

(** X2.  [remove_duplicates] only drops rows: the columns are those of the
    input, and the rows it returns are rows of the input in their original
    order, under every keep policy. *)
Theorem remove_duplicates_keeps_order df subset keep cleaned removed :
  remove_duplicates df subset keep = Some (cleaned, removed) →
  columns cleaned = columns df ∧ rows cleaned `sublist_of` rows df.
Proof.
  intros [[_ ->]|(_ & keys & _ & _ & ->)]%remove_duplicates_some; [done|].
  split; [done|]. apply drop_marked_sublist.
Qed.

(** X3.  Under the policies [first] and [last] exactly one row of every
    group of equal rows survives: no two rows of the result are equal on
    the key columns, and every input row has a row equal to it on the key
    columns in the result. *)
Theorem remove_duplicates_one_per_group df subset keep keys cleaned removed :
  keep ≠ KeepNone →
  key_columns df subset = Some keys →
  keys ≠ [] →
  remove_duplicates df subset keep = Some (cleaned, removed) →
  no_two_rows_equal keys (rows cleaned)
  ∧ ∀ r, r ∈ rows df → ∃ r', r' ∈ rows cleaned ∧ rows_equal_on keys r r' = true.
Proof.
  intros Hkeep Hkeys Hne [[Hempty ->]|(_ & keys' & Hkeys' & _ & ->)]%remove_duplicates_some.
  - unfold frame_empty in Hempty.
    apply orb_true_iff in Hempty as [Hcols|Hrows]; apply bool_decide_eq_true in Hcols || apply bool_decide_eq_true in Hrows.
    + exfalso. destruct subset as [[|c l]|]; simpl in Hkeys; try done.
      * destruct (has_col df c) eqn:Hc; [|done].
        apply bool_decide_eq_true in Hc. rewrite Hcols in Hc. by apply elem_of_nil in Hc.
      * congruence.
    + rewrite Hrows. split; [by intros i j r1 r2 _ ?|by intros r ?%elem_of_nil].
  - assert (keys' = keys) as -> by congruence. simpl. split.
    + rewrite no_two_rows_equal_keys, drop_marked_fmap. apply drop_marked_pairwise_distinct.
    + intros r Hr. unfold rows_equal_on.
      assert (key_of keys r ∈ key_of keys <$> rows df) as Hk by (by apply list_elem_of_fmap_2).
      assert (∃ k', k' ∈ drop_marked (duplicated keep (key_of keys <$> rows df))
                           (key_of keys <$> rows df)
                    ∧ keys_eq (key_of keys r) k' = true) as (k' & Hk' & Heq).
      { unfold duplicated. destruct keep; [|by apply drop_marked_last_represents|done].
        by destruct (drop_marked_first_represents [] _ _ Hk) as [?|?]. }
      rewrite <-drop_marked_fmap in Hk'.
      apply list_elem_of_fmap in Hk' as (r' & -> & Hr'). by exists r'.
Qed.

(** X4.  Under the policy [False] a row survives exactly when no other row
    of the input is equal to it on the key columns: every member of a group
    of duplicates is dropped. *)
Theorem remove_duplicates_keep_none df subset keys cleaned removed :
  key_columns df subset = Some keys →
  keys ≠ [] →
  remove_duplicates df subset KeepNone = Some (cleaned, removed) →
  ∀ r, r ∈ rows cleaned ↔
       ∃ i, rows df !! i = Some r
            ∧ ∀ j r', j ≠ i → rows df !! j = Some r' → rows_equal_on keys r r' = false.
Proof.
  intros Hkeys Hne [[Hempty ->]|(_ & keys' & Hkeys' & _ & ->)]%remove_duplicates_some r.
  - unfold frame_empty in Hempty.
    apply orb_true_iff in Hempty as [Hcols|Hrows]; apply bool_decide_eq_true in Hcols || apply bool_decide_eq_true in Hrows.
    + exfalso. destruct subset as [[|c l]|]; simpl in Hkeys; try done.
      * destruct (has_col df c) eqn:Hc; [|done].
        apply bool_decide_eq_true in Hc. rewrite Hcols in Hc. by apply elem_of_nil in Hc.
      * congruence.
    + rewrite Hrows. split; [by intros ?%elem_of_nil|by intros (i & ? & _)].
  - assert (keys' = keys) as -> by congruence. simpl.
    rewrite elem_of_drop_marked. unfold rows_equal_on.
    split; intros (i & Hi & Hrest); exists i; (split; [done|]).
    + unfold duplicated in Hrest.
      rewrite (duplicated_from_lookup _ _ _ _ (key_of keys r)) in Hrest
        by (by rewrite list_lookup_fmap, Hi).
      simpl in Hrest. injection Hrest as Hrest.
      apply orb_false_iff in Hrest as [Hbefore Hafter].
      intros j r' Hij Hj.
      destruct (decide (j < i)%nat) as [Hlt|Hge].
      * apply (proj1 (existsb_false _ _) Hbefore).
        apply list_elem_of_lookup. exists j.
        by rewrite lookup_take_lt, list_lookup_fmap, Hj by done.
      * apply (proj1 (existsb_false _ _) Hafter).
        apply list_elem_of_lookup. exists (j - S i)%nat.
        rewrite lookup_drop, list_lookup_fmap.
        replace (S i + (j - S i))%nat with j by lia. by rewrite Hj.
    + unfold duplicated.
      rewrite (duplicated_from_lookup _ _ _ _ (key_of keys r))
        by (by rewrite list_lookup_fmap, Hi).
      simpl. f_equal. apply orb_false_iff. split; apply existsb_false; intros k.
      * intros [j Hj]%list_elem_of_lookup.
        apply lookup_take_Some in Hj as [Hj Hlt].
        rewrite list_lookup_fmap in Hj.
        destruct (rows df !! j) as [r'|] eqn:Hr'; simplify_eq/=.
        apply (Hrest j); [lia|done].
      * intros [j Hj]%list_elem_of_lookup.
        rewrite lookup_drop, list_lookup_fmap in Hj.
        destruct (rows df !! (S i + j)%nat) as [r'|] eqn:Hr'; simplify_eq/=.
        apply (Hrest (S i + j)%nat); [lia|done].
Qed.

(** X5.  [remove_duplicates] is idempotent: applied to its own result, with
    the same key columns and policy, it removes nothing and returns that
    result. *)
Theorem remove_duplicates_idempotent df subset keep cleaned removed :
  remove_duplicates df subset keep = Some (cleaned, removed) →
  remove_duplicates cleaned subset keep = Some (cleaned, 0).
Proof.
  intros [[Hempty ->]|(Hempty & keys & Hkeys & Hne & ->)]%remove_duplicates_some.
  - unfold remove_duplicates, drop_duplicates. rewrite Hempty. f_equal. f_equal. lia.
  - unfold remove_duplicates, drop_duplicates.
    set (marks := duplicated keep (key_of keys <$> rows df)).
    set (cleaned := mkFrame (columns df) (drop_marked marks (rows df))).
    destruct (frame_empty cleaned); [f_equal; f_equal; lia|].
    assert (key_columns cleaned subset = Some keys) as ->.
    { destruct subset; done. }
    assert (drop_marked (duplicated keep (key_of keys <$> rows cleaned)) (rows cleaned)
            = rows cleaned) as ->.
    { apply drop_marked_none.
      - unfold duplicated. by rewrite duplicated_from_length, length_fmap.
      - unfold duplicated. apply duplicated_from_none. split.
        + destruct keep; try done; by intros k b _ ?%elem_of_nil.
        + simpl. unfold marks, duplicated.
          rewrite drop_marked_fmap. apply drop_marked_pairwise_distinct. }
    simpl. f_equal. f_equal. lia.
Qed.

(** ** Fraud flagging: the flag, its settings, repeated scoring *)

Lemma rows_flag_fraud_lookup df threshold extra i r :
  rows df !! i = Some r →
  rows (flag_fraud df threshold extra) !! i =
    Some (let score := fraud_score threshold (suspicious_domains extra) r in
          <["fraud_flag" := VBool (bool_decide (4 ≤ score))]>
            (<["fraud_score" := VInt score]> r)).
Proof. intros Hr. by rewrite rows_flag_fraud, list_lookup_fmap, Hr. Qed.

Lemma get_scored r v b :
  get (<["fraud_flag" := b]> (<["fraud_score" := v]> r)) "fraud_score" = v
  ∧ get (<["fraud_flag" := b]> (<["fraud_score" := v]> r)) "fraud_flag" = b.
Proof.
  unfold get. split.
  - by rewrite lookup_insert_ne, lookup_insert_eq.
  - by rewrite lookup_insert_eq.
Qed.

(** The rules read neither of the two columns [flag_fraud] writes. *)
Lemma fraud_score_scored threshold suspicious r v b :
  fraud_score threshold suspicious (<["fraud_flag" := b]> (<["fraud_score" := v]> r))
  = fraud_score threshold suspicious r.
Proof.
  unfold fraud_score, high_value_rule, country_mismatch_rule, disposable_email_rule,
    missing_identity_rule, get. simpl.
  by rewrite !lookup_insert_ne by done.
Qed.

Lemma float_ge_anti x (t t' : Qc) :
  (t' ≤ t)%Qc → float_ge x t = true → float_ge x t' = true.
Proof.
  destruct x as [q|]; simpl; [|done].
  rewrite !bool_decide_eq_true. intros. by etransitivity.
Qed.

Lemma disposable_email_rule_mono suspicious suspicious' r :
  suspicious ⊆ suspicious' →
  disposable_email_rule suspicious r = true → disposable_email_rule suspicious' r = true.
Proof.
  intros Hsub. unfold disposable_email_rule.
  destruct (email_domain (get r "email")) as [ed|]; [|done].
  rewrite !andb_true_iff, !bool_decide_eq_true. intros [? ?]. split; [done|].
  by apply Hsub.
Qed.

Lemma suspicious_domains_mono (extra extra' : list string) :
  extra ⊆ extra' → suspicious_domains extra ⊆ suspicious_domains extra'.
Proof.
  intros Hsub d. unfold suspicious_domains.
  rewrite !elem_of_union, !elem_of_list_to_set. intros [?|?]; [left; by apply Hsub|by right].
Qed.

Lemma fraud_score_mono threshold threshold' extra extra' r :
  (threshold' ≤ threshold)%Qc → extra ⊆ extra' →
  fraud_score threshold (suspicious_domains extra) r
  ≤ fraud_score threshold' (suspicious_domains extra') r.
Proof.
  intros Ht Hsub. rewrite !fraud_score_sum.
  pose proof (float_ge_anti (order_total_value (get r "order_total")) _ _ Ht) as Hhv.
  pose proof (disposable_email_rule_mono _ _ r (suspicious_domains_mono _ _ Hsub)) as Hde.
  fold (high_value_rule threshold r) in Hhv. fold (high_value_rule threshold' r) in Hhv.
  destruct (high_value_rule threshold r); [rewrite Hhv by done|];
    (destruct (disposable_email_rule (suspicious_domains extra) r);
       [rewrite Hde by done|]);
    destruct (high_value_rule threshold' r), (country_mismatch_rule r),
      (disposable_email_rule (suspicious_domains extra') r), (missing_identity_rule r);
    lia.
Qed.

(** X6.  The score of a record lies between 0 and 9, and the record is
    flagged exactly when one of the two three-point rules (high value,
    disposable email) fires together with at least one other rule: neither
    three-point rule flags a record on its own, and a country mismatch with
    missing identity fields (2 + 1) never does. *)
Theorem fraud_flag_needs_two_rules df threshold extra i r :
  rows df !! i = Some r →
  let suspicious := suspicious_domains extra in
  let hv := high_value_rule threshold r in
  let cm := country_mismatch_rule r in
  let de := disposable_email_rule suspicious r in
  let mi := missing_identity_rule r in
  ∃ r' score,
    rows (flag_fraud df threshold extra) !! i = Some r'
    ∧ get r' "fraud_score" = VInt score
    ∧ 0 ≤ score ≤ 9
    ∧ get r' "fraud_flag" = VBool ((hv && de) || ((hv || de) && (cm || mi))).
Proof.
  intros Hr suspicious hv cm de mi.
  eexists _, (fraud_score threshold suspicious r).
  split; [by apply rows_flag_fraud_lookup|]. simpl.
  destruct (get_scored r (VInt (fraud_score threshold (suspicious_domains extra) r))
              (VBool (bool_decide (4 ≤ fraud_score threshold (suspicious_domains extra) r))))
    as [-> ->].
  split; [done|]. unfold suspicious. rewrite fraud_score_sum.
  fold suspicious hv cm de mi.
  destruct hv, cm, de, mi; simpl; (split; [lia|]); f_equal;
    by (apply bool_decide_eq_true_2 || apply bool_decide_eq_false_2).
Qed.

(** X7.  Stricter settings never lower a score: under a lower threshold
    and a larger list of suspicious domains every record scores at least
    what it scored before, and every record that was flagged stays
    flagged. *)
Theorem flag_fraud_monotone df threshold threshold' extra extra' i r1 :
  (threshold' ≤ threshold)%Qc →
  extra ⊆ extra' →
  rows (flag_fraud df threshold extra) !! i = Some r1 →
  ∃ r2 score1 score2,
    rows (flag_fraud df threshold' extra') !! i = Some r2
    ∧ get r1 "fraud_score" = VInt score1
    ∧ get r2 "fraud_score" = VInt score2
    ∧ score1 ≤ score2
    ∧ (get r1 "fraud_flag" = VBool true → get r2 "fraud_flag" = VBool true).
Proof.
  intros Ht Hsub. rewrite rows_flag_fraud, list_lookup_fmap.
  destruct (rows df !! i) as [r|] eqn:Hr; [|done]. simpl. intros [= <-].
  pose proof (fraud_score_mono _ _ _ _ r Ht Hsub) as Hle.
  eexists _, _, _. split; [by apply rows_flag_fraud_lookup|]. simpl.
  split; [apply get_scored|]. split; [apply get_scored|]. split; [done|].
  rewrite !(proj2 (get_scored _ _ _)). intros [= H4]. f_equal.
  apply bool_decide_eq_true in H4. apply bool_decide_eq_true_2. lia.
Qed.

Lemma frame_eq (a b : DataFrame) : columns a = columns b → rows a = rows b → a = b.
Proof. destruct a, b; simpl; by intros -> ->. Qed.

Lemma columns_set_column_eq df c vals :
  columns (set_column df c vals)
  = if bool_decide (c ∈ columns df) then columns df else columns df ++ [c].
Proof. done. Qed.

Lemma columns_set_column df c vals :
  c ∈ columns (set_column df c vals)
  ∧ (∀ c', c' ∈ columns df → c' ∈ columns (set_column df c vals))
  ∧ (c ∈ columns df → columns (set_column df c vals) = columns df).
Proof.
  unfold set_column, has_col. simpl. case_bool_decide as Hc.
  - split; [done|]. split; [done|done].
  - split; [apply elem_of_app; right; left|].
    split; [intros c' Hc'; apply elem_of_app; by left|done].
Qed.

(** X8.  [flag_fraud] writes the columns [fraud_score] and [fraud_flag]
    and nothing else: the number of rows and every other column are those
    of the input.  It does not read what it writes: scoring a batch that
    was scored before, under any settings, gives the same frame as scoring
    the original batch. *)
Theorem flag_fraud_rescore df threshold extra threshold' extra' :
  List.length (rows (flag_fraud df threshold extra)) = List.length (rows df)
  ∧ (∀ c, c ≠ "fraud_score" → c ≠ "fraud_flag" →
          column (flag_fraud df threshold extra) c = column df c)
  ∧ flag_fraud (flag_fraud df threshold extra) threshold' extra'
    = flag_fraud df threshold' extra'.
Proof.
  split; [by rewrite rows_flag_fraud, length_fmap|].
  split; [intros c; apply column_flag_fraud|].
  apply frame_eq.
  - assert (∀ d t e, "fraud_score" ∈ columns d → "fraud_flag" ∈ columns d →
                     columns (flag_fraud d t e) = columns d) as Hsame.
    { intros d t e Hfs Hff. unfold flag_fraud.
      rewrite (proj2 (proj2 (columns_set_column _ _ _)));
        by rewrite (proj2 (proj2 (columns_set_column _ _ _))). }
    rewrite Hsame.
    + unfold flag_fraud. by rewrite !columns_set_column_eq.
    + unfold flag_fraud.
      apply (proj1 (proj2 (columns_set_column _ _ _))), (proj1 (columns_set_column _ _ _)).
    + unfold flag_fraud. apply (proj1 (columns_set_column _ _ _)).
  - rewrite !rows_flag_fraud, <-list_fmap_compose. apply list_fmap_ext.
    intros i r _. unfold compose. cbv beta zeta. rewrite fraud_score_scored.
    apply map_eq. intros k.
    destruct (decide (k = "fraud_flag")) as [->|Hff]; [by rewrite !lookup_insert_eq|].
    rewrite !(lookup_insert_ne _ "fraud_flag") by done.
    destruct (decide (k = "fraud_score")) as [->|Hfs]; [by rewrite !lookup_insert_eq|].
    by rewrite !lookup_insert_ne by done.
Qed.

(** ** Validation: what follows a well-formed address *)



(** ** Currency normalisation: fetched rates, and how an amount is read *)

Lemma Qc_mult_1 (x : Qc) : (x * Qc1 = x)%Qc.
Proof.
  assert (Qc1 = 1%Qc) as -> by (by apply Qc_is_canon). ring.
Qed.

Lemma lookup_fetched_rates (g : Qc → Qc) (rates : list (string * Qc)) cur :
  (list_to_map ((λ '(c, r), (c, g r)) <$> rates) : gmap string Qc) !! cur
  = g <$> (list_to_map rates : gmap string Qc) !! cur.
Proof.
  induction rates as [|[c r] rates IH]; simpl; [by rewrite !lookup_empty|].
  destruct (decide (c = cur)) as [->|Hne].
  - by rewrite !lookup_insert_eq.
  - by rewrite !lookup_insert_ne.
Qed.

Lemma get_insert_eq (r : row) k v : get (<[k := v]> r) k = v.
Proof. unfold get. by rewrite lookup_insert_eq. Qed.

Lemma rows_set_column_lookup df c (f : row → value) i r :
  rows df !! i = Some r →
  rows (set_column df c (f <$> rows df)) !! i = Some (<[c := f r]> r).
Proof.
  unfold set_column. simpl. revert i.
  induction (rows df) as [|r0 l IH]; intros [|i]; simpl; try done.
  - by intros [= ->].
  - apply IH.
Qed.

(** X10.  With no rate map and a currency column the rates come from the
    FX service.  When the fetch fails every amount is written unconverted.
    When it succeeds, an amount in the target currency is written
    unchanged, an amount in a quoted currency is multiplied by [1 / rate]
    (by 1 when the quoted rate is 0), and an amount whose currency is not
    quoted, or is no str, is written unchanged. *)
Theorem normalize_currency_fetched_rates df amount_col c target_currency :
  has_col df amount_col = true →
  c ≠ "" →
  has_col df c = true →
  ∃ out,
    normalize_currency df amount_col (Some c) ∅ target_currency = Some out
    ∧ ∀ i r, rows df !! i = Some r →
        ∃ r', rows out !! i = Some r'
          ∧ let cell := get r' (amount_col +:+ "_normalized") in
            let parsed := parse_amount (get r amount_col) in
            (fx_latest target_currency = None → cell = float_cell parsed)
            ∧ (is_str (get r c) = false → cell = float_cell parsed)
            ∧ ∀ rates cur,
                fx_latest target_currency = Some rates →
                get r c = VStr cur →
                (cur = target_currency → cell = float_cell parsed)
                ∧ (cur ≠ target_currency →
                   (list_to_map rates : gmap string Qc) !! cur = None →
                   cell = float_cell parsed)
                ∧ (∀ q, cur ≠ target_currency →
                     (list_to_map rates : gmap string Qc) !! cur = Some q →
                     cell = float_cell
                              ((λ a, a * (if bool_decide (q = Qc0) then Qc1
                                          else Qc1 / q))%Qc <$> parsed)).
Proof.
  intros Hamount Hc Hcol. unfold normalize_currency.
  rewrite Hamount. simpl. rewrite Hcol, (bool_decide_eq_false_2 (c = "")) by done. simpl.
  eexists. split; [done|]. intros i r Hr.
  rewrite <-list_fmap_compose.
  eexists. split; [by apply rows_set_column_lookup|]. simpl.
  rewrite get_insert_eq.
  unfold to_target, effective_rate_map, optional_col.
  rewrite Hcol, (bool_decide_eq_false_2 (c = "")) by done. simpl.
  rewrite (bool_decide_eq_true_2 (∅ = ∅)) by done. simpl.
  unfold fetched_rate_map.
  destruct (parse_amount (get r amount_col)) as [a|]; simpl; [|done].
  split; [|split].
  - intros ->. destruct (get r c); simpl; by rewrite ?lookup_empty, Qc_mult_1.
  - intros Hstr. destruct (get r c); simpl in *; try done; by rewrite Qc_mult_1.
  - intros rates cur -> ->. simpl. split; [|split].
    + intros ->. by rewrite lookup_insert_eq, Qc_mult_1.
    + intros Hne Hnone. rewrite lookup_insert_ne by done.
      rewrite (lookup_fetched_rates (λ r, if bool_decide (r = Qc0) then Qc1 else (Qc1 / r)%Qc)).
      rewrite Hnone. simpl. by rewrite Qc_mult_1.
    + intros q Hne Hq. rewrite lookup_insert_ne by done.
      rewrite (lookup_fetched_rates (λ r, if bool_decide (r = Qc0) then Qc1 else (Qc1 / r)%Qc)).
      by rewrite Hq.
Qed.

Lemma filter_string_app p (a b : string) :
  filter_string p (a +:+ b) = filter_string p a +:+ filter_string p b.
Proof.
  induction a as [|x a IH]; simpl; [done|]. destruct (p x); simpl; by rewrite IH.
Qed.

Lemma filter_string_filter p q s :
  (∀ a, p a = true → q a = true) →
  filter_string p (filter_string q s) = filter_string p s.
Proof.
  intros Hpq. induction s as [|a s IH]; simpl; [done|].
  destruct (q a) eqn:Hq; simpl.
  - destruct (p a); by rewrite IH.
  - destruct (p a) eqn:Hp; [|done]. by rewrite (Hpq _ Hp) in Hq.
Qed.

Lemma is_digit_currency_char a : is_digit a = true → currency_char a = true.
Proof. unfold currency_char. by intros ->. Qed.

Lemma is_digit_not_dot a : is_digit a = true → a ≠ dot.
Proof. by intros Ha ->. Qed.

Lemma after_dot_digits (u : string) w :
  string_forallb is_digit u = true → after_dot (u +:+ String dot w) = w.
Proof.
  induction u as [|a u IH]; simpl.
  - done.
  - intros [Ha Hu]%andb_true_iff.
    rewrite bool_decide_eq_false_2 by (by apply is_digit_not_dot). by apply IH.
Qed.

Lemma after_dot_none (u : string) :
  string_forallb is_digit u = true → after_dot u = "".
Proof.
  induction u as [|a u IH]; simpl; [done|].
  intros [Ha Hu]%andb_true_iff.
  rewrite bool_decide_eq_false_2 by (by apply is_digit_not_dot). by apply IH.
Qed.

Lemma count_char_app c (a b : string) :
  count_char c (a +:+ b) = (count_char c a + count_char c b)%nat.
Proof. induction a as [|x a IH]; simpl; [done|]. rewrite IH. lia. Qed.

Lemma count_dot_digits (u : string) :
  string_forallb is_digit u = true → count_char dot u = 0%nat.
Proof.
  induction u as [|a u IH]; simpl; [done|].
  intros [Ha Hu]%andb_true_iff.
  rewrite bool_decide_eq_false_2 by (by apply is_digit_not_dot). by rewrite IH.
Qed.

Lemma after_dot_shape (u w : string) (point : bool) :
  string_forallb is_digit u = true → string_forallb is_digit w = true →
  (point = false → w = "") →
  after_dot (u +:+ (if point then String dot w else w)) = w
  ∧ (count_char dot (u +:+ (if point then String dot w else w)) ≤ 1)%nat.
Proof.
  intros Hu Hw Hpoint. destruct point.
  - split; [by apply after_dot_digits|].
    rewrite count_char_app, count_dot_digits by done. simpl.
    rewrite count_dot_digits by done. lia.
  - rewrite (Hpoint eq_refl), append_empty_r.
    split; [by apply after_dot_none|]. rewrite count_dot_digits by done. lia.
Qed.

(** What [float] accepts over the alphabet [0-9.-]: digits, with at most
    one point among them and at least one digit in all. *)
Lemma float_of_plain_some body q :
  float_of_plain body = Some q →
  ∃ (u w : string) (point : bool),
    (if starts_with_minus body then body = String "-" (u +:+ (if point then String dot w else w))
     else body = u +:+ (if point then String dot w else w))
    ∧ string_forallb is_digit u = true ∧ string_forallb is_digit w = true
    ∧ (point = false → w = "") ∧ u +:+ w ≠ ""
    ∧ q = let m := (Qc_of_Z (digits_value 0 (u +:+ w))
                    / Qc_of_Z (10 ^ Z.of_nat (String.length w)))%Qc in
          if starts_with_minus body then (- m)%Qc else m.
Proof.
  unfold float_of_plain.
  set (split := match body with
                | String a t => if bool_decide (a = "-"%char) then (true, t) else (false, body)
                | EmptyString => (false, body)
                end).
  assert (split.1 = starts_with_minus body
          ∧ body = (if split.1 then String "-" split.2 else split.2)) as [Hneg Hbody].
  { unfold split. destruct body as [|a t]; simpl; [done|].
    case_bool_decide as Ha; simpl; [by rewrite Ha|done]. }
  destruct split as [negative rest0]. simpl in Hneg, Hbody. subst negative.
  destruct (span is_digit rest0) as [u rest] eqn:Hspan.
  apply span_spec in Hspan as (Hrest0 & Hu & Hstop).
  intros Hq.
  assert (∀ (point : bool) w,
            rest = (if point then String dot w else w) →
            string_forallb is_digit w = true → (point = false → w = "") →
            (if bool_decide (u = "") && bool_decide (w = "") then None
             else Some (if starts_with_minus body
                        then (- (Qc_of_Z (digits_value 0 (u +:+ w))
                                 / Qc_of_Z (10 ^ Z.of_nat (String.length w))))%Qc
                        else (Qc_of_Z (digits_value 0 (u +:+ w))
                              / Qc_of_Z (10 ^ Z.of_nat (String.length w)))%Qc)) = Some q →
            ∃ (u w : string) (point : bool),
              (if starts_with_minus body
               then body = String "-" (u +:+ (if point then String dot w else w))
               else body = u +:+ (if point then String dot w else w))
              ∧ string_forallb is_digit u = true ∧ string_forallb is_digit w = true
              ∧ (point = false → w = "") ∧ u +:+ w ≠ ""
              ∧ q = let m := (Qc_of_Z (digits_value 0 (u +:+ w))
                              / Qc_of_Z (10 ^ Z.of_nat (String.length w)))%Qc in
                    if starts_with_minus body then (- m)%Qc else m) as Hcase.
  { intros point w Hrest Hw Hpoint Hres. exists u, w, point.
    split; [|split; [done|split; [done|split; [done|]]]].
    - rewrite <-Hrest, <-Hrest0. by destruct (starts_with_minus body).
    - destruct (bool_decide (u = "") && bool_decide (w = "")) eqn:Hempty; [done|].
      split; [|by injection Hres as <-].
      intros Huw. apply andb_false_iff in Hempty as [He|He];
        apply bool_decide_eq_false in He; apply He;
        destruct u, w; simpl in Huw; done. }
  destruct rest as [|a t].
  - apply (Hcase false ""); done.
  - destruct (bool_decide (a = dot) && string_forallb is_digit t) eqn:Hfrac; [|done].
    apply andb_true_iff in Hfrac as [->%bool_decide_eq_true Ht].
    by apply (Hcase true t).
Qed.

(** X11.  A str amount that parses is read from its digits alone: the
    result is the number spelled by all digits of the text, in order,
    divided by ten to the number of digits after the point, and negated
    when the first character left after stripping is a minus sign.  The
    stripped text holds at least one digit and at most one point; every
    other character (a currency sign, a grouping comma, white space, an
    exponent letter, a plus sign, brackets) only drops out. *)
Theorem parse_amount_reads_digits s q :
  parse_amount (VStr s) = Some q →
  let kept := filter_string currency_char s in
  let digits := filter_string is_digit s in
  let magnitude :=
    (Qc_of_Z (digits_value 0 digits)
     / Qc_of_Z (10 ^ Z.of_nat (String.length (after_dot kept))))%Qc in
  digits ≠ ""
  ∧ (count_char dot kept ≤ 1)%nat
  ∧ q = if starts_with_minus kept then (- magnitude)%Qc else magnitude.
Proof.
  intros Hq kept digits magnitude. simpl in Hq. fold kept in Hq.
  case_bool_decide as Hkept; [done|].
  apply float_of_plain_some in Hq as (u & w & point & Hshape & Hu & Hw & Hpoint & Hne & ->).
  assert (digits = filter_string is_digit kept) as Hdigits.
  { unfold digits, kept. symmetry.
    apply filter_string_filter, is_digit_currency_char. }
  assert (kept = (if starts_with_minus kept then "-" else "")
                 +:+ (u +:+ (if point then String dot w else w))) as Hk.
  { by destruct (starts_with_minus kept). }
  assert (filter_string is_digit kept = u +:+ w) as Hfilter.
  { rewrite Hk, !filter_string_app.
    replace (filter_string is_digit (if starts_with_minus kept then "-" else "")) with ""
      by (by destruct (starts_with_minus kept)).
    simpl. rewrite (filter_string_id _ u) by done. f_equal.
    destruct point; simpl; by rewrite filter_string_id. }
  assert (after_dot kept = w ∧ (count_char dot kept ≤ 1)%nat) as [Hafter Hcount].
  { rewrite Hk. destruct (starts_with_minus kept); simpl; by apply after_dot_shape. }
  split; [by rewrite Hdigits, Hfilter|]. split; [done|].
  unfold magnitude. by rewrite Hdigits, Hfilter, Hafter.
Qed.

(** ** Customer lifetime value: nothing is counted twice, nothing is lost *)

Section group_sums.

Context {A : Type} (add : A → A → A) (zero : A).
Hypothesis add_assoc : ∀ x y z, add x (add y z) = add (add x y) z.
Hypothesis add_comm : ∀ x y, add x y = add y x.
Hypothesis add_zero_l : ∀ x, add zero x = x.

Lemma total_add {K} (f g : K → A) (l : list K) :
  foldr add zero ((λ k, add (f k) (g k)) <$> l)
  = add (foldr add zero (f <$> l)) (foldr add zero (g <$> l)).
Proof using add_assoc add_comm add_zero_l.
  induction l as [|k l IH]; csimpl; [by rewrite add_zero_l|].
  rewrite IH, !add_assoc. f_equal.
  rewrite <-!add_assoc. f_equal. apply add_comm.
Qed.

Lemma total_if_none {K} (p : K → bool) (x : A) (l : list K) :
  (∀ k, k ∈ l → p k = false) →
  foldr add zero ((λ k, if p k then x else zero) <$> l) = zero.
Proof using add_zero_l.
  induction l as [|k l IH]; csimpl; [done|]. intros Hall.
  rewrite (Hall k) by left. rewrite add_zero_l. apply IH. intros k' Hk'. apply Hall. by right.
Qed.

Lemma total_if_one {K} (p : K → bool) (x : A) (l : list K) :
  List.length (filter (λ k, Is_true (p k)) l) = 1%nat →
  foldr add zero ((λ k, if p k then x else zero) <$> l) = x.
Proof using add_comm add_zero_l.
  induction l as [|k l IH]; csimpl; [done|].
  rewrite filter_cons. destruct (p k) eqn:Hk.
  - rewrite decide_True by exact I. simpl. intros [= Hlen].
    rewrite total_if_none; [by rewrite add_comm, add_zero_l|].
    intros k' Hk'. destruct (p k') eqn:Hpk'; [|done].
    assert (k' ∈ filter (λ k, Is_true (p k)) l) as Hin
      by (apply list_elem_of_filter; split; [by rewrite Hpk'|done]).
    apply length_zero_iff_nil in Hlen. rewrite Hlen in Hin. by apply elem_of_nil in Hin.
  - rewrite decide_False by (by intros []). intros Hlen. by rewrite add_zero_l, IH.
Qed.

(** Summing group by group is summing over the rows that have a key, when
    every such row falls in exactly one group. *)
Lemma group_totals c (w : row → A) (keys : list value) (l : list row) :
  (∀ k, k ∈ keys → isna k = false) →
  (∀ r, r ∈ l → isna (get r c) = false → count_eq (get r c) keys = 1%nat) →
  foldr add zero
    ((λ key, foldr add zero (w <$> filter (λ r, Is_true (py_eq (get r c) key)) l)) <$> keys)
  = foldr add zero (w <$> filter (λ r, Is_true (negb (isna (get r c)))) l).
Proof using add_assoc add_comm add_zero_l.
  intros Hkeys. induction l as [|r l IH]; intros Hone.
  - simpl. apply (total_if_none (λ _, false) zero). done.
  - assert (∀ key, foldr add zero (w <$> filter (λ r, Is_true (py_eq (get r c) key)) (r :: l))
                   = add (if py_eq (get r c) key then w r else zero)
                         (foldr add zero
                            (w <$> filter (λ r, Is_true (py_eq (get r c) key)) l))) as Hstep.
    { intros key. rewrite filter_cons. destruct (py_eq (get r c) key) eqn:Heq.
      - by rewrite decide_True by exact I.
      - rewrite decide_False by (by intros []). by rewrite add_zero_l. }
    assert ((λ key, foldr add zero
                      (w <$> filter (λ r, Is_true (py_eq (get r c) key)) (r :: l))) <$> keys
            = (λ key, add (if py_eq (get r c) key then w r else zero)
                          (foldr add zero
                             (w <$> filter (λ r, Is_true (py_eq (get r c) key)) l))) <$> keys)
      as -> by (apply list_fmap_ext; intros i key _; apply Hstep).
    rewrite (total_add (λ key, if py_eq (get r c) key then w r else zero)).
    rewrite IH by (intros r' Hr'; apply Hone; by right).
    rewrite filter_cons. destruct (isna (get r c)) eqn:Hna; simpl.
    + rewrite total_if_none; [by rewrite add_zero_l|].
      intros k Hk. specialize (Hkeys k Hk).
      destruct (get r c), k; simpl in *; done.
    + csimpl. f_equal.
      apply (total_if_one (λ key, py_eq (get r c) key)).
      rewrite <-(Hone r) by (done || left). unfold count_eq.
      f_equal. apply list_filter_iff. intros k. by rewrite py_eq_sym.
Qed.

End group_sums.

Lemma sum_Z_ones {A} (l : list A) : sum_Z ((λ _, 1) <$> l) = Z.of_nat (List.length l).
Proof.
  unfold sum_Z. induction l as [|x l IH]; csimpl; [done|]. rewrite IH. lia.
Qed.

(** X12.  The rows [calculate_clv] returns partition the orders that name
    a customer: the [clv] values add up to the sum of the order totals of
    those orders (a null or unparseable total counting as 0), and the
    [total_orders] values add up to their number.  Orders whose customer
    key is null take part in neither. *)
Theorem calculate_clv_conserves now df customer_id_col order_total_col out :
  calculate_clv now df customer_id_col order_total_col = Some out →
  let orders := orders_with_customer df customer_id_col in
  sum_Qc (clv <$> out) = sum_Qc ((λ r, cell_or Qc0 r order_total_col) <$> orders)
  ∧ sum_Z (total_orders <$> out) = Z.of_nat (List.length orders).
Proof.
  unfold calculate_clv.
  destruct (has_col df order_total_col); [|done].
  destruct (has_col df "order_date"); [|done].
  destruct (has_col df customer_id_col); [|done]. simpl.
  intros [= <-]. unfold orders_with_customer.
  set (keys := group_keys (column df customer_id_col)).
  assert (∀ k, k ∈ keys → isna k = false) as Hkeys.
  { intros k Hk. unfold keys in Hk. rewrite group_keys_perm in Hk.
    by apply elem_of_distinct_keys in Hk as [_ ?]. }
  assert (∀ r, r ∈ rows df → isna (get r customer_id_col) = false →
               count_eq (get r customer_id_col) keys = 1%nat) as Hone.
  { intros r Hr Hna. apply count_eq_group_keys; [done|].
    unfold column. apply list_elem_of_fmap. by exists r. }
  rewrite <-!list_fmap_compose. split.
  - rewrite <-(group_totals Qcplus Qc0) with (keys := keys); try done.
    + unfold sum_Qc. f_equal. apply list_fmap_ext. intros i key _. simpl.
      by rewrite group_members_rows, members_totals.
    + intros x y z. ring.
    + intros x y. ring.
    + intros x. rewrite Qc0_zero. ring.
  - rewrite <-sum_Z_ones. unfold sum_Z.
    rewrite <-(group_totals Z.add 0) with (keys := keys); try done; try (intros; lia).
    f_equal. apply list_fmap_ext. intros i key _. simpl.
    rewrite group_members_rows, length_fmap. apply (eq_sym (sum_Z_ones _)).
Qed.

(** ** Imputation: what happens to the cells that are not null *)

Lemma fill_with_keeps {A} (null : A → bool) val cells j c :
  cells !! j = Some c → null c = false → fill_with null val cells !! j = Some c.
Proof.
  intros Hj Hc. unfold fill_with. by rewrite list_lookup_fmap, Hj; simpl; rewrite Hc.
Qed.

Lemma ffill_from_keeps {A} (null : A → bool) last cells j c :
  cells !! j = Some c → null c = false → ffill_from null last cells !! j = Some c.
Proof.
  revert last j. induction cells as [|x cells IH]; intros last [|j]; simpl; try done.
  - intros [= ->] ->. done.
  - intros Hj Hc. destruct (null x); simpl; by apply IH.
Qed.

Lemma bfill_keeps {A} (null : A → bool) cells j c :
  cells !! j = Some c → null c = false → bfill null cells !! j = Some c.
Proof.
  revert j. induction cells as [|x cells IH]; intros [|j]; simpl; try done.
  - intros [= ->] ->. done.
  - apply IH.
Qed.

Lemma fill_method_keeps {A} method (null : A → bool) cells j c :
  cells !! j = Some c → null c = false → fill_method method null cells !! j = Some c.
Proof.
  intros Hj Hc. unfold fill_method, ffill.
  case_bool_decide; [by apply ffill_from_keeps|by apply bfill_keeps].
Qed.

Lemma impute_numeric_keeps strategy cells j q :
  cells !! j = Some (Some q) → impute_numeric strategy cells !! j = Some (Some q).
Proof.
  intros Hj. unfold impute_numeric.
  repeat case_bool_decide; by (apply fill_with_keeps || apply fill_method_keeps).
Qed.

Lemma impute_datetime_keeps strategy cells j (t : Z) :
  cells !! j = Some (Some t) → impute_datetime strategy cells !! j = Some (Some t).
Proof.
  intros Hj. unfold impute_datetime.
  repeat case_bool_decide; try done; by (apply fill_with_keeps || apply fill_method_keeps).
Qed.

Lemma impute_categorical_keeps strategy cells j v :
  cells !! j = Some v → isna v = false → impute_categorical strategy cells !! j = Some v.
Proof.
  intros Hj Hv. unfold impute_categorical.
  repeat case_bool_decide; by (apply fill_with_keeps || apply fill_method_keeps).
Qed.

Lemma impute_by_strategy_keeps ns cs ds col :
  keeps_cells col (impute_by_strategy ns cs ds col).
Proof.
  destruct col as [cells|cells|cells]; simpl.
  - intros j q. apply impute_numeric_keeps.
  - intros j t. apply impute_datetime_keeps.
  - destruct (looks_like_datetime_series cells) eqn:Hlooks; simpl; (split; [done|]).
    + intros j v t Hj Ht. apply impute_datetime_keeps.
      by rewrite list_lookup_fmap, Hj; simpl; rewrite Ht.
    + intros j v. apply impute_categorical_keeps.
Qed.

(** Without explicit fill values every column goes through its strategy. *)
Lemma impute_missing_by_strategy df ns cs ds :
  impute_missing df ns cs ds ∅
  = Some ((λ '(name, col), (name, impute_by_strategy ns cs ds col)) <$> df).
Proof.
  unfold impute_missing. apply mapM_Some, Forall2_fmap_r, Forall_Forall2_diag.
  apply Forall_forall. intros [name col] _. unfold impute_column. by rewrite lookup_empty.
Qed.

(** X13.  Imputation (without explicit fill values) never raises, keeps
    the columns with their names and order, and never touches a cell that
    is not null: in a numeric, datetime or categorical column every
    non-null cell stands unchanged at its place, whatever the strategies.
    The one change of kind is a text column that looks like dates: it is
    replaced by its parsed dates, so text that does not parse is lost --
    under [epoch] it becomes the epoch, and under a datetime strategy other
    than [ffill], [bfill] and [epoch] the column is just the parsed one,
    null wherever the text did not parse. *)
Theorem impute_missing_keeps_cells df numeric_strategy categorical_strategy
    datetime_strategy :
  ∃ out,
    impute_missing df numeric_strategy categorical_strategy datetime_strategy ∅ = Some out
    ∧ out.*1 = df.*1
    ∧ ∀ i name col, df !! i = Some (name, col) →
        ∃ col', out !! i = Some (name, col')
          ∧ keeps_cells col col'
          ∧ ∀ cells, col = ObjectCol cells → looks_like_datetime_series cells = true →
              (datetime_strategy = "epoch" →
               col' = DatetimeCol ((λ v, Some (default 0 (to_datetime v))) <$> cells))
              ∧ (datetime_strategy ∉ ["ffill"; "bfill"; "epoch"] →
                 col' = DatetimeCol (to_datetime <$> cells)).
Proof.
  eexists. split; [apply impute_missing_by_strategy|]. split.
  - rewrite <-list_fmap_compose. apply list_fmap_ext. by intros i [name col] _.
  - intros i name col Hi. eexists. rewrite list_lookup_fmap, Hi. simpl.
    split; [done|]. split; [apply impute_by_strategy_keeps|].
    intros cells -> Hlooks. simpl. rewrite Hlooks. unfold impute_datetime. split.
    + intros ->. simpl. f_equal. unfold fill_with. rewrite <-list_fmap_compose.
      apply list_fmap_ext. intros j v _. simpl. by destruct (to_datetime v).
    + intros Hds. rewrite bool_decide_eq_false_2.
      * rewrite bool_decide_eq_false_2; [done|]. intros ->. apply Hds.
        by repeat constructor.
      * intros Hin. apply Hds. apply elem_of_cons in Hin as [->|Hin]; [by left|].
        apply list_elem_of_singleton in Hin as ->. by right; left.
Qed.

Lemma present_cells_all cells : Forall (λ c, isna c = false) (present_cells cells).
Proof.
  apply Forall_forall. intros c [Hc _]%list_elem_of_filter.
  by destruct (isna c).
Qed.

Lemma present_cells_id cells :
  Forall (λ c, isna c = false) cells → present_cells cells = cells.
Proof.
  unfold present_cells. induction 1 as [|c cells Hc _ IH]; [done|].
  rewrite filter_cons, decide_True by (by rewrite Hc). by rewrite IH.
Qed.

Lemma filter_length_pos {A} (p : A → bool) (l : list A) :
  (1 ≤ List.length (filter (λ x, Is_true (p x)) l))%nat ↔ ∃ x, x ∈ l ∧ p x = true.
Proof.
  split.
  - destruct (filter (λ x, Is_true (p x)) l) as [|x l'] eqn:Hf; simpl; [lia|]. intros _.
    assert (x ∈ filter (λ x, Is_true (p x)) l) as Hx by (rewrite Hf; left).
    apply list_elem_of_filter in Hx as [Hpx Hx]. exists x. split; [done|].
    by destruct (p x).
  - intros (x & Hx & Hpx).
    assert (x ∈ filter (λ x, Is_true (p x)) l) as Hin
      by (apply list_elem_of_filter; split; [by rewrite Hpx|done]).
    destruct (filter (λ x, Is_true (p x)) l); [by apply elem_of_nil in Hin|simpl; lia].
Qed.

Lemma looks_like_datetime_series_unfold cells :
  looks_like_datetime_series cells =
    let sample := take 20 (present_cells cells) in
    if bool_decide (sample = []) then false
    else bool_decide (Nat.max 1 (List.length sample / 4)
                      ≤ List.length (filter (λ v, Is_true (has_date_mark v)) sample))%nat.
Proof.
  unfold looks_like_datetime_series, present_cells. cbv zeta.
  rewrite <-fmap_take.
  generalize (take 20 (filter (λ c, Is_true (negb (isna c))) cells)). intros sample.
  destruct sample as [|v sample]; [done|].
  rewrite (bool_decide_eq_false_2 (py_str <$> v :: sample = [])) by done.
  rewrite (bool_decide_eq_false_2 (v :: sample = [])) by done.
  rewrite length_fmap.
  by rewrite (filter_fmap_length
                (string_existsb (λ a, bool_decide (a ∈ ["-"%char; ":"%char; "T"%char])))).
Qed.

(** X14.  Whether a text column counts as dates is decided by its first
    twenty non-null cells alone.  A column without a non-null cell never
    counts; a column that counts holds a marked cell (one whose text has
    [-], [:] or [T]) among them; and with fewer than eight non-null cells
    one marked cell is enough. *)
Theorem looks_like_datetime_series_sample cells :
  let present := present_cells cells in
  looks_like_datetime_series cells = looks_like_datetime_series (take 20 present)
  ∧ (present = [] → looks_like_datetime_series cells = false)
  ∧ (looks_like_datetime_series cells = true →
     ∃ v, v ∈ take 20 present ∧ has_date_mark v = true)
  ∧ ((List.length present < 8)%nat →
     (looks_like_datetime_series cells = true ↔
      ∃ v, v ∈ present ∧ has_date_mark v = true)).
Proof.
  intros present. rewrite !looks_like_datetime_series_unfold. fold present. cbv zeta.
  split; [|split; [|split]].
  - rewrite present_cells_id.
    + by rewrite take_take, Nat.min_id.
    + apply Forall_take, present_cells_all.
  - by intros ->.
  - case_bool_decide; [done|]. rewrite bool_decide_eq_true. intros Hle.
    apply filter_length_pos. lia.
  - intros Hlen. rewrite take_ge by lia.
    case_bool_decide as Hempty.
    + split; [done|]. rewrite Hempty. by intros (v & ?%elem_of_nil & _).
    + rewrite bool_decide_eq_true, <-filter_length_pos.
      assert (List.length present / 4 < 2)%nat
        by (apply Nat.Div0.div_lt_upper_bound; lia).
      split; lia.
Qed.

(** ** The stage pipeline: when it fails, what it leaves alone *)



(** ** The list-level validators *)

Lemma raise_if_issues_returned issues name :
  raise_if_issues issues name = Returned ↔ ∀ ident iss, (ident, iss) ∈ issues → iss = [].
Proof.
  unfold raise_if_issues. case_bool_decide as Hbad; split; try done.
  - intros _ ident iss Hin. destruct iss as [|x iss]; [done|].
    assert ((ident, x :: iss) ∈ filter (λ i, i.2 ≠ []) issues) as Hf
      by (by apply list_elem_of_filter).
    rewrite Hbad in Hf. by apply elem_of_nil in Hf.
  - intros Hall. exfalso. apply Hbad.
    destruct (filter (λ i, i.2 ≠ []) issues) as [|[ident iss] l] eqn:Hf; [done|].
    assert ((ident, iss) ∈ filter (λ i, i.2 ≠ []) issues) as Hin by (rewrite Hf; left).
    apply list_elem_of_filter in Hin as [Hne Hin]. by destruct (Hne (Hall _ _ Hin)).
Qed.









(** X19.  Raising on the issues of [validate_transactions_list] accepts a
    batch exactly when every transaction has a truthy [transaction_id] and
    an amount that is truthy or is the number 0: a zero amount passes, a
    zero identifier does not. *)
Theorem raise_if_issues_transactions transactions name :
  raise_if_issues (validate_transactions_list transactions) name = Returned ↔
  ∀ t, t ∈ transactions → truthy (get t "transaction_id") = true ∧ amount_given t.
Proof.
  rewrite raise_if_issues_returned. unfold validate_transactions_list, amount_given.
  setoid_rewrite elem_of_lookup_imap.
  assert (∀ t,
            (if negb (truthy (get t "amount")) && py_ne (get t "amount") (VInt 0)
             then (if negb (truthy (get t "transaction_id"))
                   then ["missing_transaction_id"] else []) ++ ["missing_amount"]
             else if negb (truthy (get t "transaction_id"))
                  then ["missing_transaction_id"] else []) = []
            ↔ truthy (get t "transaction_id") = true
              ∧ (truthy (get t "amount") = true ∨ num_of (get t "amount") = Some Qc0))
    as Hbody.
  { intros t. destruct (truthy (get t "transaction_id")); simpl.
    - destruct (truthy (get t "amount")) eqn:Ha; simpl; [split; auto|].
      destruct (py_ne (get t "amount") (VInt 0)) eqn:Hne.
      + split; [done|]. intros [_ [?|Hz]]; [done|].
        apply py_ne_zero in Hne. done.
      + split; [|done]. intros _. split; [done|]. right.
        destruct (decide (num_of (get t "amount") = Some Qc0)) as [?|Hn]; [done|].
        apply py_ne_zero in Hn. congruence.
    - split; [|by intros [? _]].
      by destruct (negb (truthy (get t "amount")) && py_ne (get t "amount") (VInt 0)). }
  split.
  - intros Hall t [idx Ht]%list_elem_of_lookup. apply Hbody.
    by apply (Hall _ _ (ex_intro _ idx (ex_intro _ t (conj eq_refl Ht)))).
  - intros Hall ident iss (idx & t & [= -> ->] & Ht). apply Hbody, Hall.
    by eapply list_elem_of_lookup_2.
Qed.

(** ** The schema normaliser *)

Lemma mapM_None_elem {A B} (f : A → option B) l :
  mapM f l = None ↔ ∃ x, x ∈ l ∧ f x = None.
Proof. by rewrite mapM_None, Exists_exists. Qed.

Lemma parse_stripe_item_some it :
  is_Some (parse_stripe_item it) ↔ charge_well_formed it.
Proof.
  unfold charge_well_formed. destruct it as [| | | | | | |fields]; simpl;
    try (split; [by intros [? ?]|by intros (? & ? & _)]).
  destruct (field fields "metadata") as [m|] eqn:Hm; simpl.
  - destruct m; simpl;
      try (split; [by intros [? ?]|intros (? & [= <-] & [?|[? ?]]); congruence]).
    split; [|by eexists]. intros _. exists fields. split; [done|]. right. by eexists.
  - split; [|by eexists]. intros _. exists fields. split; [done|by left].
Qed.

(** X20.  [_parse_stripe] raises exactly when the items cannot be looped
    over as a list, or some item is not a charge it can read: not a dict,
    or a dict whose [metadata] is there and is no dict (a [null]
    included).  One such item fails the whole payload.  When it returns,
    it gives one transaction per item, in order, each with the item as
    its [raw_payload] and ["stripe"] as its provider. *)
Theorem parse_stripe_raises payload :
  (parse_stripe payload = None ↔
     payload_items "data" "charges" payload = None
     ∨ ∃ items it, payload_items "data" "charges" payload = Some items
                   ∧ it ∈ items ∧ ¬ charge_well_formed it)
  ∧ ∀ txs, parse_stripe payload = Some txs →
      ∃ items, payload_items "data" "charges" payload = Some items
        ∧ List.length txs = List.length items
        ∧ ∀ i it tx, items !! i = Some it → txs !! i = Some tx →
            tx_raw_payload tx = it ∧ tx_payment_provider tx = "stripe".
Proof.
  unfold parse_stripe.
  destruct (payload_items "data" "charges" payload) as [items|]; simpl.
  - split.
    + rewrite mapM_None_elem. split.
      * intros (it & Hin & Hnone). right. exists items, it. split; [done|]. split; [done|].
        intros Hwf%parse_stripe_item_some. rewrite Hnone in Hwf. by destruct Hwf.
      * intros [?|(items' & it & [= <-] & Hin & Hbad)]; [done|].
        exists it. split; [done|].
        destruct (parse_stripe_item it) eqn:Hit; [|done].
        exfalso. apply Hbad, parse_stripe_item_some. by eexists.
    + intros txs Htxs. exists items. split; [done|].
      split; [symmetry; by eapply length_mapM|].
      intros i it tx Hit Htx. apply mapM_Some_1 in Htxs.
      pose proof (Forall2_lookup_lr _ _ _ _ _ _ Htxs Hit Htx) as Hparse.
      destruct it as [| | | | | | |fields]; simpl in Hparse; try done.
      destruct (default (JObj []) (field fields "metadata")); try done.
      by injection Hparse as <-.
  - split; [split; [by left|done]|done].
Qed.




Lemma parse_shopify_item_obj fields :
  parse_shopify_item (JObj fields) = None ↔ order_unreadable fields.
Proof.
  unfold parse_shopify_item, order_unreadable, shopify_total, py_or.
  destruct (jtruthy (obj_get fields "total_price")) eqn:Htp; simpl.
  2: destruct (jtruthy (obj_get fields "total")) eqn:Ht; simpl.
  3: destruct (jtruthy (obj_get fields "current_total_price")) eqn:Hc; simpl.
  3: destruct (obj_get fields "current_total_price") eqn:Hcur; simpl;
       try (split; [intros _; by left|done]).
  all: destruct (jtruthy (obj_get fields "customer")) eqn:Hcust; simpl.
  all: try (destruct (obj_get fields "customer") eqn:Hcustomer; simpl;
            try (split; [intros _; right; by left|done])).
  all: destruct (jtruthy (obj_get fields "line_items")) eqn:Hli; simpl.
  all: try (destruct (obj_get fields "line_items") eqn:Hitems; simpl;
            try (split; [intros _; right; by right|done])).
  all: split; try done.
  all: intros [(? & ? & ? & ?)|[[? ?]|[? ?]]]; done.
Qed.

(** X21.  [_parse_shopify] raises on a payload exactly when the items
    cannot be looped over as a list, or some item is no dict, or is a dict
    with a truthy [current_total_price] that is no dict while neither
    [total_price] nor [total] is truthy, with a truthy [customer] that is
    no dict, or with truthy [line_items] that have no length.  Nothing
    else makes it raise: not a missing field, not a shipping line that
    cannot be read. *)
Theorem parse_shopify_raises payload :
  parse_shopify payload = None ↔
    payload_items "orders" "data" payload = None
    ∨ ∃ items it, payload_items "orders" "data" payload = Some items ∧ it ∈ items
        ∧ (is_obj it = false ∨ ∃ fields, it = JObj fields ∧ order_unreadable fields).
Proof.
  unfold parse_shopify.
  destruct (payload_items "orders" "data" payload) as [items|]; simpl; [|split; [by left|done]].
  rewrite mapM_None_elem. split.
  - intros (it & Hin & Hnone). right. exists items, it. split; [done|]. split; [done|].
    destruct it as [| | | | | | |fields]; try (by left).
    right. exists fields. split; [done|]. by apply parse_shopify_item_obj.
  - intros [?|(items' & it & [= <-] & Hin & Hbad)]; [done|].
    exists it. split; [done|]. destruct Hbad as [Hobj|(fields & -> & Hbad)].
    + by destruct it.
    + by apply parse_shopify_item_obj.
Qed.

Lemma parse_shopify_item_fields fields order :
  parse_shopify_item (JObj fields) = Some order →
  o_order_id order
    = JStr (jstr (py_or (obj_get fields "id")
                    (py_or (obj_get fields "order_number")
                       (py_or (obj_get fields "name") (obj_get fields "number")))))
  ∧ o_shipping_amount order = shopify_shipping fields.
Proof.
  unfold parse_shopify_item.
  destruct (shopify_total fields); simpl; [|done].
  destruct (py_or (obj_get fields "customer") (JObj [])); try done.
  destruct (json_len _); simpl; [|done]. by intros [= <-].
Qed.

(** X22.  An order always gets a text as its [order_id]: the text of the
    first truthy of [id], [order_number] and [name], else of [number].
    An order that comes with none of the four, or with [null] for them,
    gets the text [None]; [validate_orders] takes that for a filled field
    and does not report [missing_order_id] for a row that holds it. *)
Theorem parse_shopify_order_id fields order :
  parse_shopify_item (JObj fields) = Some order →
  let truthy_at k := jtruthy (obj_get fields k) in
  (truthy_at "id" = true → o_order_id order = JStr (jstr (obj_get fields "id")))
  ∧ (truthy_at "id" = false → truthy_at "order_number" = true →
     o_order_id order = JStr (jstr (obj_get fields "order_number")))
  ∧ (truthy_at "id" = false → truthy_at "order_number" = false →
     truthy_at "name" = true →
     o_order_id order = JStr (jstr (obj_get fields "name")))
  ∧ (truthy_at "id" = false → truthy_at "order_number" = false →
     truthy_at "name" = false →
     o_order_id order = JStr (jstr (obj_get fields "number")))
  ∧ ((∀ k, k ∈ ["id"; "order_number"; "name"; "number"] → obj_get fields k = JNull) →
     o_order_id order = JStr "None"
     ∧ ∀ df required_fields allowed_statuses i r issues,
         rows df !! i = Some r →
         get r "order_id" = VStr "None" →
         validation_issues (validate_orders df required_fields allowed_statuses) !! i
           = Some issues →
         "missing_order_id" ∉ issues).
Proof.
  intros [Hid _]%parse_shopify_item_fields truthy_at. rewrite Hid. unfold py_or.
  subst truthy_at. cbv beta.
  split; [|split; [|split; [|split]]].
  - by intros ->.
  - by intros -> ->.
  - by intros -> -> ->.
  - by intros -> -> ->.
  - intros Hall. rewrite !Hall by (by repeat constructor). split; [reflexivity|].
    intros df required_fields allowed_statuses i r issues Hr Hget Hissues.
    rewrite (validation_issues_lookup _ _ _ _ _ Hr) in Hissues. injection Hissues as <-.
    rewrite elem_of_row_issues.
    intros [(f & _ & Heq & Hm)|[[Heq _]|[Heq _]]]; try (by simpl in Heq).
    simpl in Heq. injection Heq as <-.
    apply field_missing_iff in Hm as [Hm|Hm]; rewrite Hget in Hm; done.
Qed.


(** ** The scan of the staged files *)

Lemma jtruthy_guest a s : jtruthy (py_or a (JStr ("guest_" +:+ s))) = true.
Proof. unfold py_or. by destruct (jtruthy a) eqn:Ha. Qed.

Lemma and_get_none j k :
  and_get j k = None ↔ jtruthy j = true ∧ is_obj j = false.
Proof.
  unfold and_get. destruct (jtruthy j) eqn:Hj; [|split; [done|by intros [? _]]].
  destruct j; simpl; split; try done; by intros [_ ?].
Qed.

Lemma and_get_obj a k : jtruthy (JObj a) = true → and_get (JObj a) k = Some (obj_get a k).
Proof. unfold and_get. by intros ->. Qed.

Lemma customers_follow_app customers orders cs os :
  customers_follow customers orders →
  Forall (λ c, jtruthy (c_customer_id c) = true ∧ ∃ o, o ∈ os ∧ customer_of_order c o) cs →
  (List.length cs ≤ List.length os)%nat →
  customers_follow (customers ++ cs) (orders ++ os).
Proof.
  intros [Hall Hlen] Hcs Hle. split.
  - apply Forall_app. split.
    + eapply Forall_impl; [exact Hall|]. intros c [Hc (o & Ho & Hco)].
      split; [done|]. exists o. split; [|done]. apply elem_of_app. by left.
    + eapply Forall_impl; [exact Hcs|]. intros c [Hc (o & Ho & Hco)].
      split; [done|]. exists o. split; [|done]. apply elem_of_app. by right.
  - rewrite !length_app. lia.
Qed.

Lemma woo_customer_of it order customer :
  woo_customer it order = Some customer →
  jtruthy (c_customer_id customer) = true ∧ customer_of_order customer order.
Proof.
  unfold woo_customer. destruct it as [| | | | | | |fields]; try done.
  destruct (and_get (obj_get fields "billing") "email") as [email|]; [|done].
  destruct (and_get (obj_get fields "billing") "name") as [name|]; [|done].
  simpl. intros [= <-]. simpl. split; [apply jtruthy_guest|done].
Qed.

Lemma shopify_customer_of it :
  jtruthy (c_customer_id (shopify_customer it)) = true
  ∧ customer_of_order (shopify_customer it) it.
Proof. split; [apply jtruthy_guest|done]. Qed.

Lemma woo_loop_follows items st :
  customers_follow (staged_customers st) (staged_orders st) →
  customers_follow (staged_customers (woo_loop items st)) (staged_orders (woo_loop items st)).
Proof.
  revert st. induction items as [|it items IH]; intros st Hst; [done|].
  simpl. destruct (woo_order it) as [order|]; [|done].
  destruct (woo_customer it order) as [customer|] eqn:Hc.
  - apply IH. simpl. apply customers_follow_app; [done| |done].
    apply woo_customer_of in Hc as [Hid Hco].
    constructor; [|constructor]. split; [done|]. exists order. split; [|done].
    by apply list_elem_of_singleton.
  - simpl. rewrite <- (app_nil_r (staged_customers st)).
    apply customers_follow_app; [done|constructor|simpl; lia].
Qed.

Lemma paypal_loop_keeps items st :
  staged_customers (paypal_loop items st) = staged_customers st
  ∧ staged_orders (paypal_loop items st) = staged_orders st.
Proof.
  revert st. induction items as [|it items IH]; intros st; [done|].
  simpl. destruct (paypal_transaction it); [|done]. by destruct (IH (mkStaged (staged_customers st) (staged_orders st) (staged_transactions st ++ [t]))).
Qed.

Lemma process_staged_file_follows path content st :
  customers_follow (staged_customers st) (staged_orders st) →
  customers_follow (staged_customers (process_staged_file path content st))
    (staged_orders (process_staged_file path content st)).
Proof.
  intros Hst. unfold process_staged_file.
  destruct (negb (ends_with ".json" path)); [done|].
  destruct content as [payload|]; [|done]. cbv zeta.
  destruct (contains "shopify" (lower path)).
  { destruct (parse_shopify payload) as [parsed|]; [|done]. simpl.
    apply customers_follow_app; [done| |by rewrite length_fmap].
    apply Forall_fmap, Forall_forall. intros o Ho.
    destruct (shopify_customer_of o) as [Hid Hco].
    split; [done|]. by exists o. }
  destruct (contains "stripe" (lower path)).
  { by destruct (parse_stripe payload). }
  destruct (contains "woocommerce" (lower path) || contains "orders" (lower path)).
  { destruct (payload_items "orders" "data" payload); [|done]. by apply woo_loop_follows. }
  destruct (contains "paypal" (lower path) || contains "transactions" (lower path)); [|done].
  destruct (payload_items "transactions" "data" payload) as [items|]; [|done].
  by destruct (paypal_loop_keeps items st) as [-> ->].
Qed.

Lemma woo_loop_records good records rest st :
  mapM woo_item_records good = Some records →
  woo_loop (good ++ rest) st
  = woo_loop rest
      (mkStaged (staged_customers st ++ records.*2) (staged_orders st ++ records.*1)
         (staged_transactions st)).
Proof.
  rewrite mapM_Some. intros Hall. revert st.
  induction Hall as [|it [order customer] good records Hit _ IH]; intros st.
  - simpl. rewrite !app_nil_r. by destruct st.
  - unfold woo_item_records in Hit.
    destruct (woo_order it) as [order'|] eqn:Ho; [|done]. simpl in Hit.
    destruct (woo_customer it order') as [customer'|] eqn:Hc; [|done].
    injection Hit as -> ->. simpl. rewrite Ho, Hc, IH. simpl.
    by rewrite <- !app_assoc.
Qed.

(** X24.  After the scan of the staged files every customer is derived
    from an order that is staged: it carries that order's identifier and
    date, its identifier is the order's customer identifier or, where that
    is not truthy, [guest_] and the order's identifier, so it is truthy in
    every case; and there are never more customers than orders. *)
Theorem scan_staged_files_customers files :
  let staged := scan_staged_files files in
  Forall (λ c, jtruthy (c_customer_id c) = true
               ∧ ∃ o, o ∈ staged_orders staged ∧ customer_of_order c o)
    (staged_customers staged)
  ∧ (List.length (staged_customers staged) ≤ List.length (staged_orders staged))%nat.
Proof.
  cbv zeta. unfold scan_staged_files.
  change (customers_follow
            (staged_customers
               (foldl (λ st '(path, content), process_staged_file path content st)
                  (mkStaged [] [] []) files))
            (staged_orders
               (foldl (λ st '(path, content), process_staged_file path content st)
                  (mkStaged [] [] []) files))).
  assert (Hinit : customers_follow (staged_customers (mkStaged [] [] []))
                    (staged_orders (mkStaged [] [] []))).
  { split; [constructor|done]. }
  revert Hinit. generalize (mkStaged [] [] []).
  induction files as [|[path content] files IH]; intros st Hst; [done|].
  simpl. apply IH. by apply process_staged_file_follows.
Qed.

(** X25.  One item that cannot be read, in a staged file whose payload is
    a list.  Under a name with [shopify] the file adds nothing, also not
    the orders before that item.  Under a name with [woocommerce] or
    [orders] (and neither [shopify] nor [stripe]) the orders and customers
    of the items before it are kept and the items after it are dropped;
    where the order of the item can be built and only its customer
    cannot, that order is kept too, without a customer. *)
Theorem staged_file_unreadable_item path good bad rest st :
  ends_with ".json" path = true →
  let payload := JList (good ++ bad :: rest) in
  (contains "shopify" (lower path) = true →
   parse_shopify_item bad = None →
   process_staged_file path (Some payload) st = st)
  ∧ (contains "shopify" (lower path) = false →
     contains "stripe" (lower path) = false →
     contains "woocommerce" (lower path) || contains "orders" (lower path) = true →
     ∀ records, mapM woo_item_records good = Some records →
       (woo_order bad = None →
        process_staged_file path (Some payload) st
        = mkStaged (staged_customers st ++ records.*2) (staged_orders st ++ records.*1)
            (staged_transactions st))
       ∧ (∀ order, woo_order bad = Some order → woo_customer bad order = None →
          process_staged_file path (Some payload) st
          = mkStaged (staged_customers st ++ records.*2)
              (staged_orders st ++ records.*1 ++ [order]) (staged_transactions st))).
Proof.
  intros Hjson payload. unfold process_staged_file. rewrite Hjson. simpl negb. cbv iota zeta.
  split.
  - intros -> Hbad. unfold parse_shopify. simpl.
    assert (mapM parse_shopify_item (good ++ bad :: rest) = None) as ->; [|done].
    apply mapM_None_elem. exists bad. split; [|done].
    apply elem_of_app. right. by left.
  - intros -> -> -> records Hrecords. simpl payload_items. cbv iota.
    rewrite (woo_loop_records _ _ _ _ Hrecords). split.
    + intros Hbad. simpl. by rewrite Hbad.
    + intros order Ho Hc. simpl. rewrite Ho, Hc. simpl. by rewrite <- app_assoc.
Qed.

(** X26.  A PayPal item that is a dict raises exactly when its [payer] or
    its [amount] is truthy and no dict, or its [amount] is not truthy and
    its [gross_amount] is truthy and no dict.  So an amount given as a
    number or as text is never read: where the [amount] field is truthy
    the transaction's amount is that dict itself, and its currency the
    dict's [currency] before the item's own. *)
Theorem paypal_transaction_amount fields :
  (paypal_transaction (JObj fields) = None ↔ paypal_unreadable fields)
  ∧ ∀ tx, paypal_transaction (JObj fields) = Some tx →
      jtruthy (obj_get fields "amount") = true →
      ∃ a, obj_get fields "amount" = JObj a
        ∧ tx_amount tx = JObj a
        ∧ tx_currency tx = py_or (obj_get a "currency") (obj_get fields "currency").
Proof.
  unfold paypal_transaction, paypal_unreadable. cbv zeta. split.
  - destruct (and_get (obj_get fields "payer") "payer_id") as [payer|] eqn:Hp; simpl.
    2:{ apply and_get_none in Hp. split; [by left|done]. }
    assert (Hp' : ¬ (jtruthy (obj_get fields "payer") = true
                     ∧ is_obj (obj_get fields "payer") = false)).
    { intros H%(and_get_none _ "payer_id"). congruence. }
    destruct (jtruthy (obj_get fields "amount")) eqn:Ha; simpl.
    + destruct (and_get (obj_get fields "amount") "currency") as [cur|] eqn:Hc; simpl.
      * assert (Hc' : ¬ (jtruthy (obj_get fields "amount") = true
                         ∧ is_obj (obj_get fields "amount") = false)).
        { intros H%(and_get_none _ "currency"). congruence. }
        split; [done|]. intros Hbad. exfalso.
        destruct Hbad as [?|[[_ ?]|[? _]]]; [by apply Hp'|by apply Hc'|congruence].
      * apply and_get_none in Hc as [_ Hc]. split; [|done]. intros _. right. left. by split.
    + destruct (and_get (obj_get fields "gross_amount") "value") as [v|] eqn:Hg; simpl.
      * assert (Hg' : ¬ (jtruthy (obj_get fields "gross_amount") = true
                         ∧ is_obj (obj_get fields "gross_amount") = false)).
        { intros H%(and_get_none _ "value"). congruence. }
        assert (and_get (obj_get fields "amount") "currency" = Some (obj_get fields "amount"))
          as ->.
        { unfold and_get. by rewrite Ha. }
        simpl. split; [done|]. intros Hbad. exfalso.
        destruct Hbad as [?|[[? _]|[_ ?]]]; [by apply Hp'|congruence|by apply Hg'].
      * apply and_get_none in Hg. split; [|done]. intros _. right. right. by split.
  - intros tx Htx Ha. rewrite Ha in Htx.
    destruct (and_get (obj_get fields "payer") "payer_id") as [payer|]; [|done].
    simpl in Htx.
    destruct (obj_get fields "amount") as [| | | | | | |a] eqn:Hamount;
      try (by unfold and_get in Htx; rewrite Ha in Htx).
    rewrite (and_get_obj _ _ Ha) in Htx. simpl in Htx. injection Htx as <-.
    by exists a.
Qed.

End Transform.

(** * Worked examples

    The library parameters are read as follows: [float] and [pd.to_numeric]
    take plain decimal text, [pd.to_datetime] takes a count of nanoseconds,
    and no example prints a float or overrides a column. *)

(** ** Fraud flagging *)


(** The two records of the specification under the threshold 1000: the
    first scores 3 + 1, the second 0 + 1. *)
Example flag_fraud_examples :
  fraud_score decimal_float (Qc_of_Z 1000) (suspicious_domains []) order_high_value = 4
  ∧ fraud_score decimal_float (Qc_of_Z 1000) (suspicious_domains []) order_low_value = 1.
Proof. split; by_compute. Qed.



(** ** Validation *)

(** The three records of [orders_to_validate]: no [order_id]; all fields
    filled, with an order total of 0; a NaN total, an unknown status and a
    malformed email. *)
Example validate_orders_examples :
  validation_issues (validate_orders plain_repr orders_to_validate None None)
  = [ ["missing_order_id"]; []; ["invalid_status:shipped"; "invalid_email"] ].
Proof. by_compute. Qed.

(** C10, witness: the third record of [orders_to_validate] holds NaN as its
    order total. *)
Lemma nan_field_not_reported_missing_witness :
  ∃ r, rows orders_to_validate !! 2%nat = Some r ∧ get r "order_total" = VNaN
    ∧ ∃ issues,
        validation_issues (validate_orders plain_repr orders_to_validate None None)
          !! 2%nat = Some issues
        ∧ "missing_order_total" ∉ issues.
Proof.
  eexists. split; [reflexivity|]. split; [reflexivity|].
  exact (proj2 (proj2 (nan_field_not_reported_missing plain_repr orders_to_validate
                         None None 2%nat _ "order_total" eq_refl eq_refl))).
Defined.

(** ** Order totals *)

(** C3, the failing input.  A batch without a quantity column makes
    [calculate_order_total] raise, where a quantity of 1 was to be taken. *)
Lemma calculate_order_total_without_quantity :
  has_col orders_without_quantity "quantity" = false
  ∧ calculate_order_total decimal_numeric orders_without_quantity "price" "quantity"
      None None None "order_total" = None.
Proof. split; by_compute. Qed.


(** [price = [10, 5]] and [quantity = [2, 3]] give [order_total = [20, 15]]. *)
Example calculate_order_total_basic :
  (λ out, column out "order_total")
    <$> calculate_order_total decimal_numeric orders_basic "price" "quantity"
          None None None "order_total"
  = Some [VFloat (Qc_of_Z 20); VFloat (Qc_of_Z 15)].
Proof. by_compute. Qed.

(** ** Currency normalisation *)


(** ["$10.00"] in USD stays 10, ["€20.00"] in EUR at 1.1 becomes 22. *)
Example normalize_currency_with_rate_map :
  (λ out, column out "amount_normalized")
    <$> normalize_currency (λ _, None) orders_currency "amount" (Some "currency")
          rates_usd_eur "USD"
  = Some [VFloat (Qc_of_Z 10); VFloat (Qc_of_Z 22)].
Proof. by_compute. Qed.

(** Without rates of its own the function converts at the fetched rates,
    inverted: a quote of 0.8 EUR per USD turns 20 EUR into 25 USD; when the
    fetch fails, amounts are left as they are. *)
Example normalize_currency_live_rates :
  (λ out, column out "amount_normalized")
    <$> normalize_currency (λ _, Some [("EUR", (Qc_of_Z 8 / Qc_of_Z 10)%Qc)])
          orders_currency "amount" (Some "currency") ∅ "USD"
  = Some [VFloat (Qc_of_Z 10); VFloat (Qc_of_Z 25)]
  ∧ (λ out, column out "amount_normalized")
      <$> normalize_currency (λ _, None) orders_currency "amount" (Some "currency") ∅ "USD"
    = Some [VFloat (Qc_of_Z 10); VFloat (Qc_of_Z 20)].
Proof. split; by_compute. Qed.

(** Amounts that do not parse. *)
Example parse_amount_examples :
  parse_amount (VStr "1,234.50") = Some (Qc_of_Z 2469 / Qc_of_Z 2)%Qc
  ∧ parse_amount (VStr "-$5") = Some (Qc_of_Z (-5))
  ∧ parse_amount (VStr "5-") = None
  ∧ parse_amount (VStr "1.2.3") = None
  ∧ parse_amount (VStr "USD") = None
  ∧ parse_amount (VStr "") = None.
Proof. repeat split; by_compute. Qed.

(** ** Deduplication *)


(** One of the two equal rows goes under [first] and [last], both under
    [False]; on the column [a] alone the outcome is the same. *)
Example remove_duplicates_examples :
  (λ '(cleaned, removed), (List.length (rows cleaned), removed))
    <$> remove_duplicates rows_with_duplicate None KeepFirst = Some (2%nat, 1)
  ∧ (λ '(cleaned, removed), (List.length (rows cleaned), removed))
      <$> remove_duplicates rows_with_duplicate None KeepLast = Some (2%nat, 1)
  ∧ (λ '(cleaned, removed), (List.length (rows cleaned), removed))
      <$> remove_duplicates rows_with_duplicate (Some ["a"]) KeepNone = Some (1%nat, 2)
  ∧ remove_duplicates rows_with_duplicate (Some ["c"]) KeepFirst = None.
Proof. repeat split; by_compute. Qed.

(** ** Customer lifetime value *)


(** Customer [c1] has orders of 10 and 20, the later one on 2020-02-01:
    [clv = 30], two orders, mean 15, last order 1430 whole days before noon
    of 2024-01-01. *)
Example calculate_clv_example :
  calculate_clv decimal_numeric epoch_ns noon_2024_01_01 orders_clv
    "customer_id" "order_total"
  = Some [ mkClvRow (VStr "c1") (Qc_of_Z 30) 2 (Qc_of_Z 15) (Some (18293 * NS_PER_DAY))
             (Some 1430) 2;
           mkClvRow (VStr "c2") (Qc_of_Z 5) 1 (Qc_of_Z 5) (Some (18322 * NS_PER_DAY))
             (Some 1401) 1 ].
Proof. by_compute. Qed.

(** ** The stage pipeline *)

(** C9, counterexample.  The same batch run at two clock readings a day
    apart gives two different outputs: [recency_days] of the first customer
    is 1430 in one and 1431 in the other. *)
Lemma run_stages_depends_on_clock :
  run_stages decimal_float plain_repr decimal_numeric epoch_ns noon_2024_01_01 orders_clv
  ≠ run_stages decimal_float plain_repr decimal_numeric epoch_ns noon_2024_01_02 orders_clv.
Proof.
  intros Heq.
  apply (f_equal (λ o : option StageOutput,
                    match o with
                    | Some (mkStageOutput _ (Some (c :: _))) => recency_days c
                    | _ => None
                    end)) in Heq.
  vm_compute in Heq. discriminate Heq.
Qed.

(** Two runs within the same day give the same output. *)
Example run_stages_same_day :
  run_stages decimal_float plain_repr decimal_numeric epoch_ns noon_2024_01_01 orders_clv
  = run_stages decimal_float plain_repr decimal_numeric epoch_ns
      (noon_2024_01_01 + 3600 * 10 ^ 9) orders_clv.
Proof. vm_compute. reflexivity. Qed.

(** ** Imputation *)

(** C7, counterexample.  Under forward fill the null that starts the column
    [null, 1, 3] stays, although the column holds non-null values. *)
Lemma ffill_keeps_leading_null :
  impute_missing plain_repr epoch_ns fillna_same_kind frame_leading_null
    "ffill" "mode" "ffill" ∅
  = Some [ ("num", NumericCol [None; Some (Qc_of_Z 1); Some (Qc_of_Z 3)]) ].
Proof. reflexivity. Qed.

(** The median and the mean fill the null of [1, null, 3] with 2; back fill
    fills the leading null of [null, 1, 3] with 1. *)
Example impute_numeric_examples :
  impute_numeric "mean" [Some (Qc_of_Z 1); None; Some (Qc_of_Z 3)]
  = [Some (Qc_of_Z 1); Some (Qc_of_Z 2); Some (Qc_of_Z 3)]
  ∧ impute_numeric "bfill" [None; Some (Qc_of_Z 1); Some (Qc_of_Z 3)]
    = [Some (Qc_of_Z 1); Some (Qc_of_Z 1); Some (Qc_of_Z 3)]
  ∧ impute_categorical "mode" [VStr "a"; VNone; VStr "a"; VStr "b"]
    = [VStr "a"; VStr "a"; VStr "a"; VStr "b"].
Proof. repeat split; by_compute. Qed.


(** * Worked examples of the further properties *)

(** ** Deduplication *)

(** Witness of [remove_duplicates_keeps_order]: the batch [a = [1, 1, 2]],
    [b = ["x", "x", "y"]], first occurrences kept. *)
Lemma remove_duplicates_keeps_order_witness :
  ∃ cleaned removed,
    remove_duplicates rows_with_duplicate None KeepFirst = Some (cleaned, removed)
    ∧ columns cleaned = columns rows_with_duplicate
    ∧ rows cleaned `sublist_of` rows rows_with_duplicate.
Proof.
  eexists _, _. split; [reflexivity|].
  eapply (remove_duplicates_keeps_order rows_with_duplicate None KeepFirst). reflexivity.
Defined.

(** Witness of [remove_duplicates_one_per_group]: the same batch, last
    occurrences kept. *)
Lemma remove_duplicates_one_per_group_witness :
  ∃ cleaned removed,
    remove_duplicates rows_with_duplicate None KeepLast = Some (cleaned, removed)
    ∧ no_two_rows_equal ["a"; "b"] (rows cleaned)
    ∧ ∀ r, r ∈ rows rows_with_duplicate →
           ∃ r', r' ∈ rows cleaned ∧ rows_equal_on ["a"; "b"] r r' = true.
Proof.
  eexists _, _. split; [reflexivity|].
  eapply (remove_duplicates_one_per_group rows_with_duplicate None KeepLast ["a"; "b"]);
    [discriminate|reflexivity|discriminate|reflexivity].
Defined.

(** Witness of [remove_duplicates_keep_none]: the same batch compared on
    the column [a]; only the row with [a = 2] survives. *)
Lemma remove_duplicates_keep_none_witness :
  ∃ cleaned removed,
    remove_duplicates rows_with_duplicate (Some ["a"]) KeepNone = Some (cleaned, removed)
    ∧ ∀ r, r ∈ rows cleaned ↔
           ∃ i, rows rows_with_duplicate !! i = Some r
                ∧ ∀ j r', j ≠ i → rows rows_with_duplicate !! j = Some r' →
                          rows_equal_on ["a"] r r' = false.
Proof.
  eexists _, _. split; [reflexivity|].
  eapply (remove_duplicates_keep_none rows_with_duplicate (Some ["a"]) ["a"]);
    [reflexivity|discriminate|reflexivity].
Defined.

(** Witness of [remove_duplicates_idempotent]. *)
Lemma remove_duplicates_idempotent_witness :
  ∃ cleaned removed,
    remove_duplicates rows_with_duplicate None KeepFirst = Some (cleaned, removed)
    ∧ remove_duplicates cleaned None KeepFirst = Some (cleaned, 0).
Proof.
  eexists _, _. split; [reflexivity|].
  eapply (remove_duplicates_idempotent rows_with_duplicate None KeepFirst). reflexivity.
Defined.

(** The three policies on [a = [1, 1, 2]]: the surviving values of [a]. *)
Example remove_duplicates_survivors :
  (λ '(cleaned, _), column cleaned "a")
    <$> remove_duplicates rows_with_duplicate None KeepFirst = Some [VInt 1; VInt 2]
  ∧ (λ '(cleaned, _), column cleaned "a")
      <$> remove_duplicates rows_with_duplicate None KeepLast = Some [VInt 1; VInt 2]
  ∧ (λ '(cleaned, _), column cleaned "a")
      <$> remove_duplicates rows_with_duplicate None KeepNone = Some [VInt 2].
Proof. repeat split; by_compute. Qed.

(** ** Fraud flagging *)

(** Witness of [fraud_flag_needs_two_rules]: an order of 2000 under the
    threshold 1000, flagged with the point for the missing billing
    fields. *)
Lemma fraud_flag_needs_two_rules_witness :
  rows orders_high_value !! 0%nat = Some order_high_value
  ∧ ∃ r' score,
      rows (flag_fraud decimal_float orders_high_value (Qc_of_Z 1000) []) !! 0%nat = Some r'
      ∧ get r' "fraud_score" = VInt score
      ∧ 0 ≤ score ≤ 9
      ∧ get r' "fraud_flag"
        = VBool ((high_value_rule decimal_float (Qc_of_Z 1000) order_high_value
                  && disposable_email_rule (suspicious_domains []) order_high_value)
                 || ((high_value_rule decimal_float (Qc_of_Z 1000) order_high_value
                      || disposable_email_rule (suspicious_domains []) order_high_value)
                     && (country_mismatch_rule order_high_value
                         || missing_identity_rule order_high_value))).
Proof.
  split; [reflexivity|].
  apply (fraud_flag_needs_two_rules decimal_float orders_high_value (Qc_of_Z 1000) []
           0%nat order_high_value).
  reflexivity.
Defined.

(** Witness of [flag_fraud_monotone]: the threshold lowered from 5000 to
    1000 and a domain added. *)
Lemma flag_fraud_monotone_witness :
  ∃ r1,
    rows (flag_fraud decimal_float orders_high_value (Qc_of_Z 5000) []) !! 0%nat = Some r1
    ∧ ∃ r2 score1 score2,
        rows (flag_fraud decimal_float orders_high_value (Qc_of_Z 1000) ["evil.com"]) !! 0%nat
          = Some r2
        ∧ get r1 "fraud_score" = VInt score1
        ∧ get r2 "fraud_score" = VInt score2
        ∧ score1 ≤ score2
        ∧ (get r1 "fraud_flag" = VBool true → get r2 "fraud_flag" = VBool true).
Proof.
  eexists. split; [reflexivity|].
  eapply (flag_fraud_monotone decimal_float orders_high_value (Qc_of_Z 5000) (Qc_of_Z 1000)
            [] ["evil.com"] 0%nat).
  - by_compute.
  - intros d Hd. by apply elem_of_nil in Hd.
  - reflexivity.
Defined.

(** The order of 2000 scores 1 under the threshold 5000 and 4 under 1000. *)
Example flag_fraud_threshold_example :
  column (flag_fraud decimal_float orders_high_value (Qc_of_Z 5000) []) "fraud_score"
    = [VInt 1]
  ∧ column (flag_fraud decimal_float orders_high_value (Qc_of_Z 1000) []) "fraud_score"
    = [VInt 4].
Proof. split; by_compute. Qed.

(** ** Validation *)


(** ** Currency normalisation *)

(** Witness of [normalize_currency_fetched_rates]: the batch of the
    specification with a quote of 0.8 EUR per USD; the 20 EUR of the second
    row become 25 USD. *)
Lemma normalize_currency_fetched_rates_witness :
  ∃ out r',
    normalize_currency (λ _, Some [("EUR", (Qc_of_Z 8 / Qc_of_Z 10)%Qc)])
      orders_currency "amount" (Some "currency") ∅ "USD" = Some out
    ∧ rows out !! 1%nat = Some r'
    ∧ get r' "amount_normalized" = VFloat (Qc_of_Z 25).
Proof.
  destruct (normalize_currency_fetched_rates
              (λ _, Some [("EUR", (Qc_of_Z 8 / Qc_of_Z 10)%Qc)])
              orders_currency "amount" "currency" "USD" eq_refl ltac:(discriminate) eq_refl)
    as (out & Hout & Hrows).
  destruct (Hrows 1%nat {[ "amount" := VStr "€20.00"; "currency" := VStr "EUR" ]} eq_refl)
    as (r' & Hr' & _ & _ & Hquoted).
  destruct (Hquoted [("EUR", (Qc_of_Z 8 / Qc_of_Z 10)%Qc)] "EUR" eq_refl ltac:(by_compute))
    as (_ & _ & Hrate).
  exists out, r'. split; [exact Hout|]. split; [exact Hr'|].
  refine (eq_trans (Hrate (Qc_of_Z 8 / Qc_of_Z 10)%Qc ltac:(discriminate) ltac:(by_compute)) _).
  vm_compute. f_equal. by apply Qc_is_canon.
Defined.

(** Witness of [parse_amount_reads_digits]: the letter of an exponent
    drops out like any other, so ["1e3"] is read as 13. *)
Lemma parse_amount_reads_digits_witness :
  parse_amount (VStr "1e3") = Some (Qc_of_Z 13)
  ∧ filter_string is_digit "1e3" ≠ ""
  ∧ (count_char dot (filter_string currency_char "1e3") ≤ 1)%nat
  ∧ Qc_of_Z 13
    = if starts_with_minus (filter_string currency_char "1e3")
      then (- (Qc_of_Z (digits_value 0 (filter_string is_digit "1e3"))
               / Qc_of_Z (10 ^ Z.of_nat
                            (String.length
                               (after_dot (filter_string currency_char "1e3"))))))%Qc
      else (Qc_of_Z (digits_value 0 (filter_string is_digit "1e3"))
            / Qc_of_Z (10 ^ Z.of_nat
                         (String.length
                            (after_dot (filter_string currency_char "1e3")))))%Qc.
Proof.
  assert (parse_amount (VStr "1e3") = Some (Qc_of_Z 13)) as Hparse by by_compute.
  split; [exact Hparse|].
  exact (parse_amount_reads_digits "1e3" (Qc_of_Z 13) Hparse).
Defined.

(** Text that reads differently from what it says: a decimal comma, an
    exponent, an amount in brackets. *)
Example parse_amount_digit_examples :
  parse_amount (VStr "1.234,56") = Some (Qc_of_Z 123456 / Qc_of_Z 100000)%Qc
  ∧ parse_amount (VStr "2.5e3") = Some (Qc_of_Z 253 / Qc_of_Z 100)%Qc
  ∧ parse_amount (VStr "(5.00)") = Some (Qc_of_Z 5)
  ∧ parse_amount (VStr "+7") = Some (Qc_of_Z 7).
Proof. repeat split; by_compute. Qed.

(** ** Customer lifetime value *)

(** Witness of [calculate_clv_conserves]: the three orders of
    [orders_clv]. *)
Lemma calculate_clv_conserves_witness :
  ∃ out,
    calculate_clv decimal_numeric epoch_ns noon_2024_01_01 orders_clv
      "customer_id" "order_total" = Some out
    ∧ sum_Qc (clv <$> out)
      = sum_Qc ((λ r, cell_or decimal_numeric Qc0 r "order_total")
                  <$> orders_with_customer orders_clv "customer_id")
    ∧ sum_Z (total_orders <$> out)
      = Z.of_nat (List.length (orders_with_customer orders_clv "customer_id")).
Proof.
  eexists. split; [reflexivity|].
  eapply (calculate_clv_conserves decimal_numeric epoch_ns noon_2024_01_01 orders_clv
            "customer_id" "order_total").
  reflexivity.
Defined.

(** ** Imputation *)

(** A column of names counts as dates because one name holds a [T]; under
    [epoch] both names are lost. *)
Example impute_names_as_dates :
  looks_like_datetime_series plain_repr [VStr "Tom"; VStr "ann"] = true
  ∧ impute_missing plain_repr epoch_ns fillna_same_kind
      [("name", ObjectCol [VStr "Tom"; VStr "ann"])] "median" "mode" "epoch" ∅
    = Some [("name", DatetimeCol [Some 0; Some 0])].
Proof. split; [by_compute|reflexivity]. Qed.

(** ** The list-level validators *)


(** The list validators at work: a blank identifier, a negative total and
    a total that is no number; a customer whose email is a number. *)
Example validate_lists_examples :
  validate_orders_list decimal_float plain_repr [order_blank_id] None
    = [("   ", ["missing_order_id"])]
  ∧ validate_orders_list decimal_float plain_repr
      [ {[ "order_id" := VStr "o1"; "customer_id" := VStr "c1";
           "order_date" := VStr "2020-01-01"; "order_total" := VInt (-5) ]};
        {[ "customer_id" := VStr "c2"; "order_date" := VStr "2020-01-02";
           "order_total" := VStr "ten" ]} ] None
    = [ ("o1", ["negative_order_total"]);
        ("idx:1", ["missing_order_id"; "invalid_order_total"]) ]
  ∧ validate_customers_list plain_repr
      [ {[ "customer_id" := VStr "c1"; "email" := VInt 5 ]} ] = None
  ∧ raise_if_issues [("o1", ["negative_order_total"]); ("o2", [])] "orders"
    = Raised ("Validation failed for orders:" +:+ newline +:+ "o1: negative_order_total").
Proof. repeat split; by_compute. Qed.

(** ** The schema normaliser *)

(** Witness of [parse_shopify_order_id]: an order without any identifier
    is given the text [None]. *)
Lemma parse_shopify_order_id_witness :
  ∃ order,
    parse_shopify_item decimal_float plain_repr no_container_repr
      (JObj shopify_order_without_id) = Some order
    ∧ o_order_id order = JStr "None".
Proof.
  eexists. split; [reflexivity|].
  apply (parse_shopify_order_id decimal_float plain_repr no_container_repr
           shopify_order_without_id _ eq_refl).
  intros k Hk. repeat (apply elem_of_cons in Hk as [->|Hk]; [reflexivity|]).
  by apply elem_of_nil in Hk.
Defined.


(** A charge of 1250 minor units is an amount of 12.5; a charge whose
    [metadata] is [null] fails the payload. *)
Example parse_stripe_examples :
  (λ txs : list Transaction, tx_amount <$> txs)
    <$> parse_stripe decimal_float (λ _, None)
          (JObj [("data", JList [JObj [("id", JStr "ch_1"); ("amount", JInt 1250)]])])
  = Some [JFloat (Qc_of_Z 25 / Qc_of_Z 2)%Qc]
  ∧ parse_stripe decimal_float (λ _, None)
      (JList [JObj [("id", JStr "ch_1"); ("metadata", JNull)]]) = None.
Proof.
  split.
  - vm_compute. do 2 f_equal. f_equal. by apply Qc_is_canon.
  - reflexivity.
Qed.

(** ** The scan of the staged files *)

(** Witness of [staged_file_unreadable_item]: the second item of a
    WooCommerce file gives an order and no customer, and the third item
    is not read. *)
Lemma staged_file_unreadable_item_witness :
  let staged :=
    process_staged_file decimal_float plain_repr (λ _, None) no_container_repr
      "orders_2024.json" (Some (JList [woo_item_1; woo_item_2; woo_item_3]))
      (mkStaged [] [] []) in
  o_order_id <$> staged_orders staged = [JInt 1; JInt 2]
  ∧ c_last_order_id <$> staged_customers staged = [JInt 1].
Proof.
  cbv zeta.
  change [woo_item_1; woo_item_2; woo_item_3]
    with ([woo_item_1] ++ woo_item_2 :: [woo_item_3]).
  rewrite (proj2 (proj2 (staged_file_unreadable_item decimal_float plain_repr (λ _, None)
                           no_container_repr "orders_2024.json" [woo_item_1] woo_item_2
                           [woo_item_3] (mkStaged [] [] []) eq_refl)
                    eq_refl eq_refl eq_refl _ eq_refl) _ eq_refl eq_refl).
  split; reflexivity.
Defined.

(** The sample directory: the Shopify file adds nothing, the CSV file and
    the file under [.JSON] are not read, the WooCommerce file gives two
    orders with a guest and a named customer, and the PayPal file gives
    the one transaction before the amount that is a number. *)
Example scan_staged_files_sample :
  let staged :=
    scan_staged_files decimal_float plain_repr (λ _, None) no_container_repr
      staged_files_sample in
  o_order_id <$> staged_orders staged = [JInt 3; JInt 1]
  ∧ c_customer_id <$> staged_customers staged = [JStr "guest_3"; JInt 7]
  ∧ tx_amount <$> staged_transactions staged
    = [JObj [("value", JStr "5.00"); ("currency", JStr "USD")]].
Proof. vm_compute. done. Qed.
